(** * style-assets: registries, validation and bundling

    A shallow embedding of the services of the style-assets server
    (services/font_service.py, services/color_scheme_service.py,
    services/template_service.py, services/asset_manager.py) together with
    the properties its specification states about them.

    Conventions of the embedding.
    - A Python [str] is a [string] of 7-bit ASCII characters; on these
      [Str.lower] is [str.lower], [Str.replace] is [str.replace] with
      one-character arguments, and [\d] and [\s] are the ASCII digits and
      white space.  What [str.lower] does beyond ASCII is in [Unicode], for
      texts of code points.
    - A Python [dict] used as a keyed store is a [gmap string _]; where
      the code lists its keys, the model gives their set.  A colors dict is
      a list of pairs in insertion order.  A JSON object with optional keys
      is a record of [option] fields ([None] = key absent), the values
      having the type the code expects.
    - The clock ([datetime.now().isoformat()]) is an explicit argument
      [now], read once for each call.
    - The disk is read through a finite map from paths to file entries,
      given to each call that reads it; a call that writes files returns
      their paths.  [create_scheme] and [get_font_path] are the calls on a
      disk that takes every write; [create_scheme_on] and
      [get_font_path_on] are the same calls on a disk that can refuse one,
      where [open] raises.
    - A service method is a function from the registry it finds to the
      registry it leaves and the value it returns. *)

From stdpp Require Import base strings list gmap.
From Stdlib Require Import Ascii NArith QArith.

Close Scope Q_scope.

(** ** Strings *)

Module Str.

Definition is_upper (c : ascii) : bool :=
  let n := N_of_ascii c in ((65 <=? n) && (n <=? 90))%N.

(** [str.lower] on one ASCII character; a character from 128 on is left as
    it is (see [Unicode] for names beyond ASCII). *)
Definition lower_char (c : ascii) : ascii :=
  if is_upper c then ascii_of_N (N_of_ascii c + 32) else c.

Fixpoint map (f : ascii → ascii) (s : string) : string :=
  match s with
  | EmptyString => EmptyString
  | String c s' => String (f c) (map f s')
  end.

(** [s.lower()] *)
Definition lower (s : string) : string := map lower_char s.

(** [s.replace(old, new)] for one-character [old] and [new]. *)
Definition replace (old new : ascii) (s : string) : string :=
  map (λ c, if Ascii.eqb c old then new else c) s.

(** [s.upper()] *)
Definition is_lower (c : ascii) : bool :=
  let n := N_of_ascii c in ((97 <=? n) && (n <=? 122))%N.

Definition upper_char (c : ascii) : ascii :=
  if is_lower c then ascii_of_N (N_of_ascii c - 32) else c.

Definition upper (s : string) : string := map upper_char s.

(** Every character of [s] satisfies [p]. *)
Fixpoint all (p : ascii → bool) (s : string) : bool :=
  match s with
  | EmptyString => true
  | String c s' => p c && all p s'
  end.

(** [s.endswith(suffix)] *)
Definition endswith (s suffix : string) : bool :=
  let n := String.length s in
  let k := String.length suffix in
  (k <=? n)%nat && String.eqb (String.substring (n - k) k s) suffix.

(** [s.endswith((x1, ..., xn))] with a tuple of suffixes. *)
Definition endswith_any (s : string) (suffixes : list string) : bool :=
  existsb (endswith s) suffixes.

(** The newline, as a string. *)
Definition nl : string := String (ascii_of_N 10) "".

(** [sep.join(parts)] *)
Fixpoint join (sep : string) (parts : list string) : string :=
  match parts with
  | [] => ""
  | [part] => part
  | part :: rest => part +:+ sep +:+ join sep rest
  end.

End Str.

(** ** Identifier normalization

    [_generate_font_id], [_generate_scheme_id] and [_generate_template_id]
    are three methods with the same body. *)

Definition _generate_font_id (font_name : string) : string :=
  Str.replace "-" "_" (Str.replace " " "_" (Str.lower font_name)).

Definition _generate_scheme_id (scheme_name : string) : string :=
  Str.replace "-" "_" (Str.replace " " "_" (Str.lower scheme_name)).

Definition _generate_template_id (template_name : string) : string :=
  Str.replace "-" "_" (Str.replace " " "_" (Str.lower template_name)).

(** The normalization as the specification words it: lowercase, with every
    space and hyphen replaced by an underscore. *)
Definition is_separator (c : ascii) : bool :=
  Ascii.eqb c " " || Ascii.eqb c "-".

Definition normalize_char (c : ascii) : ascii :=
  if is_separator c then "_"%char else Str.lower_char c.

Definition normalized_id (name : string) : string := Str.map normalize_char name.

(** Two characters that differ only in letter case, or of which one is a
    space where the other is a hyphen. *)
Definition char_variant (c1 c2 : ascii) : Prop :=
  Str.lower_char c1 = Str.lower_char c2 ∨
  (is_separator c1 = true ∧ is_separator c2 = true).

Inductive name_variant : string → string → Prop :=
  | name_variant_nil : name_variant "" ""
  | name_variant_cons c1 c2 s1 s2 :
      char_variant c1 c2 → name_variant s1 s2 →
      name_variant (String c1 s1) (String c2 s2).

(** ** Regular expressions

    The patterns of [_validate_colors], as data, with a matcher by
    derivatives.  [re.match] anchors at the start of the string; the
    patterns end in [$], which Python matches at the end of the string and
    also just before a newline that ends the string. *)

Module Re.

Inductive regex : Type :=
  | Void
  | Eps
  | Sym (p : ascii → bool)
  | Seq (r1 r2 : regex)
  | Alt (r1 r2 : regex)
  | Star (r : regex).

Fixpoint nullable (r : regex) : bool :=
  match r with
  | Void => false
  | Eps => true
  | Sym _ => false
  | Seq r1 r2 => nullable r1 && nullable r2
  | Alt r1 r2 => nullable r1 || nullable r2
  | Star _ => true
  end.

Fixpoint deriv (c : ascii) (r : regex) : regex :=
  match r with
  | Void => Void
  | Eps => Void
  | Sym p => if p c then Eps else Void
  | Seq r1 r2 =>
      if nullable r1 then Alt (Seq (deriv c r1) r2) (deriv c r2)
      else Seq (deriv c r1) r2
  | Alt r1 r2 => Alt (deriv c r1) (deriv c r2)
  | Star r1 => Seq (deriv c r1) (Star r1)
  end.

(** The whole of [s] is in the language of [r]. *)
Fixpoint fullmatch (r : regex) (s : string) : bool :=
  match s with
  | EmptyString => nullable r
  | String c s' => fullmatch (deriv c r) s'
  end.

Definition lit (c : ascii) : regex := Sym (Ascii.eqb c).

Fixpoint seqs (rs : list regex) : regex :=
  match rs with
  | [] => Eps
  | r :: rs' => Seq r (seqs rs')
  end.

(** The characters of [s], one after the other. *)
Fixpoint lits (s : string) : regex :=
  match s with
  | EmptyString => Eps
  | String c s' => Seq (lit c) (lits s')
  end.

(** [r{n}] *)
Fixpoint times (n : nat) (r : regex) : regex :=
  match n with
  | O => Eps
  | S n' => Seq r (times n' r)
  end.

(** [r+] *)
Definition plus (r : regex) : regex := Seq r (Star r).

Definition in_range (lo hi : N) (c : ascii) : bool :=
  let n := N_of_ascii c in ((lo <=? n) && (n <=? hi))%N.

(** [\d] on ASCII *)
Definition digit (c : ascii) : bool := in_range 48 57 c.

(** [\s] on ASCII: tab, newline, vertical tab, form feed, carriage return,
    the separators 0x1c to 0x1f, and space. *)
Definition space (c : ascii) : bool :=
  in_range 9 13 c || in_range 28 31 c || Ascii.eqb c " ".

(** [[A-Fa-f0-9]] *)
Definition hexdigit (c : ascii) : bool :=
  in_range 65 70 c || in_range 97 102 c || in_range 48 57 c.

(** [[\d.]] *)
Definition digit_or_dot (c : ascii) : bool := digit c || Ascii.eqb c ".".

Definition newline : ascii := ascii_of_N 10.

(** A final [$]: the end of the string, or a newline that ends it. *)
Definition dollar : regex := Alt Eps (lit newline).

(** [pattern.match(s)] for a pattern [^r$]. *)
Definition match_ (r : regex) (s : string) : bool :=
  fullmatch (Seq r dollar) s.

(** The language of a regular expression: what the matcher is to decide. *)
Inductive lang : regex → string → Prop :=
  | lang_eps : lang Eps ""
  | lang_sym p c : p c = true → lang (Sym p) (String c "")
  | lang_seq r1 r2 s1 s2 :
      lang r1 s1 → lang r2 s2 → lang (Seq r1 r2) (s1 +:+ s2)
  | lang_alt_l r1 r2 s : lang r1 s → lang (Alt r1 r2) s
  | lang_alt_r r1 r2 s : lang r2 s → lang (Alt r1 r2) s
  | lang_star_nil r : lang (Star r) ""
  | lang_star_cons r s1 s2 :
      lang r s1 → lang (Star r) s2 → lang (Star r) (s1 +:+ s2).

End Re.

(** ** The file system

    What the services read from disk: whether a path exists
    ([os.path.exists]), its size ([os.path.getsize]) and what [json.load]
    does on it. *)

Module FS.

Inductive json_load : Type :=
  | JSONDecodeError
  | Loaded (color_count : nat)
  | OtherError.

Record file : Type := File { size : nat; load : json_load }.

(** [os.path.exists(path)] *)
Definition exists_ (fs : gmap string file) (path : string) : bool :=
  bool_decide (is_Some (fs !! path)).

(** [os.path.getsize(path)] of an existing path *)
Definition getsize (fs : gmap string file) (path : string) : nat :=
  from_option size 0 (fs !! path).

(** [os.path.join(directory, filename)]: an absolute [filename] discards
    [directory]. *)
Definition join (directory filename : string) : string :=
  match filename with
  | String "/" _ => filename
  | _ => directory +:+ "/" +:+ filename
  end.

(** The writes of a call, on a disk where [writable] tells which paths
    [open(path, 'w')] can open: the call gives [outcome] when every path of
    [paths] can be opened, and raises ([None]) otherwise. *)
Definition writes {A : Type} (writable : string → bool) (paths : list string)
    (outcome : A) : option A :=
  if forallb writable paths then Some outcome else None.

End FS.

(** The result of a catalog's create operation:
    [{'success': True, id, 'message', 'timestamp'}] or
    [{'success': False, 'error'}], with ['details'] when the colors were
    rejected. *)
Inductive create_result : Type :=
  | Created (new_id message timestamp : string)
  | Failed (error : string) (details : option (list string)).

Definition success (r : create_result) : bool :=
  match r with
  | Created _ _ _ => true
  | Failed _ _ => false
  end.

(** The result of a by-category query: the error payload that lists the
    known categories, or the listing. *)
Inductive category_result (A : Type) : Type :=
  | UnknownCategory (error : string) (available_categories : gset string)
  | Listing (category : string) (entries : list A) (count : nat)
            (timestamp : string).
Arguments UnknownCategory {A} _ _.
Arguments Listing {A} _ _ _ _.

(** ** Category indexes

    A category index [index] agrees with a primary map [primary] whose
    entries have the category [category_of]: every id it lists is a key of
    the primary map, filed under the category of its entry, and no list
    repeats an id. *)
Definition indexed {A : Type} (category_of : A → string)
    (primary : gmap string A) (index : gmap string (list string)) : Prop :=
  (∀ category ids i,
     index !! category = Some ids → i ∈ ids →
     ∃ a, primary !! i = Some a ∧ category_of a = category) ∧
  (∀ category ids, index !! category = Some ids → NoDup ids).

(** ** services/font_service.py *)

Module FontService.

(** An entry of [font_registry['fonts']]. *)
Record font_info : Type := FontInfo {
  fi_id : string;
  fi_name : string;
  fi_family : string;
  fi_category : string;
  fi_weight : string;
  fi_style : string;
  fi_formats : list string;
  fi_usage : string;
  fi_compatibility : list string;
  fi_file_size : string;
  fi_character_set : string;
  fi_license : string;
  fi_registered : string;
  fi_status : string;
  fi_download_count : nat
}.

(** The descriptor passed to [register_custom_font]. *)
Record font_data : Type := FontData {
  fd_name : option string;
  fd_family : option string;
  fd_category : option string;
  fd_weight : option string;
  fd_style : option string;
  fd_formats : option (list string);
  fd_usage : option string;
  fd_compatibility : option (list string);
  fd_file_size : option string;
  fd_character_set : option string;
  fd_license : option string
}.

Record registry : Type := Registry {
  fonts : gmap string font_info;
  categories : gmap string (list string);
  last_updated : string;
  total_fonts : nat
}.

Definition fonts_directory : string := "fonts".

(** [_initialize_font_registry] *)
Definition _initialize_font_registry (now : string) : registry :=
  {| fonts := ∅;
     categories :=
       <["decorative" := []]> (<["monospace" := []]>
         (<["sans_serif" := []]> (<["serif" := []]> ∅)));
     last_updated := now;
     total_fonts := 0 |}.

(** The entries of [default_fonts], before [id], [registered], [status] and
    [download_count] are added. *)
Definition default_font (name family category : string)
    (formats : list string) (usage : string) (compatibility : list string)
    (file_size character_set : string) : font_info :=
  {| fi_id := ""; fi_name := name; fi_family := family;
     fi_category := category; fi_weight := "normal"; fi_style := "normal";
     fi_formats := formats; fi_usage := usage;
     fi_compatibility := compatibility; fi_file_size := file_size;
     fi_character_set := character_set; fi_license := "commercial";
     fi_registered := ""; fi_status := ""; fi_download_count := 0 |}.

Definition default_fonts : list font_info :=
  [ default_font "Times New Roman" "Times" "serif" ["ttf"]
      "Academic papers, formal documents" ["ieee"; "nature"; "apa"]
      "1.2MB" "latin_extended";
    default_font "Arial" "Arial" "sans_serif" ["ttf"]
      "Modern documents, presentations" ["modern"; "web"]
      "1.1MB" "latin_extended";
    default_font "Helvetica" "Helvetica" "sans_serif" ["ttf"; "otf"]
      "Professional documents, branding" ["modern"; "corporate"]
      "1.3MB" "latin_extended";
    default_font "Courier New" "Courier" "monospace" ["ttf"]
      "Code blocks, technical documentation" ["technical"; "code"]
      "0.8MB" "latin_basic";
    default_font "Georgia" "Georgia" "serif" ["ttf"]
      "Web content, readable documents" ["web"; "modern"]
      "1.0MB" "latin_extended" ].

(** The body of the loop of [_register_default_fonts]: the category index
    is extended only when the category is already a key. *)
Definition register_default (now : string) (reg : registry)
    (font : font_info) : registry :=
  let font_id := _generate_font_id (fi_name font) in
  let entry :=
    {| fi_id := font_id; fi_name := fi_name font;
       fi_family := fi_family font; fi_category := fi_category font;
       fi_weight := fi_weight font; fi_style := fi_style font;
       fi_formats := fi_formats font; fi_usage := fi_usage font;
       fi_compatibility := fi_compatibility font;
       fi_file_size := fi_file_size font;
       fi_character_set := fi_character_set font;
       fi_license := fi_license font;
       fi_registered := now; fi_status := "available";
       fi_download_count := 0 |} in
  let category := fi_category font in
  {| fonts := <[font_id := entry]> (fonts reg);
     categories :=
       match categories reg !! category with
       | Some ids => <[category := ids ++ [font_id]]> (categories reg)
       | None => categories reg
       end;
     last_updated := last_updated reg;
     total_fonts := total_fonts reg |}.

(** [_register_default_fonts] *)
Definition _register_default_fonts (now : string) (reg : registry) : registry :=
  let reg' := foldl (register_default now) reg default_fonts in
  {| fonts := fonts reg';
     categories := categories reg';
     last_updated := now;
     total_fonts := size (fonts reg') |}.

(** [FontService.__init__] *)
Definition init (now : string) : registry :=
  _register_default_fonts now (_initialize_font_registry now).

(** The ['metadata'] added to the copy that [get_font_details] returns. *)
Record font_metadata : Type := FontMetadata {
  fm_last_accessed : string;
  fm_download_url : string;
  fm_preview_url : string
}.

(** [get_font_details]: the registry is only read, and is left as it was. *)
Definition get_font_details (now : string) (font_name : string)
    (reg : registry) : registry * option (font_info * font_metadata) :=
  let font_id := _generate_font_id font_name in
  match fonts reg !! font_id with
  | Some font_info =>
      (reg,
       Some (font_info,
             {| fm_last_accessed := now;
                fm_download_url := "/api/fonts/" +:+ font_name +:+ "/download";
                fm_preview_url := "/api/fonts/" +:+ font_name +:+ "/preview" |}))
  | None => (reg, None)
  end.

Definition with_download_count (n : nat) (font : font_info) : font_info :=
  {| fi_id := fi_id font; fi_name := fi_name font;
     fi_family := fi_family font; fi_category := fi_category font;
     fi_weight := fi_weight font; fi_style := fi_style font;
     fi_formats := fi_formats font; fi_usage := fi_usage font;
     fi_compatibility := fi_compatibility font;
     fi_file_size := fi_file_size font;
     fi_character_set := fi_character_set font;
     fi_license := fi_license font;
     fi_registered := fi_registered font; fi_status := fi_status font;
     fi_download_count := n |}.

Definition with_fonts (m : gmap string font_info) (reg : registry) : registry :=
  {| fonts := m; categories := categories reg;
     last_updated := last_updated reg; total_fonts := total_fonts reg |}.

(** The path [get_font_path] tries for one format. *)
Definition font_file_path (font_name format_ext : string) : string :=
  FS.join fonts_directory
    (Str.replace " " "_" (Str.lower font_name) +:+ "." +:+ format_ext).

(** The path of the file [_create_font_placeholder] writes. *)
Definition placeholder_path (font_name : string) : string :=
  FS.join fonts_directory
    (Str.replace " " "_" (Str.lower font_name) +:+ "_placeholder.txt").

(** What [get_font_path] returns: the path, and the placeholder it wrote,
    if any. *)
Record path_result : Type := PathResult {
  pr_path : option string;
  pr_written : list string
}.

(** [get_font_path]: the first format whose file exists counts a download;
    when none exists a placeholder is written.  The write is taken to go
    through; [get_font_path_on] is the call on a disk that can refuse
    it. *)
Definition get_font_path (fs : gmap string FS.file) (font_name : string)
    (reg : registry) : registry * path_result :=
  let font_id := _generate_font_id font_name in
  match fonts reg !! font_id with
  | Some font_info =>
      match find (λ format_ext, FS.exists_ fs (font_file_path font_name format_ext))
                 (fi_formats font_info) with
      | Some format_ext =>
          (with_fonts
             (<[font_id :=
                  with_download_count (fi_download_count font_info + 1) font_info]>
                (fonts reg)) reg,
           {| pr_path := Some (font_file_path font_name format_ext);
              pr_written := [] |})
      | None =>
          (reg, {| pr_path := Some (placeholder_path font_name);
                   pr_written := [placeholder_path font_name] |})
      end
  | None => (reg, {| pr_path := None; pr_written := [] |})
  end.

(** [get_font_path] on a disk that can refuse a write.
    [_create_font_placeholder] opens the placeholder as the last step of
    the call, with the registry as it was found: where [open] raises, the
    call raises ([None]) and returns no path. *)
Definition get_font_path_on (writable : string → bool)
    (fs : gmap string FS.file) (font_name : string) (reg : registry)
    : option (registry * path_result) :=
  let outcome := get_font_path fs font_name reg in
  FS.writes writable (pr_written outcome.2) outcome.

(** An entry of the listing of [get_fonts_by_category]. *)
Record font_summary : Type := FontSummary {
  fs_id : string;
  fs_name : string;
  fs_family : string;
  fs_weight : string;
  fs_style : string;
  fs_usage : string
}.

(** [get_fonts_by_category] *)
Definition get_fonts_by_category (now : string) (category : string)
    (reg : registry) : category_result font_summary :=
  match categories reg !! category with
  | None =>
      UnknownCategory ("Unknown category: " +:+ category) (dom (categories reg))
  | Some font_ids =>
      let fonts_ : list font_summary :=
        omap (λ font_id : string,
                match fonts reg !! font_id with
                | Some font_info =>
                    Some {| fs_id := font_id; fs_name := fi_name font_info;
                            fs_family := fi_family font_info;
                            fs_weight := fi_weight font_info;
                            fs_style := fi_style font_info;
                            fs_usage := fi_usage font_info |}
                | None => None
                end) font_ids in
      Listing category fonts_ (length fonts_) now
  end.

(** [register_custom_font]: the required fields are checked in the order
    name, family, category; then the derived id must be free. *)
Definition register_custom_font (now : string) (data : font_data)
    (reg : registry) : registry * create_result :=
  match fd_name data with
  | None => (reg, Failed "Missing required field: name" None)
  | Some name =>
  match fd_family data with
  | None => (reg, Failed "Missing required field: family" None)
  | Some family =>
  match fd_category data with
  | None => (reg, Failed "Missing required field: category" None)
  | Some category =>
      let font_id := _generate_font_id name in
      if bool_decide (is_Some (fonts reg !! font_id)) then
        (reg, Failed ("Font " +:+ name +:+ " already exists") None)
      else
        let font_info :=
          {| fi_id := font_id; fi_name := name; fi_family := family;
             fi_category := category;
             fi_weight := default "normal" (fd_weight data);
             fi_style := default "normal" (fd_style data);
             fi_formats := default ["ttf"] (fd_formats data);
             fi_usage := default "General purpose" (fd_usage data);
             fi_compatibility := default [] (fd_compatibility data);
             fi_file_size := default "Unknown" (fd_file_size data);
             fi_character_set := default "latin_basic" (fd_character_set data);
             fi_license := default "custom" (fd_license data);
             fi_registered := now; fi_status := "available";
             fi_download_count := 0 |} in
        let fonts' := <[font_id := font_info]> (fonts reg) in
        let categories' :=
          match categories reg !! category with
          | Some ids => <[category := ids ++ [font_id]]> (categories reg)
          | None => <[category := [font_id]]> (categories reg)
          end in
        ({| fonts := fonts'; categories := categories';
            last_updated := now; total_fonts := size fonts' |},
         Created font_id ("Font " +:+ name +:+ " registered successfully") now)
  end end end.

(** The calls that can change the registry. *)
Inductive call : Type :=
  | RegisterCustomFont (now : string) (data : font_data)
  | GetFontDetails (now : string) (font_name : string)
  | GetFontPath (fs : gmap string FS.file) (font_name : string).

Definition run (c : call) (reg : registry) : registry :=
  match c with
  | RegisterCustomFont now data => (register_custom_font now data reg).1
  | GetFontDetails now font_name => (get_font_details now font_name reg).1
  | GetFontPath fs font_name => (get_font_path fs font_name reg).1
  end.

(** The registries the service can be in: the one [__init__] builds, and
    any registry a call leaves behind. *)
Inductive reachable : registry → Prop :=
  | reachable_init now : reachable (init now)
  | reachable_run c reg : reachable reg → reachable (run c reg).

(** The registry invariant: the category index agrees with the primary
    map. *)
Definition consistent (reg : registry) : Prop :=
  indexed fi_category (fonts reg) (categories reg).

End FontService.

(** ** services/color_scheme_service.py *)

Module ColorSchemeService.

Record accessibility : Type := Accessibility {
  wcag_aa_compliant : bool;
  contrast_ratio : Q
}.

(** An entry of [scheme_registry['schemes']].  [si_colors] is the colors
    dict in insertion order. *)
Record scheme_info : Type := SchemeInfo {
  si_id : string;
  si_name : string;
  si_category : string;
  si_description : string;
  si_colors : list (string * string);
  si_usage : string;
  si_compatibility : list string;
  si_accessibility : accessibility;
  si_created : string;
  si_status : string;
  si_usage_count : nat
}.

(** The descriptor passed to [create_scheme]. *)
Record scheme_data : Type := SchemeData {
  sd_name : option string;
  sd_category : option string;
  sd_colors : option (list (string * string));
  sd_description : option string;
  sd_usage : option string;
  sd_compatibility : option (list string);
  sd_accessibility : option accessibility
}.

Record registry : Type := Registry {
  schemes : gmap string scheme_info;
  categories : gmap string (list string);
  last_updated : string;
  total_schemes : nat
}.

Definition schemes_directory : string := "color_schemes".

(** The ten semantic color roles of the built-in schemes. *)
Definition required_roles : list string :=
  ["primary"; "secondary"; "accent"; "background"; "text";
   "text_secondary"; "border"; "highlight"; "error"; "success"].

(** [_initialize_scheme_registry] *)
Definition _initialize_scheme_registry (now : string) : registry :=
  {| schemes := ∅;
     categories :=
       <["creative" := []]> (<["corporate" := []]>
         (<["modern" := []]> (<["academic" := []]> ∅)));
     last_updated := now;
     total_schemes := 0 |}.

(** A colors dict with the ten roles in the order the source lists them. *)
Definition palette (primary secondary accent background text text_secondary
    border highlight error success : string) : list (string * string) :=
  [("primary", primary); ("secondary", secondary); ("accent", accent);
   ("background", background); ("text", text);
   ("text_secondary", text_secondary); ("border", border);
   ("highlight", highlight); ("error", error); ("success", success)].

(** An entry of [default_schemes], before [id], [created], [status] and
    [usage_count] are added. *)
Definition default_scheme (name category description : string)
    (colors : list (string * string)) (usage : string)
    (compatibility : list string) (wcag : bool) (ratio : Q) : scheme_info :=
  {| si_id := ""; si_name := name; si_category := category;
     si_description := description; si_colors := colors; si_usage := usage;
     si_compatibility := compatibility;
     si_accessibility :=
       {| wcag_aa_compliant := wcag; contrast_ratio := ratio |};
     si_created := ""; si_status := ""; si_usage_count := 0 |}.

Definition default_schemes : list scheme_info :=
  [ default_scheme "Academic Blue" "academic"
      "Professional blue tones for academic publications"
      (palette "#003366" "#0066CC" "#3399FF" "#FFFFFF" "#000000"
               "#333333" "#CCCCCC" "#FFFF99" "#CC0000" "#006600")
      "IEEE papers, technical documents" ["ieee"; "technical"]
      true (45 # 10)%Q;
    default_scheme "Nature Green" "academic"
      "Natural green palette for scientific publications"
      (palette "#2D5016" "#4A7C28" "#6FA83B" "#FFFFFF" "#000000"
               "#2D2D2D" "#B8D4A5" "#E8F5E8" "#B71C1C" "#2E7D32")
      "Nature journal style, environmental studies"
      ["nature"; "environmental"] true (48 # 10)%Q;
    default_scheme "Modern Grayscale" "modern"
      "Clean grayscale palette for contemporary designs"
      (palette "#2C2C2C" "#4A4A4A" "#007ACC" "#FFFFFF" "#1A1A1A"
               "#666666" "#E0E0E0" "#F5F5F5" "#E53E3E" "#38A169")
      "Modern documents, presentations" ["modern"; "minimal"]
      true (72 # 10)%Q;
    default_scheme "Corporate Blue" "corporate"
      "Professional corporate color scheme"
      (palette "#1E3A8A" "#3B82F6" "#60A5FA" "#FFFFFF" "#111827"
               "#4B5563" "#D1D5DB" "#EBF8FF" "#DC2626" "#059669")
      "Business reports, corporate documents" ["corporate"; "business"]
      true (51 # 10)%Q;
    default_scheme "Creative Palette" "creative"
      "Vibrant colors for creative projects"
      (palette "#7C3AED" "#A855F7" "#C084FC" "#FEFEFE" "#1F2937"
               "#374151" "#E5E7EB" "#FDF4FF" "#F87171" "#34D399")
      "Creative presentations, artistic documents" ["creative"; "artistic"]
      false (38 # 10)%Q ].

(** The path [_save_scheme_to_file] writes. *)
Definition scheme_file_path (name : string) : string :=
  FS.join schemes_directory
    (Str.replace " " "_" (Str.lower name) +:+ ".json").

(** The body of the loop of [_create_default_schemes]. *)
Definition create_default (now : string) (reg : registry)
    (scheme : scheme_info) : registry :=
  let scheme_id := _generate_scheme_id (si_name scheme) in
  let entry :=
    {| si_id := scheme_id; si_name := si_name scheme;
       si_category := si_category scheme;
       si_description := si_description scheme;
       si_colors := si_colors scheme; si_usage := si_usage scheme;
       si_compatibility := si_compatibility scheme;
       si_accessibility := si_accessibility scheme;
       si_created := now; si_status := "active"; si_usage_count := 0 |} in
  let category := si_category scheme in
  {| schemes := <[scheme_id := entry]> (schemes reg);
     categories :=
       match categories reg !! category with
       | Some ids => <[category := ids ++ [scheme_id]]> (categories reg)
       | None => categories reg
       end;
     last_updated := last_updated reg;
     total_schemes := total_schemes reg |}.

(** [_create_default_schemes]: the registry it leaves, and the files it
    saves. *)
Definition _create_default_schemes (now : string) (reg : registry)
    : registry * list string :=
  let reg' := foldl (create_default now) reg default_schemes in
  ({| schemes := schemes reg';
      categories := categories reg';
      last_updated := now;
      total_schemes := size (schemes reg') |},
   (λ scheme, scheme_file_path (si_name scheme)) <$> default_schemes).

(** [ColorSchemeService.__init__] *)
Definition init (now : string) : registry :=
  (_create_default_schemes now (_initialize_scheme_registry now)).1.

(** [hex_pattern], [rgb_pattern] and [rgba_pattern] *)
Definition hex_pattern : Re.regex :=
  Re.Seq (Re.lit "#")
    (Re.Alt (Re.times 6 (Re.Sym Re.hexdigit))
            (Re.times 3 (Re.Sym Re.hexdigit))).

Definition spaces : Re.regex := Re.Star (Re.Sym Re.space).
Definition digits : Re.regex := Re.plus (Re.Sym Re.digit).

Definition rgb_pattern : Re.regex :=
  Re.seqs [Re.lits "rgb("; spaces; digits; spaces; Re.lit ",";
           spaces; digits; spaces; Re.lit ",";
           spaces; digits; spaces; Re.lit ")"].

Definition rgba_pattern : Re.regex :=
  Re.seqs [Re.lits "rgba("; spaces; digits; spaces; Re.lit ",";
           spaces; digits; spaces; Re.lit ",";
           spaces; digits; spaces; Re.lit ",";
           spaces; Re.plus (Re.Sym Re.digit_or_dot); spaces; Re.lit ")"].

(** The test of the loop of [_validate_colors]. *)
Definition color_matches (color_value : string) : bool :=
  Re.match_ hex_pattern color_value
  || Re.match_ rgb_pattern color_value
  || Re.match_ rgba_pattern color_value.

Record color_validation : Type := ColorValidation {
  cv_valid : bool;
  cv_errors : list string
}.

(** The body of the loop of [_validate_colors]. *)
Definition validate_color (validation : color_validation)
    (entry : string * string) : color_validation :=
  let '(color_name, color_value) := entry in
  if color_matches color_value then validation
  else
    {| cv_valid := false;
       cv_errors :=
         cv_errors validation ++
         ["Invalid color format for " +:+ color_name +:+ ": " +:+ color_value] |}.

(** [_validate_colors] *)
Definition _validate_colors (colors : list (string * string))
    : color_validation :=
  foldl validate_color {| cv_valid := true; cv_errors := [] |} colors.

(** The ['metadata'] added to the copy that [get_scheme] returns. *)
Record scheme_metadata : Type := SchemeMetadata {
  sm_last_accessed : string;
  sm_preview_url : string;
  sm_css_url : string
}.

Definition with_usage_count (n : nat) (scheme : scheme_info) : scheme_info :=
  {| si_id := si_id scheme; si_name := si_name scheme;
     si_category := si_category scheme;
     si_description := si_description scheme;
     si_colors := si_colors scheme; si_usage := si_usage scheme;
     si_compatibility := si_compatibility scheme;
     si_accessibility := si_accessibility scheme;
     si_created := si_created scheme; si_status := si_status scheme;
     si_usage_count := n |}.

Definition with_schemes (m : gmap string scheme_info) (reg : registry)
    : registry :=
  {| schemes := m; categories := categories reg;
     last_updated := last_updated reg; total_schemes := total_schemes reg |}.

(** [get_scheme]: the copy is taken before the usage count of the stored
    entry is incremented. *)
Definition get_scheme (now : string) (scheme_name : string) (reg : registry)
    : registry * option (scheme_info * scheme_metadata) :=
  let scheme_id := _generate_scheme_id scheme_name in
  match schemes reg !! scheme_id with
  | Some scheme_info =>
      (with_schemes
         (<[scheme_id :=
              with_usage_count (si_usage_count scheme_info + 1) scheme_info]>
            (schemes reg)) reg,
       Some (scheme_info,
             {| sm_last_accessed := now;
                sm_preview_url :=
                  "/api/color-schemes/" +:+ scheme_name +:+ "/preview";
                sm_css_url :=
                  "/api/color-schemes/" +:+ scheme_name +:+ "/css" |}))
  | None => (reg, None)
  end.

(** What [create_scheme] leaves: the registry, the result it returns and
    the files it saved. *)
Record creation : Type := Creation {
  cr_registry : registry;
  cr_result : create_result;
  cr_written : list string
}.

(** [create_scheme]: the required fields are checked in the order name,
    category, colors; then the derived id must be free; then the colors are
    validated.  The save to file is taken to go through;
    [create_scheme_on] is the call on a disk that can refuse it. *)
Definition create_scheme (now : string) (data : scheme_data) (reg : registry)
    : creation :=
  let failed error details :=
    {| cr_registry := reg; cr_result := Failed error details;
       cr_written := [] |} in
  match sd_name data with
  | None => failed "Missing required field: name" None
  | Some name =>
  match sd_category data with
  | None => failed "Missing required field: category" None
  | Some category =>
  match sd_colors data with
  | None => failed "Missing required field: colors" None
  | Some colors =>
      let scheme_id := _generate_scheme_id name in
      if bool_decide (is_Some (schemes reg !! scheme_id)) then
        failed ("Color scheme " +:+ name +:+ " already exists") None
      else
        let color_validation := _validate_colors colors in
        if negb (cv_valid color_validation) then
          failed "Invalid color format" (Some (cv_errors color_validation))
        else
          let scheme_info :=
            {| si_id := scheme_id; si_name := name; si_category := category;
               si_description := default "" (sd_description data);
               si_colors := colors;
               si_usage := default "General purpose" (sd_usage data);
               si_compatibility := default [] (sd_compatibility data);
               si_accessibility :=
                 default {| wcag_aa_compliant := false; contrast_ratio := 0%Q |}
                         (sd_accessibility data);
               si_created := now; si_status := "active";
               si_usage_count := 0 |} in
          let schemes' := <[scheme_id := scheme_info]> (schemes reg) in
          let categories' :=
            match categories reg !! category with
            | Some ids => <[category := ids ++ [scheme_id]]> (categories reg)
            | None => <[category := [scheme_id]]> (categories reg)
            end in
          {| cr_registry :=
               {| schemes := schemes'; categories := categories';
                  last_updated := now; total_schemes := size schemes' |};
             cr_result :=
               Created scheme_id
                 ("Color scheme " +:+ name +:+ " created successfully") now;
             cr_written := [scheme_file_path name] |}
  end end end.

(** [create_scheme] on a disk that can refuse a write.
    [_save_scheme_to_file] opens the file after the checks and before the
    scheme is registered: where [open] raises, the call raises ([None]),
    with nothing registered and no result returned. *)
Definition create_scheme_on (writable : string → bool) (now : string)
    (data : scheme_data) (reg : registry) : option creation :=
  let outcome := create_scheme now data reg in
  FS.writes writable (cr_written outcome) outcome.

(** An entry of the listing of [get_schemes_by_category]. *)
Record scheme_summary : Type := SchemeSummary {
  ss_id : string;
  ss_name : string;
  ss_description : string;
  ss_colors : list (string * string);
  ss_usage : string
}.

(** [get_schemes_by_category] *)
Definition get_schemes_by_category (now : string) (category : string)
    (reg : registry) : category_result scheme_summary :=
  match categories reg !! category with
  | None =>
      UnknownCategory ("Unknown category: " +:+ category) (dom (categories reg))
  | Some scheme_ids =>
      let schemes_ : list scheme_summary :=
        omap (λ scheme_id : string,
                match schemes reg !! scheme_id with
                | Some scheme_info =>
                    Some {| ss_id := scheme_id; ss_name := si_name scheme_info;
                            ss_description := si_description scheme_info;
                            ss_colors := si_colors scheme_info;
                            ss_usage := si_usage scheme_info |}
                | None => None
                end) scheme_ids in
      Listing category schemes_ (length schemes_) now
  end.

(** The calls that can change the registry ([generate_css] changes it
    through [get_scheme] only). *)
Inductive call : Type :=
  | CreateScheme (now : string) (data : scheme_data)
  | GetScheme (now : string) (scheme_name : string).

Definition run (c : call) (reg : registry) : registry :=
  match c with
  | CreateScheme now data => cr_registry (create_scheme now data reg)
  | GetScheme now scheme_name => (get_scheme now scheme_name reg).1
  end.

Inductive reachable : registry → Prop :=
  | reachable_init now : reachable (init now)
  | reachable_run c reg : reachable reg → reachable (run c reg).

(** The registry invariant: the category index agrees with the primary
    map. *)
Definition consistent (reg : registry) : Prop :=
  indexed si_category (schemes reg) (categories reg).

(** [colors.get(role, fallback)] *)
Definition colors_get (role fallback : string) (colors : list (string * string))
    : string :=
  default fallback (snd <$> List.find (λ entry, String.eqb entry.1 role) colors).

(** The lines [_generate_css_variables] joins. *)
Definition css_variables_lines (colors : list (string * string)) : list string :=
  [":root {"]
  ++ ((λ entry : string * string,
         "  --color-" +:+ Str.replace "_" "-" entry.1 +:+ ": " +:+ entry.2 +:+ ";")
        <$> colors)
  ++ ["}"].

(** [_generate_css_variables] *)
Definition _generate_css_variables (colors : list (string * string)) : string :=
  Str.join Str.nl (css_variables_lines colors).

(** The twelve lines [_generate_css_classes] adds for one color. *)
Definition css_class_lines (entry : string * string) : list string :=
  let class_name := Str.replace "_" "-" entry.1 in
  let color_value := entry.2 in
  [ ".bg-" +:+ class_name +:+ " {";
    "  background-color: " +:+ color_value +:+ ";";
    "}";
    "";
    ".text-" +:+ class_name +:+ " {";
    "  color: " +:+ color_value +:+ ";";
    "}";
    "";
    ".border-" +:+ class_name +:+ " {";
    "  border-color: " +:+ color_value +:+ ";";
    "}";
    "" ].

(** [_generate_css_classes] *)
Definition _generate_css_classes (colors : list (string * string)) : string :=
  Str.join Str.nl (concat (css_class_lines <$> colors)).

(** [_generate_complete_css] *)
Definition _generate_complete_css (now : string)
    (colors : list (string * string)) (scheme_name : string) : string :=
  Str.join Str.nl
    [ "/* " +:+ scheme_name +:+ " Color Scheme */";
      "/* Generated on " +:+ now +:+ " */";
      "";
      _generate_css_variables colors;
      "";
      _generate_css_classes colors;
      "";
      "/* Base styling */";
      "body {";
      "  background-color: " +:+ colors_get "background" "#FFFFFF" colors +:+ ";";
      "  color: " +:+ colors_get "text" "#000000" colors +:+ ";";
      "}";
      "";
      "h1, h2, h3, h4, h5, h6 {";
      "  color: " +:+ colors_get "primary" "#000000" colors +:+ ";";
      "}";
      "";
      "a {";
      "  color: " +:+ colors_get "accent" "#0066CC" colors +:+ ";";
      "}";
      "";
      "a:hover {";
      "  color: " +:+ colors_get "secondary" "#003366" colors +:+ ";";
      "}";
      "";
      ".highlight {";
      "  background-color: " +:+ colors_get "highlight" "#FFFF99" colors +:+ ";";
      "}";
      "";
      ".error {";
      "  color: " +:+ colors_get "error" "#CC0000" colors +:+ ";";
      "}";
      "";
      ".success {";
      "  color: " +:+ colors_get "success" "#006600" colors +:+ ";";
      "}" ].

(** What [generate_css] returns. *)
Inductive css_result : Type :=
  | CssGenerated (scheme_name css_format css_content timestamp : string)
  | CssFailed (error : string).

(** [generate_css]: the scheme is fetched with [get_scheme] before the
    format is looked at. *)
Definition generate_css (now : string) (scheme_name css_format : string)
    (reg : registry) : registry * css_result :=
  let fetched := get_scheme now scheme_name reg in
  match fetched.2 with
  | None => (fetched.1, CssFailed "Color scheme not found")
  | Some (scheme, _) =>
      let colors := si_colors scheme in
      if String.eqb css_format "variables" then
        (fetched.1,
         CssGenerated scheme_name css_format (_generate_css_variables colors) now)
      else if String.eqb css_format "classes" then
        (fetched.1,
         CssGenerated scheme_name css_format (_generate_css_classes colors) now)
      else if String.eqb css_format "complete" then
        (fetched.1,
         CssGenerated scheme_name css_format
           (_generate_complete_css now colors scheme_name) now)
      else (fetched.1, CssFailed ("Unknown CSS format: " +:+ css_format))
  end.

End ColorSchemeService.

(** ** services/template_service.py *)

Module TemplateService.

(** An entry of [template_registry['templates']]. *)
Record template_info : Type := TemplateInfo {
  ti_id : string;
  ti_name : string;
  ti_category : string;
  ti_description : string;
  ti_file_extension : string;
  ti_content : string;
  ti_style_compatibility : list string;
  ti_variables : list string;
  ti_features : list string;
  ti_created : string;
  ti_status : string;
  ti_usage_count : nat
}.

Record registry : Type := Registry {
  templates : gmap string template_info;
  categories : gmap string (list string);
  last_updated : string;
  total_templates : nat
}.

(** The text bodies the six [_get_..._template] methods return. *)
Record template_texts : Type := TemplateTexts {
  _get_ieee_html_template : string;
  _get_nature_html_template : string;
  _get_ieee_css_template : string;
  _get_modern_css_template : string;
  _get_latex_ieee_template : string;
  _get_markdown_template : string
}.

Definition templates_directory : string := "templates".

(** [_initialize_template_registry] *)
Definition _initialize_template_registry (now : string) : registry :=
  {| templates := ∅;
     categories :=
       <["markdown" := []]> (<["latex" := []]>
         (<["css" := []]> (<["html" := []]> ∅)));
     last_updated := now;
     total_templates := 0 |}.

(** An entry of [templates_data], before [id], [created], [status] and
    [usage_count] are added. *)
Definition default_template (name category description file_extension
    content : string) (style_compatibility variables features : list string)
    : template_info :=
  {| ti_id := ""; ti_name := name; ti_category := category;
     ti_description := description; ti_file_extension := file_extension;
     ti_content := content; ti_style_compatibility := style_compatibility;
     ti_variables := variables; ti_features := features;
     ti_created := ""; ti_status := ""; ti_usage_count := 0 |}.

Definition templates_data (texts : template_texts) : list template_info :=
  [ default_template "IEEE Article HTML" "html"
      "HTML template for IEEE style articles" "html"
      (_get_ieee_html_template texts) ["ieee"]
      ["title"; "authors"; "abstract"; "content"]
      ["two_column"; "citations"; "figures"];
    default_template "Nature Article HTML" "html"
      "HTML template for Nature style articles" "html"
      (_get_nature_html_template texts) ["nature"]
      ["title"; "authors"; "abstract"; "content"]
      ["single_column"; "large_figures"; "author_affiliations"];
    default_template "IEEE CSS Stylesheet" "css"
      "CSS stylesheet for IEEE formatting" "css"
      (_get_ieee_css_template texts) ["ieee"]
      ["primary_color"; "font_family"; "font_size"]
      ["two_column_layout"; "academic_styling"];
    default_template "Modern CSS Framework" "css"
      "Modern CSS framework for publications" "css"
      (_get_modern_css_template texts) ["modern"; "web"]
      ["color_scheme"; "typography"; "spacing"]
      ["responsive"; "dark_mode"; "accessibility"];
    default_template "LaTeX IEEE Template" "latex"
      "LaTeX template for IEEE conferences" "tex"
      (_get_latex_ieee_template texts) ["ieee"]
      ["title"; "authors"; "abstract"; "keywords"]
      ["ieee_format"; "bibliography"; "figures"];
    default_template "Markdown Academic" "markdown"
      "Markdown template for academic papers" "md"
      (_get_markdown_template texts) ["academic"; "github"]
      ["title"; "authors"; "date"; "abstract"]
      ["pandoc_compatible"; "citations"; "tables"] ].

(** The path [_save_template_to_file] writes. *)
Definition template_file_path (name file_extension : string) : string :=
  FS.join templates_directory
    (Str.replace " " "_" (Str.lower name) +:+ "." +:+ file_extension).

(** The body of the loop of [_create_default_templates]. *)
Definition create_default (now : string) (reg : registry)
    (template : template_info) : registry :=
  let template_id := _generate_template_id (ti_name template) in
  let entry :=
    {| ti_id := template_id; ti_name := ti_name template;
       ti_category := ti_category template;
       ti_description := ti_description template;
       ti_file_extension := ti_file_extension template;
       ti_content := ti_content template;
       ti_style_compatibility := ti_style_compatibility template;
       ti_variables := ti_variables template;
       ti_features := ti_features template;
       ti_created := now; ti_status := "active"; ti_usage_count := 0 |} in
  let category := ti_category template in
  {| templates := <[template_id := entry]> (templates reg);
     categories :=
       match categories reg !! category with
       | Some ids => <[category := ids ++ [template_id]]> (categories reg)
       | None => categories reg
       end;
     last_updated := last_updated reg;
     total_templates := total_templates reg |}.

(** [_create_default_templates]: the registry it leaves, and the files it
    saves. *)
Definition _create_default_templates (texts : template_texts) (now : string)
    (reg : registry) : registry * list string :=
  let reg' := foldl (create_default now) reg (templates_data texts) in
  ({| templates := templates reg';
      categories := categories reg';
      last_updated := now;
      total_templates := size (templates reg') |},
   (λ template,
      template_file_path (ti_name template) (ti_file_extension template))
     <$> templates_data texts).

(** [TemplateService.__init__] *)
Definition init (texts : template_texts) (now : string) : registry :=
  (_create_default_templates texts now (_initialize_template_registry now)).1.

(** The ['metadata'] added to the copy that [get_template] returns. *)
Record template_metadata : Type := TemplateMetadata {
  tm_last_accessed : string;
  tm_download_url : string;
  tm_preview_url : string
}.

Definition with_usage_count (n : nat) (template : template_info)
    : template_info :=
  {| ti_id := ti_id template; ti_name := ti_name template;
     ti_category := ti_category template;
     ti_description := ti_description template;
     ti_file_extension := ti_file_extension template;
     ti_content := ti_content template;
     ti_style_compatibility := ti_style_compatibility template;
     ti_variables := ti_variables template;
     ti_features := ti_features template;
     ti_created := ti_created template; ti_status := ti_status template;
     ti_usage_count := n |}.

Definition with_templates (m : gmap string template_info) (reg : registry)
    : registry :=
  {| templates := m; categories := categories reg;
     last_updated := last_updated reg;
     total_templates := total_templates reg |}.

(** [get_template]: the copy is taken before the usage count of the stored
    entry is incremented. *)
Definition get_template (now : string) (template_name : string)
    (reg : registry) : registry * option (template_info * template_metadata) :=
  let template_id := _generate_template_id template_name in
  match templates reg !! template_id with
  | Some template_info =>
      (with_templates
         (<[template_id :=
              with_usage_count (ti_usage_count template_info + 1)
                template_info]>
            (templates reg)) reg,
       Some (template_info,
             {| tm_last_accessed := now;
                tm_download_url :=
                  "/api/templates/" +:+ template_name +:+ "/download";
                tm_preview_url :=
                  "/api/templates/" +:+ template_name +:+ "/preview" |}))
  | None => (reg, None)
  end.

(** The path of the file [_create_template_placeholder] writes. *)
Definition placeholder_path (template_name file_extension : string) : string :=
  FS.join templates_directory
    (Str.replace " " "_" (Str.lower template_name)
     +:+ "_placeholder." +:+ file_extension).

(** What [get_template_path] returns: the path, and the placeholder it
    wrote, if any. *)
Record path_result : Type := PathResult {
  pr_path : option string;
  pr_written : list string
}.

(** [get_template_path]: the file is looked for under the name of the
    request; the registry is only read. *)
Definition get_template_path (fs : gmap string FS.file)
    (template_name : string) (reg : registry) : path_result :=
  let template_id := _generate_template_id template_name in
  match templates reg !! template_id with
  | Some template_info =>
      let file_path :=
        template_file_path template_name (ti_file_extension template_info) in
      if FS.exists_ fs file_path then
        {| pr_path := Some file_path; pr_written := [] |}
      else
        let placeholder :=
          placeholder_path template_name (ti_file_extension template_info) in
        {| pr_path := Some placeholder; pr_written := [placeholder] |}
  | None => {| pr_path := None; pr_written := [] |}
  end.

(** An entry of the listing of [get_templates_by_category]. *)
Record template_summary : Type := TemplateSummary {
  ts_id : string;
  ts_name : string;
  ts_description : string;
  ts_file_extension : string;
  ts_style_compatibility : list string;
  ts_features : list string
}.

(** [get_templates_by_category] *)
Definition get_templates_by_category (now : string) (category : string)
    (reg : registry) : category_result template_summary :=
  match categories reg !! category with
  | None =>
      UnknownCategory ("Unknown category: " +:+ category) (dom (categories reg))
  | Some template_ids =>
      let templates_ : list template_summary :=
        omap (λ template_id : string,
                match templates reg !! template_id with
                | Some template_info =>
                    Some {| ts_id := template_id;
                            ts_name := ti_name template_info;
                            ts_description := ti_description template_info;
                            ts_file_extension := ti_file_extension template_info;
                            ts_style_compatibility :=
                              ti_style_compatibility template_info;
                            ts_features := ti_features template_info |}
                | None => None
                end) template_ids in
      Listing category templates_ (length templates_) now
  end.

(** The registries the service can be in: the one [__init__] builds, and
    any registry [get_template], the one method that writes to it, leaves
    behind. *)
Inductive reachable (texts : template_texts) : registry → Prop :=
  | reachable_init now : reachable texts (init texts now)
  | reachable_get now template_name reg :
      reachable texts reg →
      reachable texts (get_template now template_name reg).1.

End TemplateService.

(** ** services/asset_manager.py *)

Module AssetManager.

(** *** Bundles *)

(** An asset a style resolves to (['weight'] is given for fonts only). *)
Record asset : Type := Asset {
  a_name : string;
  a_filename : string;
  a_path : string;
  a_type : string;
  a_weight : option string
}.

(** [_get_style_fonts] *)
Definition default_fonts : list asset :=
  [ {| a_name := "Times New Roman"; a_filename := "times-new-roman.ttf";
       a_path := "fonts/times-new-roman.ttf"; a_type := "serif";
       a_weight := Some "normal" |};
    {| a_name := "Arial"; a_filename := "arial.ttf";
       a_path := "fonts/arial.ttf"; a_type := "sans-serif";
       a_weight := Some "normal" |} ].

Definition style_fonts : gmap string (list asset) :=
  <["modern" := drop 1 default_fonts]>
    (<["apa" := take 1 default_fonts]>
      (<["nature" := take 1 default_fonts]>
        (<["ieee" := take 1 default_fonts]> ∅))).

Definition _get_style_fonts (style_name : string) : list asset :=
  default default_fonts (style_fonts !! style_name).

(** [_get_style_color_schemes] *)
Definition _get_style_color_schemes (style_name : string) : list asset :=
  [ {| a_name := "Academic"; a_filename := "academic.json";
       a_path := "color_schemes/academic.json"; a_type := "professional";
       a_weight := None |};
    {| a_name := "Modern Blue"; a_filename := "modern_blue.json";
       a_path := "color_schemes/modern_blue.json"; a_type := "contemporary";
       a_weight := None |} ].

(** [_get_style_templates] *)
Definition _get_style_templates (style_name : string) : list asset :=
  [ {| a_name := Str.upper style_name +:+ " Article Template";
       a_filename := style_name +:+ "_article.html";
       a_path := "templates/" +:+ style_name +:+ "_article.html";
       a_type := "article"; a_weight := None |};
    {| a_name := Str.upper style_name +:+ " CSS";
       a_filename := style_name +:+ ".css";
       a_path := "templates/" +:+ style_name +:+ ".css";
       a_type := "stylesheet"; a_weight := None |} ].

(** The request of [create_bundle]; ['metadata'] is passed through. *)
Record bundle_config : Type := BundleConfig {
  bc_name : option string;
  bc_style : option string;
  bc_include_fonts : option bool;
  bc_include_color_schemes : option bool;
  bc_include_templates : option bool;
  bc_metadata : option string
}.

Record manifest : Type := Manifest {
  m_bundle_id : string;
  m_bundle_name : string;
  m_style : string;
  m_created : string;
  m_fonts : list asset;
  m_color_schemes : list asset;
  m_templates : list asset;
  m_metadata : string
}.

(** A member of the archive: a file copied from disk
    ([ZipFile.write(path, arcname)]) or a text ([ZipFile.writestr]). *)
Inductive zip_entry : Type :=
  | ZipFile (path arcname : string)
  | ZipText (arcname data : string).

Record asset_count : Type := AssetCount {
  ac_fonts : nat;
  ac_color_schemes : nat;
  ac_templates : nat
}.

(** What [create_bundle] returns; it has no error or warning field. *)
Record bundle : Type := Bundle {
  b_success : bool;
  b_bundle_id : string;
  b_bundle_name : string;
  b_style : string;
  b_bundle_path : string;
  b_bundle_size : nat;
  b_checksum : string;
  b_asset_count : asset_count;
  b_download_url : string;
  b_timestamp : string
}.

(** An entry of [asset_registry['bundles']]. *)
Record bundle_record : Type := BundleRecord {
  br_bundle_name : string;
  br_style : string;
  br_path : string;
  br_size : nat;
  br_checksum : string;
  br_created : string;
  br_manifest : manifest
}.

Definition bundle_directory : string := "bundles".

(** The body of the three loops of [create_bundle]: an asset whose file
    exists is written to the archive and listed in the manifest; any other
    asset is passed over. *)
Definition add_asset (fs : gmap string FS.file) (kind : string)
    (acc : list zip_entry * list asset) (item : asset)
    : list zip_entry * list asset :=
  if FS.exists_ fs (a_path item) then
    (acc.1 ++ [ZipFile (a_path item) (kind +:+ "/" +:+ a_filename item)],
     acc.2 ++ [item])
  else acc.

Section Bundles.

(** [hashlib.md5(data).hexdigest()] *)
Variable md5_hexdigest : string → string.
(** The bytes of the archive that holds the given members. *)
Variable zip_bytes : gmap string FS.file → list zip_entry → string.
(** [json.dumps(manifest, indent=2)] *)
Variable json_dumps : manifest → string.

(** [_generate_bundle_id] *)
Definition _generate_bundle_id (now bundle_name style_name : string) : string :=
  String.substring 0 12
    (md5_hexdigest (bundle_name +:+ "_" +:+ style_name +:+ "_" +:+ now)).

(** [create_bundle], on the registry of bundles. *)
Definition create_bundle (fs : gmap string FS.file) (now : string)
    (config : bundle_config) (bundles : gmap string bundle_record)
    : gmap string bundle_record * bundle :=
  let bundle_name := default "default_bundle" (bc_name config) in
  let style_name := default "default" (bc_style config) in
  let include_fonts := default true (bc_include_fonts config) in
  let include_color_schemes := default true (bc_include_color_schemes config) in
  let include_templates := default true (bc_include_templates config) in
  let bundle_id := _generate_bundle_id now bundle_name style_name in
  let bundle_path := FS.join bundle_directory (bundle_id +:+ ".zip") in
  let s0 : list zip_entry * list asset := ([], []) in
  let s1 :=
    if include_fonts
    then foldl (add_asset fs "fonts") s0 (_get_style_fonts style_name)
    else s0 in
  let s2 :=
    if include_color_schemes
    then foldl (add_asset fs "color_schemes") (s1.1, [])
               (_get_style_color_schemes style_name)
    else (s1.1, []) in
  let s3 :=
    if include_templates
    then foldl (add_asset fs "templates") (s2.1, [])
               (_get_style_templates style_name)
    else (s2.1, []) in
  let manifest_ :=
    {| m_bundle_id := bundle_id; m_bundle_name := bundle_name;
       m_style := style_name; m_created := now;
       m_fonts := s1.2; m_color_schemes := s2.2; m_templates := s3.2;
       m_metadata := default "{}" (bc_metadata config) |} in
  let archive := zip_bytes fs (s3.1 ++ [ZipText "manifest.json" (json_dumps manifest_)]) in
  let bundle_size := String.length archive in
  let bundle_checksum := md5_hexdigest archive in
  (<[bundle_id :=
       {| br_bundle_name := bundle_name; br_style := style_name;
          br_path := bundle_path; br_size := bundle_size;
          br_checksum := bundle_checksum; br_created := now;
          br_manifest := manifest_ |}]> bundles,
   {| b_success := true; b_bundle_id := bundle_id;
      b_bundle_name := bundle_name; b_style := style_name;
      b_bundle_path := bundle_path; b_bundle_size := bundle_size;
      b_checksum := bundle_checksum;
      b_asset_count :=
        {| ac_fonts := length (m_fonts manifest_);
           ac_color_schemes := length (m_color_schemes manifest_);
           ac_templates := length (m_templates manifest_) |};
      b_download_url := "/api/bundles/" +:+ bundle_id +:+ "/download";
      b_timestamp := now |}).

End Bundles.

(** *** Validation *)

(** A font, color-scheme or template descriptor of the configuration
    ([d_type] is read for fonts only). *)
Record descriptor : Type := Descriptor {
  d_name : option string;
  d_path : option string;
  d_type : option string
}.

Record asset_config : Type := AssetConfig {
  cfg_fonts : option (list descriptor);
  cfg_color_schemes : option (list descriptor);
  cfg_templates : option (list descriptor);
  cfg_style : option string
}.

(** An entry of [checked_fonts] and of [checked_templates]. *)
Record file_check : Type := FileCheck {
  fc_name : string;
  fc_exists : bool;
  fc_valid_format : bool;
  fc_size : nat
}.

(** An entry of [checked_schemes]. *)
Record scheme_check : Type := SchemeCheck {
  sc_name : string;
  sc_exists : bool;
  sc_valid_json : bool;
  sc_color_count : nat
}.

(** The report of one kind of asset. *)
Record validation (check : Type) : Type := Validation {
  valid : bool;
  errors : list string;
  checked : list check
}.
Arguments Validation {check} _ _ _.
Arguments valid {check} _.
Arguments errors {check} _.
Arguments checked {check} _.

(** The path of a descriptor, when it has one that exists on disk. *)
Definition existing_path (fs : gmap string FS.file) (d : descriptor)
    : option string :=
  match d_path d with
  | Some path => if FS.exists_ fs path then Some path else None
  | None => None
  end.

Definition font_suffixes : list string := [".ttf"; ".otf"; ".woff"; ".woff2"].

(** The body of the loop of [_validate_fonts]. *)
Definition validate_font (fs : gmap string FS.file)
    (report : validation file_check) (font : descriptor)
    : validation file_check :=
  let name := default "Unknown" (d_name font) in
  match existing_path fs font with
  | Some path =>
      if Str.endswith_any (Str.lower path) font_suffixes then
        Validation (valid report) (errors report)
          (checked report ++ [FileCheck name true true (FS.getsize fs path)])
      else
        Validation false
          (errors report ++ ["Invalid font format: " +:+ path])
          (checked report ++ [FileCheck name true false (FS.getsize fs path)])
  | None =>
      Validation false
        (errors report ++
         ["Font file not found: " +:+ default "No path specified" (d_path font)])
        (checked report ++ [FileCheck name false false 0])
  end.

(** [_validate_fonts] *)
Definition _validate_fonts (fs : gmap string FS.file)
    (fonts : list descriptor) : validation file_check :=
  foldl (validate_font fs) (Validation true [] []) fonts.

(** The body of the loop of [_validate_color_schemes]; [None] when
    [json.load] raises something other than [JSONDecodeError], or what it
    loaded is not an object with a sized ['colors']. *)
Definition validate_color_scheme (fs : gmap string FS.file)
    (report : validation scheme_check) (scheme : descriptor)
    : option (validation scheme_check) :=
  let name := default "Unknown" (d_name scheme) in
  match existing_path fs scheme with
  | Some path =>
      match FS.load <$> fs !! path with
      | Some (FS.Loaded color_count) =>
          Some (Validation (valid report) (errors report)
                  (checked report ++ [SchemeCheck name true true color_count]))
      | Some FS.JSONDecodeError =>
          Some (Validation false
                  (errors report ++
                   ["Invalid JSON in color scheme: " +:+ path])
                  (checked report ++ [SchemeCheck name true false 0]))
      | _ => None
      end
  | None =>
      Some (Validation false
              (errors report ++
               ["Color scheme file not found: " +:+
                default "No path specified" (d_path scheme)])
              (checked report ++ [SchemeCheck name false false 0]))
  end.

(** [_validate_color_schemes] *)
Definition _validate_color_schemes (fs : gmap string FS.file)
    (color_schemes : list descriptor) : option (validation scheme_check) :=
  foldl (λ acc scheme, acc ≫= λ report,
           validate_color_scheme fs report scheme)
        (Some (Validation true [] [])) color_schemes.

Definition template_suffixes : list string :=
  [".html"; ".css"; ".js"; ".tex"; ".md"].

(** The body of the loop of [_validate_templates]: an unknown format adds
    an error and leaves [valid] as it is. *)
Definition validate_template (fs : gmap string FS.file)
    (report : validation file_check) (template : descriptor)
    : validation file_check :=
  let name := default "Unknown" (d_name template) in
  match existing_path fs template with
  | Some path =>
      if Str.endswith_any (Str.lower path) template_suffixes then
        Validation (valid report) (errors report)
          (checked report ++ [FileCheck name true true (FS.getsize fs path)])
      else
        Validation (valid report)
          (errors report ++ ["Unknown template format: " +:+ path])
          (checked report ++ [FileCheck name true false (FS.getsize fs path)])
  | None =>
      Validation false
        (errors report ++
         ["Template file not found: " +:+
          default "No path specified" (d_path template)])
        (checked report ++ [FileCheck name false false 0])
  end.

(** [_validate_templates] *)
Definition _validate_templates (fs : gmap string FS.file)
    (templates : list descriptor) : validation file_check :=
  foldl (validate_template fs) (Validation true [] []) templates.

Record compatibility : Type := Compatibility {
  compatible : bool;
  c_warnings : list string;
  c_recommendations : list string
}.

(** [_check_asset_compatibility] *)
Definition _check_asset_compatibility (config : asset_config) : compatibility :=
  match cfg_fonts config, cfg_color_schemes config with
  | Some fonts, Some _ =>
      let serif_fonts :=
        List.filter (λ f, bool_decide (d_type f = Some "serif")) fonts in
      if negb (bool_decide (serif_fonts = []))
         && bool_decide (cfg_style config = Some "modern")
      then
        Compatibility true
          ["Serif fonts may not be optimal for modern style designs"]
          ["Consider using sans-serif fonts for modern designs"]
      else Compatibility true [] []
  | _, _ => Compatibility true [] []
  end.

(** [validation_result['asset_checks']] *)
Record asset_checks : Type := AssetChecks {
  chk_fonts : option (validation file_check);
  chk_color_schemes : option (validation scheme_check);
  chk_templates : option (validation file_check)
}.

Record validation_result : Type := ValidationResult {
  vr_valid : bool;
  vr_errors : list string;
  vr_warnings : list string;
  vr_asset_checks : asset_checks;
  vr_compatibility : compatibility;
  vr_timestamp : string
}.

(** One of the three sections of [validate_assets]: the report of a kind
    that is present is stored, and when it is not valid its errors are
    appended to the top-level ones. *)
Definition merge {check : Type} (current : bool * list string)
    (report : option (validation check)) : bool * list string :=
  match report with
  | Some r =>
      if negb (valid r) then (false, current.2 ++ errors r) else current
  | None => current
  end.

(** [validate_assets]; [None] when [_validate_color_schemes] raises. *)
Definition validate_assets (fs : gmap string FS.file) (now : string)
    (config : asset_config) : option validation_result :=
  let font_validation := _validate_fonts fs <$> cfg_fonts config in
  let s1 := merge (true, []) font_validation in
  match cfg_color_schemes config with
  | Some color_schemes => Some <$> _validate_color_schemes fs color_schemes
  | None => Some None
  end ≫= λ color_validation,
  let s2 := merge s1 color_validation in
  let template_validation := _validate_templates fs <$> cfg_templates config in
  let s3 := merge s2 template_validation in
  let compatibility_check := _check_asset_compatibility config in
  Some {| vr_valid := s3.1; vr_errors := s3.2;
          vr_warnings := c_warnings compatibility_check;
          vr_asset_checks :=
            {| chk_fonts := font_validation;
               chk_color_schemes := color_validation;
               chk_templates := template_validation |};
          vr_compatibility := compatibility_check;
          vr_timestamp := now |}.

(** *** Synchronization *)

(** The roster of [_sync_with_service]. *)
Definition service_urls : gmap string string :=
  <["distance_server" := "http://localhost:5001"]>
    (<["publication_style_config_server" := "http://localhost:5002"]>
      (<["styles_gallery" := "http://localhost:5000"]> ∅)).

(** What [_sync_with_service] returns. *)
Inductive service_sync : Type :=
  | ServiceSynced (service sync_type : string) (assets_synced : nat)
                  (timestamp : string)
  | ServiceFailed (error : string).

(** [_sync_with_service] *)
Definition _sync_with_service (now : string) (service sync_type : string)
    : service_sync :=
  if bool_decide (is_Some (service_urls !! service))
  then ServiceSynced service sync_type 15 now
  else ServiceFailed ("Unknown service: " +:+ service).

Record sync_config : Type := SyncConfig {
  sc_target_services : option (list string);
  sc_sync_type : option string
}.

(** An entry of [failed_services]. *)
Record failed_service : Type := FailedService {
  fl_service : string;
  fl_error : string
}.

(** [sync_summary]; the success rate is the quotient, as a rational. *)
Record sync_summary : Type := SyncSummary {
  total_services : nat;
  successful_syncs : nat;
  failed_syncs : nat;
  success_rate : Q
}.

Record sync_result : Type := SyncResult {
  sr_success : bool;
  sr_synced_services : list string;
  sr_failed_services : list failed_service;
  sr_sync_summary : sync_summary;
  sr_timestamp : string
}.

(** The body of the loop of [sync_with_services], on the two lists it
    extends. *)
Definition sync_service (now sync_type : string)
    (acc : list string * list failed_service) (service : string)
    : list string * list failed_service :=
  match _sync_with_service now service sync_type with
  | ServiceSynced _ _ _ _ => (acc.1 ++ [service], acc.2)
  | ServiceFailed error =>
      (acc.1, acc.2 ++ [{| fl_service := service; fl_error := error |}])
  end.

(** [sync_with_services] *)
Definition sync_with_services (now : string) (config : sync_config)
    : sync_result :=
  let target_services := default [] (sc_target_services config) in
  let sync_type := default "push" (sc_sync_type config) in
  let lists := foldl (sync_service now sync_type) ([], []) target_services in
  {| sr_success := bool_decide (lists.2 = []);
     sr_synced_services := lists.1;
     sr_failed_services := lists.2;
     sr_sync_summary :=
       {| total_services := length target_services;
          successful_syncs := length lists.1;
          failed_syncs := length lists.2;
          success_rate :=
            match target_services with
            | [] => 0%Q
            | _ :: _ =>
                (Z.of_nat (length lists.1)
                 # Pos.of_nat (length target_services))%Q
            end |};
     sr_timestamp := now |}.

End AssetManager.

(** ** Vocabulary of the properties *)

(** How many times [x] occurs in [l]. *)
Definition occurrences (x : string) (l : list string) : nat :=
  length (List.filter (λ y, bool_decide (y = x)) l).

(** A colors entry whose value matches none of the three patterns, and the
    error [_validate_colors] reports for it. *)
Definition malformed (entry : string * string) : bool :=
  negb (ColorSchemeService.color_matches entry.2).

Definition color_error (entry : string * string) : string :=
  "Invalid color format for " +:+ entry.1 +:+ ": " +:+ entry.2.

(** The colors mapping has each of the ten required roles. *)
Definition has_required_roles (colors : list (string * string)) : bool :=
  forallb (λ role, bool_decide (role ∈ colors.*1))
          ColorSchemeService.required_roles.

(** The errors of a per-kind report that may be absent. *)
Definition report_errors {check : Type}
    (report : option (AssetManager.validation check)) : list string :=
  from_option AssetManager.errors [] report.

(** Whether a per-kind report that may be absent is valid; a kind that was
    not checked counts as valid. *)
Definition report_valid {check : Type}
    (report : option (AssetManager.validation check)) : bool :=
  from_option AssetManager.valid true report.

(** All the errors recorded under [asset_checks]. *)
Definition recorded_errors (r : AssetManager.validation_result) : list string :=
  let checks := AssetManager.vr_asset_checks r in
  report_errors (AssetManager.chk_fonts checks)
  ++ report_errors (AssetManager.chk_color_schemes checks)
  ++ report_errors (AssetManager.chk_templates checks).

(** The path of the template is on disk and, lowercased, ends in none of
    [.html], [.css], [.js], [.tex], [.md]. *)
Definition unknown_format (fs : gmap string FS.file)
    (template : AssetManager.descriptor) : Prop :=
  ∃ path, AssetManager.existing_path fs template = Some path ∧
          Str.endswith_any (Str.lower path) AssetManager.template_suffixes = false.

(** The template has no path, or its path is not on disk. *)
Definition missing_file (fs : gmap string FS.file)
    (d : AssetManager.descriptor) : Prop :=
  AssetManager.existing_path fs d = None.

(** The message of an unknown template format. *)
Definition format_error (e : string) : Prop :=
  ∃ path, e = "Unknown template format: " +:+ path.

(** The error [_validate_templates] records for a descriptor, if any. *)
Definition template_error (fs : gmap string FS.file)
    (template : AssetManager.descriptor) : option string :=
  match AssetManager.existing_path fs template with
  | Some path =>
      if Str.endswith_any (Str.lower path) AssetManager.template_suffixes
      then None
      else Some ("Unknown template format: " +:+ path)
  | None =>
      Some ("Template file not found: " +:+
            default "No path specified" (AssetManager.d_path template))
  end.

(** The file of the color scheme is on disk and loading it raises
    something other than [JSONDecodeError]. *)
Definition load_raises (fs : gmap string FS.file)
    (scheme : AssetManager.descriptor) : bool :=
  match AssetManager.existing_path fs scheme with
  | Some path =>
      match FS.load <$> fs !! path with
      | Some (FS.Loaded _) | Some FS.JSONDecodeError => false
      | _ => true
      end
  | None => false
  end.

(** The archive member [create_bundle] writes for an asset of a kind. *)
Definition member (kind : string) (item : AssetManager.asset)
    : AssetManager.zip_entry :=
  AssetManager.ZipFile (AssetManager.a_path item)
    (kind +:+ "/" +:+ AssetManager.a_filename item).

(** The file of the asset is on disk. *)
Definition on_disk (fs : gmap string FS.file) (item : AssetManager.asset) : bool :=
  FS.exists_ fs (AssetManager.a_path item).

(** A per-kind report whose [valid] flag says whether it has no error. *)
Definition strict {check : Type} (report : AssetManager.validation check)
    : Prop :=
  AssetManager.valid report = true ↔ AssetManager.errors report = [].

(** The flag and the errors that [merge] keeps: the flag is down exactly
    when there is an error. *)
Definition flagged (current : bool * list string) : Prop :=
  current.1 = false ↔ current.2 ≠ [].

(** ** Sample inputs *)

Module Sample.

(** A disk that holds one template with an unusual extension and the Arial
    font file. *)
Definition disk : gmap string FS.file :=
  <["templates/draft.xyz" := FS.File 120 FS.JSONDecodeError]>
    (<["fonts/arial.ttf" := FS.File 4096 FS.JSONDecodeError]> ∅).

Definition draft : AssetManager.descriptor :=
  AssetManager.Descriptor (Some "Draft") (Some "templates/draft.xyz") None.

Definition draft_config : AssetManager.asset_config :=
  AssetManager.AssetConfig None None (Some [draft]) None.

(** A font with the three required fields, and a later descriptor that has
    only a name, one that derives the same id. *)
Definition quill : FontService.font_data :=
  FontService.FontData (Some "Quill Sans") (Some "Quill") (Some "handwriting")
    None None None None None None None None.

Definition quill_name_only : FontService.font_data :=
  FontService.FontData (Some "quill-sans") None None
    None None None None None None None None.

Definition quill_again : FontService.font_data :=
  FontService.FontData (Some "QUILL SANS") (Some "Quill") (Some "serif")
    None None None None None None None None.

(** Color-scheme descriptors: one with an empty colors mapping, one with a
    single role in a category of its own, and one in that category with a
    value that is no color. *)
Definition scheme (name category : string) (colors : list (string * string))
    : ColorSchemeService.scheme_data :=
  ColorSchemeService.SchemeData (Some name) (Some category) (Some colors)
    None None None None.

Definition blank : ColorSchemeService.scheme_data := scheme "Blank Slate" "modern" [].

Definition dusk : ColorSchemeService.scheme_data :=
  scheme "Dusk" "retro" [("primary", "#102030")].

Definition neon : ColorSchemeService.scheme_data :=
  scheme "Neon Night" "retro" [("primary", "neon pink")].

Definition two_bad : list (string * string) :=
  [("primary", "#12345"); ("text", "#000000"); ("accent", "blue");
   ("border", "rgb(1, 2, 3)")].

(** A three-digit hex color followed by a newline. *)
Definition newline_hex : string := "#FFF" +:+ Str.nl.

Definition slipped : list (string * string) :=
  [("primary", newline_hex); ("text", "#12345")].

Definition slip : ColorSchemeService.scheme_data :=
  scheme "Slip" "modern" [("primary", newline_hex)].

End Sample.

(** ** Further vocabulary *)

(** Every entry of the primary map is listed in the index, under its
    category. *)
Definition listed {A : Type} (category_of : A → string)
    (primary : gmap string A) (index : gmap string (list string)) : Prop :=
  ∀ i a, primary !! i = Some a →
         ∃ ids, index !! category_of a = Some ids ∧ i ∈ ids.

(** A later state of a font entry: the same entry, downloaded no fewer
    times. *)
Definition font_later (before after : FontService.font_info) : Prop :=
  ∃ n, FontService.fi_download_count before ≤ n ∧
       after = FontService.with_download_count n before.

(** A later state of a color-scheme entry: the same entry, used no fewer
    times. *)
Definition scheme_later (before after : ColorSchemeService.scheme_info) : Prop :=
  ∃ n, ColorSchemeService.si_usage_count before ≤ n ∧
       after = ColorSchemeService.with_usage_count n before.

(** The service is on the roster of [_sync_with_service]. *)
Definition known_service (service : string) : bool :=
  bool_decide (is_Some (AssetManager.service_urls !! service)).

(** The entry of [failed_services] for a service that is not on the
    roster. *)
Definition unknown_service (service : string) : AssetManager.failed_service :=
  AssetManager.FailedService service ("Unknown service: " +:+ service).

(** The assets of a kind that [create_bundle] packs: none when the kind is
    left out, else those of the style whose file is on disk. *)
Definition packed (fs : gmap string FS.file) (included : option bool)
    (assets : list AssetManager.asset) : list AssetManager.asset :=
  if default true included then List.filter (on_disk fs) assets else [].

(** The file of the descriptor is on disk and its path, lowercased, ends in
    one of the suffixes. *)
Definition well_formatted (fs : gmap string FS.file) (suffixes : list string)
    (d : AssetManager.descriptor) : bool :=
  match AssetManager.existing_path fs d with
  | Some path => Str.endswith_any (Str.lower path) suffixes
  | None => false
  end.

(** The check entry of a font or template descriptor: its name, whether
    its file is on disk, whether the format is known, and the size on
    disk. *)
Definition file_check_of (fs : gmap string FS.file) (suffixes : list string)
    (d : AssetManager.descriptor) : AssetManager.file_check :=
  AssetManager.FileCheck
    (default "Unknown" (AssetManager.d_name d))
    (bool_decide (is_Some (AssetManager.existing_path fs d)))
    (well_formatted fs suffixes d)
    (from_option (FS.getsize fs) 0 (AssetManager.existing_path fs d)).

(** The file of the color scheme is on disk and loads as JSON. *)
Definition loads (fs : gmap string FS.file) (d : AssetManager.descriptor)
    : bool :=
  match AssetManager.existing_path fs d with
  | Some path =>
      match FS.load <$> fs !! path with
      | Some (FS.Loaded _) => true
      | _ => false
      end
  | None => false
  end.

(** The number of colors of a color-scheme file that loads, else 0. *)
Definition color_count_of (fs : gmap string FS.file)
    (d : AssetManager.descriptor) : nat :=
  match AssetManager.existing_path fs d with
  | Some path =>
      match FS.load <$> fs !! path with
      | Some (FS.Loaded color_count) => color_count
      | _ => 0
      end
  | None => 0
  end.

(** The check entry of a color-scheme descriptor. *)
Definition scheme_check_of (fs : gmap string FS.file)
    (d : AssetManager.descriptor) : AssetManager.scheme_check :=
  AssetManager.SchemeCheck
    (default "Unknown" (AssetManager.d_name d))
    (bool_decide (is_Some (AssetManager.existing_path fs d)))
    (loads fs d)
    (color_count_of fs d).

(** The configuration with another style. *)
Definition with_style (style : option string)
    (config : AssetManager.asset_config) : AssetManager.asset_config :=
  AssetManager.AssetConfig (AssetManager.cfg_fonts config)
    (AssetManager.cfg_color_schemes config)
    (AssetManager.cfg_templates config) style.

(** Every entry of the primary map is stored under the id that its name
    derives, and carries that id. *)
Definition keyed {A : Type} (id_of name_of : A → string)
    (primary : gmap string A) : Prop :=
  ∀ i a, primary !! i = Some a →
         id_of a = i ∧ _generate_font_id (name_of a) = i.

(** ** Color syntax, as the specification words it

    The whole of the value is #RGB or #RRGGBB, rgb(...) or rgba(...): the
    three patterns without the leniency of the final [$]. *)
Definition spec_color_syntax (color_value : string) : bool :=
  Re.fullmatch ColorSchemeService.hex_pattern color_value
  || Re.fullmatch ColorSchemeService.rgb_pattern color_value
  || Re.fullmatch ColorSchemeService.rgba_pattern color_value.

(** ** Names beyond ASCII

    Python lowercases a [str] by code point and by context: a capital
    sigma at the end of a word becomes a final sigma.  [Unicode] carries
    the id derivation to texts of code points drawn from ASCII and the
    Greek letters U+0391 to U+03A9 and U+03B1 to U+03C9, on which it is
    [str.lower]; other code points are left as they are. *)

Module Unicode.

Definition in_range (lo hi c : N) : bool := ((lo <=? c) && (c <=? hi))%N.

(** The lowercase of one code point, out of context. *)
Definition lower_cp (c : N) : N :=
  if in_range 65 90 c || in_range 0x391 0x3A1 c || in_range 0x3A3 0x3A9 c
  then (c + 32)%N else c.

(** The code point is a cased letter. *)
Definition cased (c : N) : bool :=
  in_range 65 90 c || in_range 97 122 c
  || in_range 0x391 0x3A1 c || in_range 0x3A3 0x3A9 c || in_range 0x3B1 0x3C9 c.

(** The code point is ignored when the context of a sigma is looked for:
    the apostrophe, the full stop, the colon, the circumflex and the grave
    accent. *)
Definition case_ignorable (c : N) : bool :=
  (c =? 0x27)%N || (c =? 0x2E)%N || (c =? 0x3A)%N || (c =? 0x5E)%N
  || (c =? 0x60)%N.

(** The first code point that is not ignored is a cased letter. *)
Fixpoint followed_by_cased (t : list N) : bool :=
  match t with
  | [] => false
  | c :: rest => if case_ignorable c then followed_by_cased rest else cased c
  end.

(** [str.lower], given whether the last code point before [t] that is not
    ignored is a cased letter: a capital sigma after a cased letter and not
    before one becomes the final sigma U+03C2. *)
Fixpoint lower_from (after_cased : bool) (t : list N) : list N :=
  match t with
  | [] => []
  | c :: rest =>
      (if (c =? 0x3A3)%N && after_cased && negb (followed_by_cased rest)
       then 0x3C2%N else lower_cp c)
      :: lower_from (if case_ignorable c then after_cased else cased c) rest
  end.

(** [t.lower()] *)
Definition lower (t : list N) : list N := lower_from false t.

(** [t.replace(old, new)] for one-character [old] and [new]. *)
Definition replace (old new : N) (t : list N) : list N :=
  (λ c, if (c =? old)%N then new else c) <$> t.

(** The body shared by [_generate_font_id], [_generate_scheme_id] and
    [_generate_template_id]. *)
Definition _generate_id (name : list N) : list N :=
  replace 45 95 (replace 32 95 (lower name)).

(** The code points of an ASCII string. *)
Fixpoint of_string (s : string) : list N :=
  match s with
  | EmptyString => []
  | String c s' => N_of_ascii c :: of_string s'
  end.

Definition is_ascii (c : ascii) : bool := (N_of_ascii c <? 128)%N.

(** The word sophos in capitals and in small letters, written with the
    medial sigma throughout. *)
Definition sophos_capitals : list N := [0x3A3; 0x39F; 0x3A6; 0x39F; 0x3A3]%N.
Definition sophos_small : list N := [0x3C3; 0x3BF; 0x3C6; 0x3BF; 0x3C3]%N.

(** Two texts that differ only in letter case: code point by code point
    they have the same lowercase. *)
Definition case_variant (t1 t2 : list N) : Prop :=
  Forall2 (λ c1 c2, lower_cp c1 = lower_cp c2) t1 t2.

End Unicode.

(** * Properties *)

(** Proves [name_variant] between two literal names. *)
Ltac variant_chars :=
  repeat (constructor;
          [first [left; reflexivity | right; split; reflexivity]|]);
  constructor.

(** ** Regular expressions

    The matcher decides the language of the expression. *)

Section Regex.

Import Re.

Lemma lang_void_inv s : lang Void s → False.
Proof. inversion 1. Qed.

Lemma lang_eps_inv s : lang Eps s → s = "".
Proof. by inversion 1. Qed.

Lemma lang_sym_inv p s : lang (Sym p) s → ∃ c, s = String c "" ∧ p c = true.
Proof. inversion 1; subst; eauto. Qed.

Lemma lang_seq_inv r1 r2 s :
  lang (Seq r1 r2) s → ∃ s1 s2, s = s1 +:+ s2 ∧ lang r1 s1 ∧ lang r2 s2.
Proof. inversion 1; subst; eauto. Qed.

Lemma lang_alt_inv r1 r2 s : lang (Alt r1 r2) s → lang r1 s ∨ lang r2 s.
Proof. inversion 1; subst; eauto. Qed.

Lemma append_nil_inv (s1 s2 : string) : s1 +:+ s2 = "" → s1 = "" ∧ s2 = "".
Proof. destruct s1; simpl; [done | discriminate]. Qed.

Lemma nullable_spec (r : regex) : nullable r = true ↔ lang r "".
Proof.
  induction r as [| | p | r1 IH1 r2 IH2 | r1 IH1 r2 IH2 | r IH]; simpl.
  - split; [done | by intros ?%lang_void_inv].
  - split; [constructor | done].
  - split; [done|]. by intros (c & ? & _)%lang_sym_inv.
  - rewrite andb_true_iff, IH1, IH2. split.
    + intros [H1 H2]. exact (lang_seq _ _ "" "" H1 H2).
    + intros (s1 & s2 & Heq & H1 & H2)%lang_seq_inv.
      symmetry in Heq. by apply append_nil_inv in Heq as [-> ->].
  - rewrite orb_true_iff, IH1, IH2. split.
    + intros [H | H]; [by apply lang_alt_l | by apply lang_alt_r].
    + apply lang_alt_inv.
  - split; [constructor | done].
Qed.

Lemma lang_star_step (r : regex) (c : ascii) (s : string) :
  lang (Star r) (String c s) →
  ∃ s1 s2, s = s1 +:+ s2 ∧ lang r (String c s1) ∧ lang (Star r) s2.
Proof.
  intros H. remember (Star r) as r' eqn:Hr. remember (String c s) as s' eqn:Hs.
  revert s Hs.
  induction H as [| | | | | | r0 s1 s2 H1 _ H2 IH2]; try discriminate.
  injection Hr as ->. intros s Hs.
  destruct s1 as [|c1 s1].
  - by apply IH2.
  - change (String c1 s1 +:+ s2) with (String c1 (s1 +:+ s2)) in Hs.
    injection Hs as -> <-. eauto.
Qed.

Lemma deriv_spec (r : regex) (c : ascii) (s : string) :
  lang (deriv c r) s ↔ lang r (String c s).
Proof.
  revert s.
  induction r as [| | p | r1 IH1 r2 IH2 | r1 IH1 r2 IH2 | r IH]; intros s; simpl.
  - split; by intros ?%lang_void_inv.
  - split; [by intros ?%lang_void_inv | by intros ?%lang_eps_inv].
  - destruct (p c) eqn:Hp; split.
    + intros ->%lang_eps_inv. by constructor.
    + intros (c' & [= <- ->] & _)%lang_sym_inv. constructor.
    + by intros ?%lang_void_inv.
    + intros (c' & [= <- ->] & ?)%lang_sym_inv. congruence.
  - assert (Hseq : lang (Seq (deriv c r1) r2) s →
                   lang (Seq r1 r2) (String c s)).
    { intros (s1 & s2 & -> & H1 & H2)%lang_seq_inv.
      apply IH1 in H1. exact (lang_seq _ _ (String c s1) s2 H1 H2). }
    assert (Hinv : lang (Seq r1 r2) (String c s) →
                   lang (Seq (deriv c r1) r2) s ∨
                   (lang r1 "" ∧ lang r2 (String c s))).
    { intros (s1 & s2 & Heq & H1 & H2)%lang_seq_inv.
      destruct s1 as [|c1 s1].
      - change ("" +:+ s2) with s2 in Heq. right. subst s2. by split.
      - change (String c1 s1 +:+ s2) with (String c1 (s1 +:+ s2)) in Heq.
        injection Heq as <- ->. left. constructor; [by apply IH1 | done]. }
    destruct (nullable r1) eqn:Hnull.
    + split.
      * intros [H | H]%lang_alt_inv; [by apply Hseq|].
        apply nullable_spec in Hnull.
        apply IH2 in H. exact (lang_seq _ _ "" (String c s) Hnull H).
      * intros H. apply Hinv in H as [H | [_ H]].
        -- by apply lang_alt_l.
        -- apply lang_alt_r. by apply IH2.
    + split; [exact Hseq|].
      intros H. apply Hinv in H as [H | [H _]]; [done|].
      apply nullable_spec in H. congruence.
  - split.
    + intros [H | H]%lang_alt_inv.
      * apply lang_alt_l. by apply IH1.
      * apply lang_alt_r. by apply IH2.
    + intros [H | H]%lang_alt_inv.
      * apply lang_alt_l. by apply IH1.
      * apply lang_alt_r. by apply IH2.
  - split.
    + intros (s1 & s2 & -> & H1 & H2)%lang_seq_inv.
      apply IH in H1. exact (lang_star_cons _ (String c s1) s2 H1 H2).
    + intros H. apply lang_star_step in H as (s1 & s2 & -> & H1 & H2).
      constructor; [by apply IH | done].
Qed.

Lemma fullmatch_spec (r : regex) (s : string) :
  fullmatch r s = true ↔ lang r s.
Proof.
  revert r. induction s as [|c s IH]; intros r; simpl.
  - apply nullable_spec.
  - by rewrite IH, deriv_spec.
Qed.
End Regex.

(** ** Identifier normalization *)

Lemma lower_char_space (c : ascii) :
  Ascii.eqb (Str.lower_char c) " " = Ascii.eqb c " ".
Proof. destruct c as [[] [] [] [] [] [] [] []]; reflexivity. Qed.

Lemma normalize_char_steps (c : ascii) :
  (let c1 := Str.lower_char c in
   let c2 := if Ascii.eqb c1 " " then "_"%char else c1 in
   if Ascii.eqb c2 "-" then "_"%char else c2) = normalize_char c.
Proof. destruct c as [[] [] [] [] [] [] [] []]; reflexivity. Qed.

Lemma normalize_char_lower (c : ascii) :
  normalize_char (Str.lower_char c) = normalize_char c.
Proof. destruct c as [[] [] [] [] [] [] [] []]; reflexivity. Qed.

Lemma normalize_char_separator (c : ascii) :
  is_separator c = true → normalize_char c = "_"%char.
Proof. unfold normalize_char. by intros ->. Qed.

Lemma generate_font_id_normalized (name : string) :
  _generate_font_id name = normalized_id name.
Proof.
  unfold _generate_font_id, normalized_id, Str.replace, Str.lower.
  induction name as [|c name IH]; simpl; [done|].
  rewrite IH. f_equal. apply normalize_char_steps.
Qed.

Lemma char_variant_normalize (c1 c2 : ascii) :
  char_variant c1 c2 → normalize_char c1 = normalize_char c2.
Proof.
  intros [Hlow | [H1 H2]].
  - rewrite <- (normalize_char_lower c1), <- (normalize_char_lower c2).
    by rewrite Hlow.
  - by rewrite !normalize_char_separator.
Qed.

Lemma name_variant_normalized (n1 n2 : string) :
  name_variant n1 n2 → normalized_id n1 = normalized_id n2.
Proof.
  induction 1 as [|c1 c2 s1 s2 Hc _ IH]; simpl; [done|].
  unfold normalized_id in *. simpl.
  by rewrite (char_variant_normalize _ _ Hc), IH.
Qed.

(** On ASCII names the derivation by code points is the derivation by
    characters. *)
Lemma lower_cp_ascii (c : ascii) :
  Unicode.lower_cp (N_of_ascii c) = N_of_ascii (Str.lower_char c).
Proof. destruct c as [[] [] [] [] [] [] [] []]; reflexivity. Qed.

Lemma not_sigma_ascii (c : ascii) : (N_of_ascii c =? 0x3A3)%N = false.
Proof. destruct c as [[] [] [] [] [] [] [] []]; reflexivity. Qed.

Lemma lower_from_ascii (after_cased : bool) (s : string) :
  Unicode.lower_from after_cased (Unicode.of_string s)
  = Unicode.of_string (Str.lower s).
Proof.
  revert after_cased. induction s as [|c s IH]; intros b; [done|].
  cbn [Unicode.of_string Unicode.lower_from Str.lower Str.map].
  rewrite not_sigma_ascii. cbn [andb]. rewrite lower_cp_ascii. f_equal.
  apply IH.
Qed.

Lemma replace_ascii (old new : ascii) (s : string) :
  Unicode.replace (N_of_ascii old) (N_of_ascii new) (Unicode.of_string s)
  = Unicode.of_string (Str.replace old new s).
Proof.
  unfold Unicode.replace, Str.replace.
  induction s as [|c s IH]; [done|].
  cbn [Unicode.of_string fmap list_fmap Str.map]. cbn [fmap] in IH.
  rewrite IH. f_equal.
  destruct (Ascii.eqb_spec c old) as [->|Hne].
  - by rewrite N.eqb_refl.
  - destruct (N.eqb_spec (N_of_ascii c) (N_of_ascii old)) as [Heq|]; [|done].
    exfalso. apply Hne.
    by rewrite <- (ascii_N_embedding c), Heq, ascii_N_embedding.
Qed.

Lemma generate_id_ascii (name : string) :
  Unicode._generate_id (Unicode.of_string name)
  = Unicode.of_string (_generate_font_id name).
Proof.
  unfold Unicode._generate_id, Unicode.lower, _generate_font_id.
  rewrite lower_from_ascii.
  change 32%N with (N_of_ascii " "). change 95%N with (N_of_ascii "_").
  change 45%N with (N_of_ascii "-").
  by rewrite !replace_ascii.
Qed.

(** C5. For a name of ASCII characters the derived id is the name
    lowercased with every space and hyphen replaced by an underscore; ASCII
    names that differ only in letter case or in spaces versus hyphens
    derive the same id, as the three spellings of Times New Roman do; and
    the font, color-scheme and template catalogs derive ids the same
    way. *)
Theorem id_normalization :
  (∀ name, Str.all Unicode.is_ascii name = true →
     Unicode._generate_id (Unicode.of_string name)
     = Unicode.of_string (normalized_id name)) ∧
  (∀ n1 n2,
     Str.all Unicode.is_ascii n1 = true → Str.all Unicode.is_ascii n2 = true →
     name_variant n1 n2 →
     Unicode._generate_id (Unicode.of_string n1)
     = Unicode._generate_id (Unicode.of_string n2)) ∧
  (Unicode._generate_id (Unicode.of_string "Times New Roman")
   = Unicode.of_string "times_new_roman" ∧
   Unicode._generate_id (Unicode.of_string "times-new-roman")
   = Unicode.of_string "times_new_roman" ∧
   Unicode._generate_id (Unicode.of_string "TIMES NEW ROMAN")
   = Unicode.of_string "times_new_roman") ∧
  (∀ name, Str.all Unicode.is_ascii name = true →
     Unicode._generate_id (Unicode.of_string name)
     = Unicode.of_string (_generate_font_id name) ∧
     _generate_scheme_id name = _generate_font_id name ∧
     _generate_template_id name = _generate_font_id name).
Proof.
  split.
  { intros name _. by rewrite generate_id_ascii, generate_font_id_normalized. }
  split.
  { intros n1 n2 _ _ H. rewrite !generate_id_ascii, !generate_font_id_normalized.
    by rewrite (name_variant_normalized _ _ H). }
  split; [by repeat split|].
  intros name _. split; [apply generate_id_ascii|done].
Qed.

Lemma id_normalization_witness :
  Str.all Unicode.is_ascii "Times New Roman" = true ∧
  Str.all Unicode.is_ascii "times-new-roman" = true ∧
  name_variant "Times New Roman" "times-new-roman" ∧
  Unicode._generate_id (Unicode.of_string "Times New Roman")
  = Unicode._generate_id (Unicode.of_string "times-new-roman").
Proof.
  assert (H : name_variant "Times New Roman" "times-new-roman") by variant_chars.
  split; [reflexivity|]. split; [reflexivity|]. split; [exact H|].
  exact (proj1 (proj2 id_normalization)
           "Times New Roman" "times-new-roman" eq_refl eq_refl H).
Defined.

(** C5, beyond ASCII: the word sophos in capitals and in small letters
    differs only in letter case, yet the capitals derive an id that ends in
    the final sigma and the small letters one that ends in the medial
    sigma. *)
Lemma id_normalization_counterexample :
  Unicode.case_variant Unicode.sophos_capitals Unicode.sophos_small ∧
  Unicode._generate_id Unicode.sophos_capitals
  = [0x3C3; 0x3BF; 0x3C6; 0x3BF; 0x3C2]%N ∧
  Unicode._generate_id Unicode.sophos_small
  = [0x3C3; 0x3BF; 0x3C6; 0x3BF; 0x3C3]%N ∧
  Unicode._generate_id Unicode.sophos_capitals
  ≠ Unicode._generate_id Unicode.sophos_small.
Proof.
  split; [by repeat constructor|].
  split; [reflexivity|]. split; [reflexivity|].
  by vm_compute.
Qed.

(** ** Category indexes *)

Section Index.

Context {A : Type} (category_of : A → string).
Implicit Types (primary : gmap string A) (index : gmap string (list string)).

Lemma indexed_fresh primary index category ids i :
  indexed category_of primary index → primary !! i = None →
  index !! category = Some ids → i ∉ ids.
Proof.
  intros [Hin _] Hfree Hids Hi.
  destruct (Hin _ _ _ Hids Hi) as (a & Ha & _). congruence.
Qed.

(** A fresh id appended to the list of its category. *)
Lemma indexed_append primary index i a ids :
  indexed category_of primary index → primary !! i = None →
  index !! category_of a = Some ids →
  indexed category_of (<[i := a]> primary)
    (<[category_of a := ids ++ [i]]> index).
Proof.
  intros Hreg Hfree Hids. pose proof Hreg as [Hin Hnodup]. split.
  - intros category ids' j Hlook Hj.
    destruct (decide (category = category_of a)) as [-> | Hne].
    + rewrite lookup_insert_eq in Hlook. injection Hlook as <-.
      apply elem_of_app in Hj as [Hj | Hj].
      * destruct (Hin _ _ _ Hids Hj) as (b & Hb & Hcat).
        exists b. split; [|done].
        rewrite lookup_insert_ne; [done | congruence].
      * apply list_elem_of_singleton in Hj as ->.
        exists a. by rewrite lookup_insert_eq.
    + rewrite lookup_insert_ne in Hlook by done.
      destruct (Hin _ _ _ Hlook Hj) as (b & Hb & Hcat).
      exists b. split; [|done].
      rewrite lookup_insert_ne; [done | congruence].
  - intros category ids' Hlook.
    destruct (decide (category = category_of a)) as [-> | Hne].
    + rewrite lookup_insert_eq in Hlook. injection Hlook as <-.
      apply NoDup_app. split; [by eapply Hnodup|]. split.
      * intros j Hj Hj'. apply list_elem_of_singleton in Hj' as ->.
        by eapply indexed_fresh.
      * apply NoDup_singleton.
    + rewrite lookup_insert_ne in Hlook by done. by eapply Hnodup.
Qed.

(** A fresh id filed under a category that had no list. *)
Lemma indexed_new primary index i a :
  indexed category_of primary index → primary !! i = None →
  index !! category_of a = None →
  indexed category_of (<[i := a]> primary) (<[category_of a := [i]]> index).
Proof.
  intros [Hin Hnodup] Hfree Hnone. split.
  - intros category ids' j Hlook Hj.
    destruct (decide (category = category_of a)) as [-> | Hne].
    + rewrite lookup_insert_eq in Hlook. injection Hlook as <-.
      apply list_elem_of_singleton in Hj as ->.
      exists a. by rewrite lookup_insert_eq.
    + rewrite lookup_insert_ne in Hlook by done.
      destruct (Hin _ _ _ Hlook Hj) as (b & Hb & Hcat).
      exists b. split; [|done].
      rewrite lookup_insert_ne; [done | congruence].
  - intros category ids' Hlook.
    destruct (decide (category = category_of a)) as [-> | Hne].
    + rewrite lookup_insert_eq in Hlook. injection Hlook as <-.
      apply NoDup_singleton.
    + rewrite lookup_insert_ne in Hlook by done. by eapply Hnodup.
Qed.

(** A fresh id added to the primary map only. *)
Lemma indexed_unfiled primary index i a :
  indexed category_of primary index → primary !! i = None →
  indexed category_of (<[i := a]> primary) index.
Proof.
  intros [Hin Hnodup] Hfree. split; [|done].
  intros category ids j Hlook Hj.
  destruct (Hin _ _ _ Hlook Hj) as (b & Hb & Hcat).
  exists b. split; [|done].
  rewrite lookup_insert_ne; [done | congruence].
Qed.

(** An entry replaced by one of the same category. *)
Lemma indexed_update primary index i a a' :
  indexed category_of primary index → primary !! i = Some a →
  category_of a' = category_of a →
  indexed category_of (<[i := a']> primary) index.
Proof.
  intros [Hin Hnodup] Hi Hcat. split; [|done].
  intros category ids j Hlook Hj.
  destruct (Hin _ _ _ Hlook Hj) as (b & Hb & Hcatb).
  destruct (decide (i = j)) as [-> | Hne].
  - exists a'. rewrite lookup_insert_eq. split; [done|]. congruence.
  - exists b. by rewrite lookup_insert_ne.
Qed.

Lemma indexed_empty index :
  (∀ category ids, index !! category = Some ids → ids = []) →
  indexed category_of ∅ index.
Proof.
  intros Hempty. split.
  - intros category ids i Hlook Hi. apply Hempty in Hlook as ->.
    by apply elem_of_nil in Hi.
  - intros category ids Hlook. apply Hempty in Hlook as ->. apply NoDup_nil_2.
Qed.

End Index.

Lemma occurrences_app (x : string) (l1 l2 : list string) :
  occurrences x (l1 ++ l2) = occurrences x l1 + occurrences x l2.
Proof. unfold occurrences. by rewrite List.filter_app, length_app. Qed.

Lemma occurrences_absent (x : string) (l : list string) :
  x ∉ l → occurrences x l = 0.
Proof.
  unfold occurrences. induction l as [|y l IH]; simpl; [done|].
  intros Hx. apply not_elem_of_cons in Hx as [Hne Hx].
  rewrite bool_decide_eq_false_2 by congruence. by apply IH.
Qed.

Lemma occurrences_once (x : string) (l : list string) :
  NoDup l → x ∈ l → occurrences x l = 1.
Proof.
  induction 1 as [|y l Hy Hnodup IH]; intros Hx.
  - by apply elem_of_nil in Hx.
  - change (y :: l) with ([y] ++ l). rewrite occurrences_app.
    apply elem_of_cons in Hx as [-> | Hx].
    + rewrite (occurrences_absent y l) by done.
      unfold occurrences. simpl. by rewrite bool_decide_eq_true_2.
    + rewrite IH by done. rewrite occurrences_absent; [done|].
      intros Hin. apply list_elem_of_singleton in Hin as ->. done.
Qed.

(** ** The font registry *)

Section FontRegistry.

Import FontService.

(** What [register_custom_font] does, by cases: it fails and leaves the
    registry as it was, or it files a new entry under a free id. *)
Lemma font_register_cases now data reg :
  (success (register_custom_font now data reg).2 = false ∧
   (register_custom_font now data reg).1 = reg) ∨
  (∃ name family category info,
     fd_name data = Some name ∧ fd_family data = Some family ∧
     fd_category data = Some category ∧
     fonts reg !! _generate_font_id name = None ∧
     fi_category info = category ∧ fi_download_count info = 0 ∧
     (register_custom_font now data reg).2 =
       Created (_generate_font_id name)
         ("Font " +:+ name +:+ " registered successfully") now ∧
     fonts (register_custom_font now data reg).1 =
       <[_generate_font_id name := info]> (fonts reg) ∧
     categories (register_custom_font now data reg).1 =
       match categories reg !! category with
       | Some ids => <[category := ids ++ [_generate_font_id name]]> (categories reg)
       | None => <[category := [_generate_font_id name]]> (categories reg)
       end).
Proof.
  unfold register_custom_font.
  destruct (fd_name data) as [name|]; [|by left].
  destruct (fd_family data) as [family|]; [|by left].
  destruct (fd_category data) as [category|]; [|by left].
  case_bool_decide as Hkey; [by left|].
  right. apply eq_None_not_Some in Hkey.
  eexists name, family, category, _. simpl. by repeat split.
Qed.

Lemma font_register_consistent now data reg :
  consistent reg → consistent (register_custom_font now data reg).1.
Proof.
  intros Hreg.
  destruct (font_register_cases now data reg)
    as [[_ ->] | (name & family & category & info & _ & _ & _ & Hfree & Hcat
                  & _ & _ & Hfonts & Hcats)]; [done|].
  unfold consistent. rewrite Hfonts, Hcats. subst category.
  destruct (categories reg !! fi_category info) as [ids|] eqn:Hids.
  - by apply indexed_append.
  - by apply indexed_new.
Qed.

Lemma font_path_consistent fs font_name reg :
  consistent reg → consistent (get_font_path fs font_name reg).1.
Proof.
  intros Hreg. unfold get_font_path.
  destruct (fonts reg !! _generate_font_id font_name) as [info|] eqn:Hinfo;
    [|done].
  destruct (find _ _); [|done].
  unfold consistent. simpl. by eapply indexed_update.
Qed.

Lemma font_details_unchanged now font_name reg :
  (get_font_details now font_name reg).1 = reg.
Proof. unfold get_font_details. by destruct (fonts reg !! _). Qed.

Lemma font_run_consistent c reg : consistent reg → consistent (run c reg).
Proof.
  destruct c as [now data | now font_name | fs font_name]; simpl.
  - apply font_register_consistent.
  - by rewrite font_details_unchanged.
  - apply font_path_consistent.
Qed.

Lemma font_default_fonts reg now font :
  fonts (register_default now reg font)
  = <[_generate_font_id (fi_name font) :=
        {| fi_id := _generate_font_id (fi_name font); fi_name := fi_name font;
           fi_family := fi_family font; fi_category := fi_category font;
           fi_weight := fi_weight font; fi_style := fi_style font;
           fi_formats := fi_formats font; fi_usage := fi_usage font;
           fi_compatibility := fi_compatibility font;
           fi_file_size := fi_file_size font;
           fi_character_set := fi_character_set font;
           fi_license := fi_license font;
           fi_registered := now; fi_status := "available";
           fi_download_count := 0 |}]> (fonts reg).
Proof. done. Qed.

Lemma font_default_consistent now reg font :
  consistent reg → fonts reg !! _generate_font_id (fi_name font) = None →
  consistent (register_default now reg font).
Proof.
  intros Hreg Hfree. unfold consistent. rewrite font_default_fonts.
  unfold register_default. cbn [categories].
  set (entry := {| fi_id := _ |}).
  change (fi_category font) with (fi_category entry).
  destruct (categories reg !! fi_category entry) as [ids|] eqn:Hids.
  - by apply indexed_append.
  - by apply indexed_unfiled.
Qed.

Lemma font_defaults_consistent now (l : list font_info) reg :
  consistent reg →
  NoDup ((λ font, _generate_font_id (fi_name font)) <$> l) →
  (∀ font, font ∈ l → fonts reg !! _generate_font_id (fi_name font) = None) →
  consistent (foldl (register_default now) reg l).
Proof.
  revert reg. induction l as [|font l IH]; intros reg Hreg Hnodup Hfree;
    simpl; [done|].
  rewrite fmap_cons in Hnodup. apply NoDup_cons in Hnodup as [Hhead Hnodup].
  apply IH; [|done|].
  - apply font_default_consistent; [done|]. apply Hfree. left.
  - intros other Hother. rewrite font_default_fonts.
    rewrite lookup_insert_ne.
    + apply Hfree. by right.
    + intros Heq. apply Hhead. rewrite Heq.
      by apply (list_elem_of_fmap_2 (λ f, _generate_font_id (fi_name f))).
Qed.

Lemma font_init_consistent now : consistent (init now).
Proof.
  unfold init, _register_default_fonts, consistent. cbn [fonts categories].
  apply font_defaults_consistent.
  - apply indexed_empty. intros category ids.
    unfold _initialize_font_registry. cbn [categories].
    rewrite !lookup_insert, lookup_empty. repeat case_decide; naive_solver.
  - by apply (bool_decide_unpack _); vm_compute.
  - done.
Qed.

Lemma font_reachable_consistent reg : reachable reg → consistent reg.
Proof.
  induction 1 as [now | c reg _ IH].
  - apply font_init_consistent.
  - by apply font_run_consistent.
Qed.

(** No call removes a key of the primary map. *)
Lemma font_run_keeps c reg i :
  is_Some (fonts reg !! i) → is_Some (fonts (run c reg) !! i).
Proof.
  intros Hi. destruct c as [now data | now font_name | fs font_name]; simpl.
  - destruct (font_register_cases now data reg)
      as [[_ ->] | (name & _ & _ & info & _ & _ & _ & _ & _ & _ & _ & -> & _)];
      [done|].
    rewrite lookup_insert. by case_decide.
  - by rewrite font_details_unchanged.
  - unfold get_font_path. destruct (fonts reg !! _generate_font_id font_name);
      [|done].
    destruct (find _ _); [|done]. simpl.
    rewrite lookup_insert. by case_decide.
Qed.

Lemma font_runs_keep cs reg i :
  is_Some (fonts reg !! i) → is_Some (fonts (foldl (flip run) reg cs) !! i).
Proof.
  revert reg. induction cs as [|c cs IH]; intros reg Hi; simpl; [done|].
  apply IH. by apply font_run_keeps.
Qed.

End FontRegistry.

(** ** The color-scheme registry *)

Section SchemeRegistry.

Import ColorSchemeService.

(** [_validate_colors] from any report reached so far: a report stays, or
    gains the error of each malformed entry, in order. *)
Lemma validate_colors_from (colors : list (string * string)) validation :
  foldl validate_color validation colors =
    {| cv_valid := cv_valid validation && forallb (λ e, negb (malformed e)) colors;
       cv_errors := cv_errors validation
                    ++ (color_error <$> List.filter malformed colors) |}.
Proof.
  revert validation.
  induction colors as [|[color_name color_value] colors IH];
    intros [ok errs]; simpl.
  - by rewrite andb_true_r, app_nil_r.
  - rewrite IH. unfold validate_color, malformed. simpl.
    destruct (color_matches color_value); simpl; [done|].
    by rewrite andb_false_r, <- app_assoc.
Qed.

Lemma validate_colors_spec (colors : list (string * string)) :
  _validate_colors colors =
    {| cv_valid := forallb (λ e, negb (malformed e)) colors;
       cv_errors := color_error <$> List.filter malformed colors |}.
Proof. unfold _validate_colors. by rewrite validate_colors_from. Qed.

(** What [create_scheme] does, by cases. *)
Lemma scheme_create_cases now data reg :
  (success (cr_result (create_scheme now data reg)) = false ∧
   cr_registry (create_scheme now data reg) = reg) ∨
  (∃ name category colors info,
     sd_name data = Some name ∧ sd_category data = Some category ∧
     sd_colors data = Some colors ∧
     schemes reg !! _generate_scheme_id name = None ∧
     cv_valid (_validate_colors colors) = true ∧
     si_category info = category ∧ si_colors info = colors ∧
     si_usage_count info = 0 ∧
     cr_result (create_scheme now data reg) =
       Created (_generate_scheme_id name)
         ("Color scheme " +:+ name +:+ " created successfully") now ∧
     schemes (cr_registry (create_scheme now data reg)) =
       <[_generate_scheme_id name := info]> (schemes reg) ∧
     categories (cr_registry (create_scheme now data reg)) =
       match categories reg !! category with
       | Some ids =>
           <[category := ids ++ [_generate_scheme_id name]]> (categories reg)
       | None => <[category := [_generate_scheme_id name]]> (categories reg)
       end).
Proof.
  unfold create_scheme.
  destruct (sd_name data) as [name|]; [|by left].
  destruct (sd_category data) as [category|]; [|by left].
  destruct (sd_colors data) as [colors|]; [|by left].
  case_bool_decide as Hkey; [by left|].
  destruct (cv_valid (_validate_colors colors)) eqn:Hvalid; [|by left].
  right. apply eq_None_not_Some in Hkey.
  eexists name, category, colors, _. simpl. by repeat split.
Qed.

Lemma scheme_create_consistent now data reg :
  consistent reg → consistent (cr_registry (create_scheme now data reg)).
Proof.
  intros Hreg.
  destruct (scheme_create_cases now data reg)
    as [[_ ->] | (name & category & colors & info & _ & _ & _ & Hfree & _
                  & Hcat & _ & _ & _ & Hschemes & Hcats)]; [done|].
  unfold consistent. rewrite Hschemes, Hcats. subst category.
  destruct (categories reg !! si_category info) as [ids|] eqn:Hids.
  - by apply indexed_append.
  - by apply indexed_new.
Qed.

Lemma scheme_get_consistent now scheme_name reg :
  consistent reg → consistent (get_scheme now scheme_name reg).1.
Proof.
  intros Hreg. unfold get_scheme.
  destruct (schemes reg !! _generate_scheme_id scheme_name) as [info|] eqn:Hinfo;
    [|done].
  unfold consistent. simpl. by eapply indexed_update.
Qed.

Lemma scheme_run_consistent c reg : consistent reg → consistent (run c reg).
Proof.
  destruct c as [now data | now scheme_name]; simpl.
  - apply scheme_create_consistent.
  - apply scheme_get_consistent.
Qed.

Lemma scheme_default_schemes reg now scheme :
  schemes (create_default now reg scheme)
  = <[_generate_scheme_id (si_name scheme) :=
        {| si_id := _generate_scheme_id (si_name scheme);
           si_name := si_name scheme; si_category := si_category scheme;
           si_description := si_description scheme;
           si_colors := si_colors scheme; si_usage := si_usage scheme;
           si_compatibility := si_compatibility scheme;
           si_accessibility := si_accessibility scheme;
           si_created := now; si_status := "active";
           si_usage_count := 0 |}]> (schemes reg).
Proof. done. Qed.

Lemma scheme_default_consistent now reg scheme :
  consistent reg → schemes reg !! _generate_scheme_id (si_name scheme) = None →
  consistent (create_default now reg scheme).
Proof.
  intros Hreg Hfree. unfold consistent. rewrite scheme_default_schemes.
  unfold create_default. cbn [categories].
  set (entry := {| si_id := _ |}).
  change (si_category scheme) with (si_category entry).
  destruct (categories reg !! si_category entry) as [ids|] eqn:Hids.
  - by apply indexed_append.
  - by apply indexed_unfiled.
Qed.

Lemma scheme_defaults_consistent now (l : list scheme_info) reg :
  consistent reg →
  NoDup ((λ scheme, _generate_scheme_id (si_name scheme)) <$> l) →
  (∀ scheme, scheme ∈ l →
             schemes reg !! _generate_scheme_id (si_name scheme) = None) →
  consistent (foldl (create_default now) reg l).
Proof.
  revert reg. induction l as [|scheme l IH]; intros reg Hreg Hnodup Hfree;
    simpl; [done|].
  rewrite fmap_cons in Hnodup. apply NoDup_cons in Hnodup as [Hhead Hnodup].
  apply IH; [|done|].
  - apply scheme_default_consistent; [done|]. apply Hfree. left.
  - intros other Hother. rewrite scheme_default_schemes.
    rewrite lookup_insert_ne.
    + apply Hfree. by right.
    + intros Heq. apply Hhead. rewrite Heq.
      by apply (list_elem_of_fmap_2 (λ s, _generate_scheme_id (si_name s))).
Qed.

Lemma scheme_init_consistent now : consistent (init now).
Proof.
  unfold init, _create_default_schemes, consistent.
  cbn [fst schemes categories].
  apply scheme_defaults_consistent.
  - apply indexed_empty. intros category ids.
    unfold _initialize_scheme_registry. cbn [categories].
    rewrite !lookup_insert, lookup_empty. repeat case_decide; naive_solver.
  - by apply (bool_decide_unpack _); vm_compute.
  - done.
Qed.

Lemma scheme_reachable_consistent reg : reachable reg → consistent reg.
Proof.
  induction 1 as [now | c reg _ IH].
  - apply scheme_init_consistent.
  - by apply scheme_run_consistent.
Qed.

(** No call removes a key of the primary map. *)
Lemma scheme_run_keeps c reg i :
  is_Some (schemes reg !! i) → is_Some (schemes (run c reg) !! i).
Proof.
  intros Hi. destruct c as [now data | now scheme_name]; simpl.
  - destruct (scheme_create_cases now data reg)
      as [[_ ->] | (name & _ & _ & info & _ & _ & _ & _ & _ & _ & _ & _ & _
                    & -> & _)]; [done|].
    rewrite lookup_insert. by case_decide.
  - unfold get_scheme.
    destruct (schemes reg !! _generate_scheme_id scheme_name); [|done].
    simpl. rewrite lookup_insert. by case_decide.
Qed.

Lemma scheme_runs_keep cs reg i :
  is_Some (schemes reg !! i) → is_Some (schemes (foldl (flip run) reg cs) !! i).
Proof.
  revert reg. induction cs as [|c cs IH]; intros reg Hi; simpl; [done|].
  apply IH. by apply scheme_run_keeps.
Qed.

End SchemeRegistry.

(** ** Registry invariant *)

(** C3. In every registry reached from catalog construction, every id of a
    category index list is a key of the primary map; and after a successful
    create the new id is a key of the primary map and occurs exactly once
    in the index list of its category.  Fonts first, then color schemes. *)
Theorem registry_invariant :
  (∀ reg, FontService.reachable reg →
     (∀ category ids i,
        FontService.categories reg !! category = Some ids → i ∈ ids →
        is_Some (FontService.fonts reg !! i)) ∧
     (∀ now data new_id message timestamp,
        (FontService.register_custom_font now data reg).2
          = Created new_id message timestamp →
        ∃ info ids,
          FontService.fonts (FontService.register_custom_font now data reg).1
            !! new_id = Some info ∧
          FontService.categories (FontService.register_custom_font now data reg).1
            !! FontService.fi_category info = Some ids ∧
          occurrences new_id ids = 1)) ∧
  (∀ reg, ColorSchemeService.reachable reg →
     (∀ category ids i,
        ColorSchemeService.categories reg !! category = Some ids → i ∈ ids →
        is_Some (ColorSchemeService.schemes reg !! i)) ∧
     (∀ now data new_id message timestamp,
        ColorSchemeService.cr_result (ColorSchemeService.create_scheme now data reg)
          = Created new_id message timestamp →
        ∃ info ids,
          ColorSchemeService.schemes
            (ColorSchemeService.cr_registry
               (ColorSchemeService.create_scheme now data reg))
            !! new_id = Some info ∧
          ColorSchemeService.categories
            (ColorSchemeService.cr_registry
               (ColorSchemeService.create_scheme now data reg))
            !! ColorSchemeService.si_category info = Some ids ∧
          occurrences new_id ids = 1)).
Proof.
  split.
  - intros reg Hreach. split.
    + intros category ids i Hids Hi.
      destruct (font_reachable_consistent reg Hreach) as [Hin _].
      destruct (Hin _ _ _ Hids Hi) as (a & -> & _). by eexists.
    + intros now data new_id message timestamp Hres.
      pose proof (font_register_consistent now data reg
                    (font_reachable_consistent reg Hreach)) as [_ Hnodup].
      destruct (font_register_cases now data reg)
        as [[Hfail _] | (name & family & category & info & _ & _ & _ & Hfree
                         & Hcat & _ & Hcreated & Hfonts & Hcats)].
      { rewrite Hres in Hfail. done. }
      rewrite Hcreated in Hres. injection Hres as <- _ _.
      exists info. rewrite Hfonts, lookup_insert_eq, Hcat.
      destruct (FontService.categories reg !! category) as [old|] eqn:Hold.
      * exists (old ++ [_generate_font_id name]). split; [done|].
        assert (Hlook : FontService.categories
                  (FontService.register_custom_font now data reg).1 !! category
                = Some (old ++ [_generate_font_id name])).
        { by rewrite Hcats, lookup_insert_eq. }
        split; [done|].
        apply occurrences_once; [by eapply Hnodup|].
        apply elem_of_app. right. by apply list_elem_of_singleton.
      * exists [_generate_font_id name]. split; [done|].
        split; [by rewrite Hcats, lookup_insert_eq|].
        unfold occurrences. simpl. by rewrite bool_decide_eq_true_2.
  - intros reg Hreach. split.
    + intros category ids i Hids Hi.
      destruct (scheme_reachable_consistent reg Hreach) as [Hin _].
      destruct (Hin _ _ _ Hids Hi) as (a & -> & _). by eexists.
    + intros now data new_id message timestamp Hres.
      pose proof (scheme_create_consistent now data reg
                    (scheme_reachable_consistent reg Hreach)) as [_ Hnodup].
      destruct (scheme_create_cases now data reg)
        as [[Hfail _] | (name & category & colors & info & _ & _ & _ & Hfree
                         & _ & Hcat & _ & _ & Hcreated & Hschemes & Hcats)].
      { rewrite Hres in Hfail. done. }
      rewrite Hcreated in Hres. injection Hres as <- _ _.
      exists info. rewrite Hschemes, lookup_insert_eq, Hcat.
      destruct (ColorSchemeService.categories reg !! category) as [old|] eqn:Hold.
      * exists (old ++ [_generate_scheme_id name]). split; [done|].
        assert (Hlook : ColorSchemeService.categories
                  (ColorSchemeService.cr_registry
                     (ColorSchemeService.create_scheme now data reg)) !! category
                = Some (old ++ [_generate_scheme_id name])).
        { by rewrite Hcats, lookup_insert_eq. }
        split; [done|].
        apply occurrences_once; [by eapply Hnodup|].
        apply elem_of_app. right. by apply list_elem_of_singleton.
      * exists [_generate_scheme_id name]. split; [done|].
        split; [by rewrite Hcats, lookup_insert_eq|].
        unfold occurrences. simpl. by rewrite bool_decide_eq_true_2.
Qed.

Lemma registry_invariant_witness :
  FontService.reachable (FontService.init "2025-06-02T00:00:00") ∧
  ∃ info ids,
    FontService.fonts
      (FontService.register_custom_font "2025-06-02T09:30:00" Sample.quill
         (FontService.init "2025-06-02T00:00:00")).1
      !! "quill_sans" = Some info ∧
    FontService.categories
      (FontService.register_custom_font "2025-06-02T09:30:00" Sample.quill
         (FontService.init "2025-06-02T00:00:00")).1
      !! FontService.fi_category info = Some ids ∧
    occurrences "quill_sans" ids = 1.
Proof.
  split; [constructor|].
  apply (proj2 (proj1 registry_invariant _
                  (FontService.reachable_init "2025-06-02T00:00:00"))
           "2025-06-02T09:30:00" Sample.quill "quill_sans"
           "Font Quill Sans registered successfully" "2025-06-02T09:30:00").
  vm_compute. reflexivity.
Defined.

(** ** Conflict law *)

Lemma all_match_valid (colors : list (string * string)) :
  Forall (λ entry, ColorSchemeService.color_matches entry.2 = true) colors →
  ColorSchemeService.cv_valid (ColorSchemeService._validate_colors colors) = true.
Proof.
  intros Hmatch. rewrite validate_colors_spec. simpl.
  apply forallb_forall. intros e He. apply list_elem_of_In in He.
  rewrite Forall_forall in Hmatch. unfold malformed. by rewrite (Hmatch e He).
Qed.

(** C2, as the code has it.  After a create that succeeded, and whatever
    calls follow, a create whose name derives the same id does not succeed
    and leaves the whole registry as it was; since the required fields are
    checked before the id, it fails with the already-exists error when its
    descriptor has them, and with the error of the first missing field
    when it lacks one.  A create with the required fields and a free id
    succeeds, for a color scheme when its colors are well formed and the
    scheme file can be written; where the file cannot be written the call
    raises.  Fonts first, then color schemes. *)
Theorem conflict_law :
  (∀ now1 now2 data1 data2 name1 name2 reg calls,
     FontService.fd_name data1 = Some name1 →
     FontService.fd_name data2 = Some name2 →
     _generate_font_id name1 = _generate_font_id name2 →
     success (FontService.register_custom_font now1 data1 reg).2 = true →
     let reg' :=
       foldl (flip FontService.run)
             (FontService.register_custom_font now1 data1 reg).1 calls in
     (FontService.register_custom_font now2 data2 reg').1 = reg' ∧
     success (FontService.register_custom_font now2 data2 reg').2 = false ∧
     (is_Some (FontService.fd_family data2) →
      is_Some (FontService.fd_category data2) →
      (FontService.register_custom_font now2 data2 reg').2
        = Failed ("Font " +:+ name2 +:+ " already exists") None) ∧
     (FontService.fd_family data2 = None →
      (FontService.register_custom_font now2 data2 reg').2
        = Failed "Missing required field: family" None) ∧
     (is_Some (FontService.fd_family data2) →
      FontService.fd_category data2 = None →
      (FontService.register_custom_font now2 data2 reg').2
        = Failed "Missing required field: category" None)) ∧
  (∀ now data name reg,
     FontService.fd_name data = Some name →
     is_Some (FontService.fd_family data) →
     is_Some (FontService.fd_category data) →
     FontService.fonts reg !! _generate_font_id name = None →
     success (FontService.register_custom_font now data reg).2 = true) ∧
  (∀ writable1 writable2 now1 now2 data1 data2 name1 name2 reg calls first,
     ColorSchemeService.sd_name data1 = Some name1 →
     ColorSchemeService.sd_name data2 = Some name2 →
     _generate_scheme_id name1 = _generate_scheme_id name2 →
     ColorSchemeService.create_scheme_on writable1 now1 data1 reg = Some first →
     success (ColorSchemeService.cr_result first) = true →
     let reg' :=
       foldl (flip ColorSchemeService.run)
             (ColorSchemeService.cr_registry first) calls in
     ∃ second,
       ColorSchemeService.create_scheme_on writable2 now2 data2 reg'
         = Some second ∧
       ColorSchemeService.cr_registry second = reg' ∧
       ColorSchemeService.cr_written second = [] ∧
       success (ColorSchemeService.cr_result second) = false ∧
       (is_Some (ColorSchemeService.sd_category data2) →
        is_Some (ColorSchemeService.sd_colors data2) →
        ColorSchemeService.cr_result second
          = Failed ("Color scheme " +:+ name2 +:+ " already exists") None) ∧
       (ColorSchemeService.sd_category data2 = None →
        ColorSchemeService.cr_result second
          = Failed "Missing required field: category" None) ∧
       (is_Some (ColorSchemeService.sd_category data2) →
        ColorSchemeService.sd_colors data2 = None →
        ColorSchemeService.cr_result second
          = Failed "Missing required field: colors" None)) ∧
  (∀ writable now data name colors reg,
     ColorSchemeService.sd_name data = Some name →
     is_Some (ColorSchemeService.sd_category data) →
     ColorSchemeService.sd_colors data = Some colors →
     ColorSchemeService.schemes reg !! _generate_scheme_id name = None →
     Forall (λ entry, ColorSchemeService.color_matches entry.2 = true) colors →
     (writable (ColorSchemeService.scheme_file_path name) = true →
      ∃ made,
        ColorSchemeService.create_scheme_on writable now data reg = Some made ∧
        success (ColorSchemeService.cr_result made) = true) ∧
     (writable (ColorSchemeService.scheme_file_path name) = false →
      ColorSchemeService.create_scheme_on writable now data reg = None)).
Proof.
  split; [|split; [|split]].
  - intros now1 now2 data1 data2 name1 name2 reg calls Hn1 Hn2 Hid Hok reg'.
    assert (Hkey : is_Some (FontService.fonts reg' !! _generate_font_id name2)).
    { apply font_runs_keep.
      destruct (font_register_cases now1 data1 reg)
        as [[Hfail _] | (name & _ & _ & info & Hname & _ & _ & _ & _ & _ & _
                         & -> & _)]; [congruence|].
      rewrite Hn1 in Hname. injection Hname as <-.
      rewrite <- Hid, lookup_insert_eq. by eexists. }
    unfold FontService.register_custom_font. rewrite Hn2.
    destruct (FontService.fd_family data2) as [family|].
    2: { repeat split; try done; by intros [? ?]. }
    destruct (FontService.fd_category data2) as [category|].
    2: { repeat split; try done; by intros _ [? ?]. }
    rewrite bool_decide_eq_true_2 by done. by repeat split.
  - intros now data name reg Hname [family Hfamily] [category Hcategory] Hfree.
    unfold FontService.register_custom_font.
    rewrite Hname, Hfamily, Hcategory, Hfree.
    rewrite bool_decide_eq_false_2; [done|]. by intros [? ?].
  - intros writable1 writable2 now1 now2 data1 data2 name1 name2 reg calls first
      Hn1 Hn2 Hid Hfirst Hok reg'.
    assert (Hmade : first = ColorSchemeService.create_scheme now1 data1 reg).
    { unfold ColorSchemeService.create_scheme_on, FS.writes in Hfirst.
      destruct (forallb _ _); congruence. }
    assert (Hkey : is_Some (ColorSchemeService.schemes reg'
                              !! _generate_scheme_id name2)).
    { apply scheme_runs_keep. rewrite Hmade in Hok |- *.
      destruct (scheme_create_cases now1 data1 reg)
        as [[Hfail _] | (name & _ & _ & info & Hname & _ & _ & _ & _ & _ & _
                         & _ & _ & -> & _)]; [congruence|].
      rewrite Hn1 in Hname. injection Hname as <-.
      rewrite <- Hid, lookup_insert_eq. by eexists. }
    unfold ColorSchemeService.create_scheme_on, ColorSchemeService.create_scheme.
    rewrite Hn2.
    destruct (ColorSchemeService.sd_category data2) as [category|].
    2: { eexists. split; [reflexivity|].
         repeat split; try done; by intros [? ?]. }
    destruct (ColorSchemeService.sd_colors data2) as [colors|].
    2: { eexists. split; [reflexivity|].
         repeat split; try done; by intros _ [? ?]. }
    rewrite bool_decide_eq_true_2 by done.
    eexists. split; [reflexivity|]. by repeat split.
  - intros writable now data name colors reg Hname [category Hcategory] Hcolors
      Hfree Hmatch.
    unfold ColorSchemeService.create_scheme_on, ColorSchemeService.create_scheme.
    rewrite Hname, Hcategory, Hcolors, Hfree.
    rewrite bool_decide_eq_false_2 by (by intros [? ?]).
    rewrite (all_match_valid _ Hmatch).
    unfold FS.writes. cbn [negb ColorSchemeService.cr_written forallb].
    rewrite andb_true_r.
    split; intros ->; [|done].
    eexists. by split.
Qed.

Lemma conflict_law_witness :
  let reg' :=
    foldl (flip FontService.run)
          (FontService.register_custom_font "2025-06-02T09:30:00" Sample.quill
             (FontService.init "2025-06-02T00:00:00")).1
          [FontService.GetFontDetails "2025-06-02T09:31:00" "Quill Sans"] in
  (FontService.register_custom_font "2025-06-02T09:32:00" Sample.quill_again reg').1
    = reg' ∧
  success (FontService.register_custom_font "2025-06-02T09:32:00"
             Sample.quill_again reg').2 = false ∧
  (FontService.register_custom_font "2025-06-02T09:32:00" Sample.quill_again reg').2
    = Failed "Font QUILL SANS already exists" None.
Proof.
  pose proof (proj1 conflict_law
    "2025-06-02T09:30:00" "2025-06-02T09:32:00" Sample.quill Sample.quill_again
    "Quill Sans" "QUILL SANS" (FontService.init "2025-06-02T00:00:00")
    [FontService.GetFontDetails "2025-06-02T09:31:00" "Quill Sans"]
    eq_refl eq_refl eq_refl) as H.
  destruct H as (H1 & H2 & H3 & _); [vm_compute; reflexivity|].
  split; [exact H1|]. split; [exact H2|].
  apply H3; vm_compute; eauto.
Defined.

(** C2, as stated, fails: a later create whose name derives the id of a
    font registered before, and whose descriptor lacks the family, fails
    with the missing-field error, not with the already-exists error. *)
Lemma conflict_law_counterexample :
  let first :=
    FontService.register_custom_font "2025-06-02T09:30:00" Sample.quill
      (FontService.init "2025-06-02T00:00:00") in
  let second :=
    FontService.register_custom_font "2025-06-02T09:32:00"
      Sample.quill_name_only first.1 in
  _generate_font_id "Quill Sans" = _generate_font_id "quill-sans" ∧
  success first.2 = true ∧
  second.2 = Failed "Missing required field: family" None ∧
  second.2 ≠ Failed "Font quill-sans already exists" None.
Proof. vm_compute. repeat split; discriminate. Qed.

(** ** Categories outside the built-in set *)

Lemma scheme_create_succeeds now data name category colors reg :
  ColorSchemeService.sd_name data = Some name →
  ColorSchemeService.sd_category data = Some category →
  ColorSchemeService.sd_colors data = Some colors →
  ColorSchemeService.schemes reg !! _generate_scheme_id name = None →
  ColorSchemeService.cv_valid (ColorSchemeService._validate_colors colors) = true →
  success (ColorSchemeService.cr_result
             (ColorSchemeService.create_scheme now data reg)) = true.
Proof.
  intros Hname Hcategory Hcolors Hfree Hvalid.
  unfold ColorSchemeService.create_scheme.
  rewrite Hname, Hcategory, Hcolors, Hfree, Hvalid.
  rewrite bool_decide_eq_false_2; [done|]. by intros [? ?].
Qed.

(** The file [create_scheme] saves, and the call on a disk that can refuse
    the write: it raises when the checks have passed and the file cannot be
    opened, and is the plain call otherwise. *)
Lemma scheme_create_written now data reg :
  ColorSchemeService.cr_written (ColorSchemeService.create_scheme now data reg)
  = if success (ColorSchemeService.cr_result
                  (ColorSchemeService.create_scheme now data reg))
    then from_option (λ name, [ColorSchemeService.scheme_file_path name]) []
                     (ColorSchemeService.sd_name data)
    else [].
Proof.
  unfold ColorSchemeService.create_scheme.
  destruct (ColorSchemeService.sd_name data); [|done].
  destruct (ColorSchemeService.sd_category data); [|done].
  destruct (ColorSchemeService.sd_colors data); [|done].
  case_bool_decide; [done|]. by destruct (negb _).
Qed.

Lemma scheme_create_on_accepted writable now data name reg :
  ColorSchemeService.sd_name data = Some name →
  success (ColorSchemeService.cr_result
             (ColorSchemeService.create_scheme now data reg)) = true →
  ColorSchemeService.create_scheme_on writable now data reg
  = if writable (ColorSchemeService.scheme_file_path name)
    then Some (ColorSchemeService.create_scheme now data reg) else None.
Proof.
  intros Hname Hok. unfold ColorSchemeService.create_scheme_on, FS.writes.
  rewrite scheme_create_written, Hok, Hname. cbn [from_option forallb].
  by rewrite andb_true_r.
Qed.

Lemma scheme_create_on_failed writable now data reg :
  success (ColorSchemeService.cr_result
             (ColorSchemeService.create_scheme now data reg)) = false →
  ColorSchemeService.create_scheme_on writable now data reg
  = Some (ColorSchemeService.create_scheme now data reg).
Proof.
  intros Hfail. unfold ColorSchemeService.create_scheme_on, FS.writes.
  by rewrite scheme_create_written, Hfail.
Qed.

(** C10, as the code has it.  A create with the required fields and a free
    id is accepted whatever its category string, for a color scheme when
    its color values are well formed and its file can be written; a color
    scheme whose file cannot be written raises.  The new id is appended to
    the index list of its category when there is one; when there is none,
    a new list that holds just the new id is installed, the set of known
    categories grows by that category, and the by-category query, which
    did not know the category before, lists the new entry.  Fonts first,
    then color schemes. *)
Theorem open_categories :
  (∀ now data name family category reg,
     FontService.fd_name data = Some name →
     FontService.fd_family data = Some family →
     FontService.fd_category data = Some category →
     FontService.fonts reg !! _generate_font_id name = None →
     let new_id := _generate_font_id name in
     let reg' := (FontService.register_custom_font now data reg).1 in
     (FontService.register_custom_font now data reg).2
       = Created new_id ("Font " +:+ name +:+ " registered successfully") now ∧
     (∀ ids, FontService.categories reg !! category = Some ids →
             FontService.categories reg' !! category = Some (ids ++ [new_id])) ∧
     (FontService.categories reg !! category = None →
      FontService.categories reg' !! category = Some [new_id] ∧
      dom (FontService.categories reg')
        = {[category]} ∪ dom (FontService.categories reg) ∧
      ∀ now',
        FontService.get_fonts_by_category now' category reg
          = UnknownCategory ("Unknown category: " +:+ category)
                            (dom (FontService.categories reg)) ∧
        ∃ summary,
          FontService.get_fonts_by_category now' category reg'
            = Listing category [summary] 1 now' ∧
          FontService.fs_id summary = new_id)) ∧
  (∀ writable now data name category colors reg,
     ColorSchemeService.sd_name data = Some name →
     ColorSchemeService.sd_category data = Some category →
     ColorSchemeService.sd_colors data = Some colors →
     ColorSchemeService.schemes reg !! _generate_scheme_id name = None →
     Forall (λ entry, ColorSchemeService.color_matches entry.2 = true) colors →
     let new_id := _generate_scheme_id name in
     (writable (ColorSchemeService.scheme_file_path name) = false →
      ColorSchemeService.create_scheme_on writable now data reg = None) ∧
     (writable (ColorSchemeService.scheme_file_path name) = true →
      ∃ made,
        ColorSchemeService.create_scheme_on writable now data reg = Some made ∧
        let reg' := ColorSchemeService.cr_registry made in
        ColorSchemeService.cr_result made
          = Created new_id
              ("Color scheme " +:+ name +:+ " created successfully") now ∧
        (∀ ids, ColorSchemeService.categories reg !! category = Some ids →
                ColorSchemeService.categories reg' !! category
                  = Some (ids ++ [new_id])) ∧
        (ColorSchemeService.categories reg !! category = None →
         ColorSchemeService.categories reg' !! category = Some [new_id] ∧
         dom (ColorSchemeService.categories reg')
           = {[category]} ∪ dom (ColorSchemeService.categories reg) ∧
         ∀ now',
           ColorSchemeService.get_schemes_by_category now' category reg
             = UnknownCategory ("Unknown category: " +:+ category)
                               (dom (ColorSchemeService.categories reg)) ∧
           ∃ summary,
             ColorSchemeService.get_schemes_by_category now' category reg'
               = Listing category [summary] 1 now' ∧
             ColorSchemeService.ss_id summary = new_id))).
Proof.
  split.
  - intros now data name family category reg Hname Hfamily Hcategory Hfree
      new_id reg'.
    destruct (font_register_cases now data reg)
      as [[Hfail _] | (name' & family' & category' & info & Hname' & _
                       & Hcategory' & _ & Hcat & _ & Hcreated & Hfonts & Hcats)].
    { exfalso. revert Hfail. unfold FontService.register_custom_font.
      rewrite Hname, Hfamily, Hcategory, Hfree.
      rewrite bool_decide_eq_false_2; [done|]. by intros [? ?]. }
    rewrite Hname in Hname'. injection Hname' as <-.
    rewrite Hcategory in Hcategory'. injection Hcategory' as <-.
    split; [done|]. subst reg' new_id. split.
    + intros ids Hids. by rewrite Hcats, Hids, lookup_insert_eq.
    + intros Hnone. rewrite Hcats, Hnone. split; [by rewrite lookup_insert_eq|].
      split; [by rewrite dom_insert_L|].
      intros now'. unfold FontService.get_fonts_by_category.
      rewrite Hnone. split; [done|].
      rewrite Hcats, Hnone, lookup_insert_eq, Hfonts. simpl.
      rewrite lookup_insert_eq. by eexists.
  - intros writable now data name category colors reg Hname Hcategory Hcolors
      Hfree Hmatch new_id.
    pose proof (scheme_create_succeeds now data name category colors reg
                  Hname Hcategory Hcolors Hfree (all_match_valid _ Hmatch))
      as Hok.
    rewrite (scheme_create_on_accepted writable now data name reg Hname Hok).
    split; [by intros ->|]. intros ->.
    exists (ColorSchemeService.create_scheme now data reg).
    split; [done|]. intros reg'.
    destruct (scheme_create_cases now data reg)
      as [[Hfail _] | (name' & category' & colors' & info & Hname' & Hcategory'
                       & _ & _ & _ & Hcat & _ & _ & Hcreated & Hschemes & Hcats)];
      [congruence|].
    rewrite Hname in Hname'. injection Hname' as <-.
    rewrite Hcategory in Hcategory'. injection Hcategory' as <-.
    split; [done|]. subst reg' new_id. split.
    + intros ids Hids. by rewrite Hcats, Hids, lookup_insert_eq.
    + intros Hnone. rewrite Hcats, Hnone. split; [by rewrite lookup_insert_eq|].
      split; [by rewrite dom_insert_L|].
      intros now'. unfold ColorSchemeService.get_schemes_by_category.
      rewrite Hnone. split; [done|].
      rewrite Hcats, Hnone, lookup_insert_eq, Hschemes. simpl.
      rewrite lookup_insert_eq. by eexists.
Qed.

Lemma open_categories_witness :
  let reg := ColorSchemeService.init "2025-06-02T00:00:00" in
  ColorSchemeService.categories reg !! "retro" = None ∧
  ∃ made,
    ColorSchemeService.create_scheme_on (λ _, true) "2025-06-02T09:30:00"
      Sample.dusk reg = Some made ∧
    ColorSchemeService.categories (ColorSchemeService.cr_registry made)
      !! "retro" = Some ["dusk"] ∧
    dom (ColorSchemeService.categories (ColorSchemeService.cr_registry made))
      = {["retro"]} ∪ dom (ColorSchemeService.categories reg).
Proof.
  intros reg.
  assert (Hnone : ColorSchemeService.categories reg !! "retro" = None)
    by (vm_compute; reflexivity).
  split; [exact Hnone|].
  destruct (proj2 open_categories (λ _, true) "2025-06-02T09:30:00" Sample.dusk
              "Dusk" "retro" [("primary", "#102030")] reg
              eq_refl eq_refl eq_refl) as (_ & Hmade).
  - vm_compute. reflexivity.
  - repeat constructor.
  - destruct (Hmade eq_refl) as (made & Hcall & _ & _ & Hnew).
    exists made. split; [exact Hcall|].
    destruct (Hnew Hnone) as (Hlist & Hdom & _).
    split; [exact Hlist | exact Hdom].
Defined.

(** C10, as stated, fails for color schemes: a descriptor with the required
    fields, a free id and a category outside the built-in set is rejected
    when a color value is malformed. *)
Lemma open_categories_counterexample :
  let reg := ColorSchemeService.init "2025-06-02T00:00:00" in
  ColorSchemeService.schemes reg !! _generate_scheme_id "Neon Night" = None ∧
  ColorSchemeService.categories reg !! "retro" = None ∧
  ColorSchemeService.cr_result
    (ColorSchemeService.create_scheme "2025-06-02T09:30:00" Sample.neon reg)
    = Failed "Invalid color format"
        (Some ["Invalid color format for primary: neon pink"]).
Proof. vm_compute. by repeat split. Qed.

(** ** Color validation *)

(** The three patterns on sample values; a newline that ends the value is
    let through by the final [$]. *)
Example color_samples :
  List.map ColorSchemeService.color_matches
    ["#FFF"; "#a1B2c3"; "rgb(1, 2, 3)"; "rgba(10,20,30,0.5)";
     "#FFFF"; "#GGGGGG"; "blue"; "rgb(1,2)"; " #FFF"; "#FFF "]
  = [true; true; true; true; false; false; false; false; false; false] ∧
  ColorSchemeService.color_matches (String.append "#FFF" (String Re.newline ""))
  = true.
Proof. by vm_compute. Qed.

Lemma lang_lit (c : ascii) (s : string) :
  Re.lang (Re.lit c) s ↔ s = String c "".
Proof.
  unfold Re.lit. split.
  - intros (c' & -> & Heq)%lang_sym_inv. by apply Ascii.eqb_eq in Heq as ->.
  - intros ->. constructor. apply Ascii.eqb_refl.
Qed.

Lemma lang_times (p : ascii → bool) (n : nat) (s : string) :
  Re.lang (Re.times n (Re.Sym p)) s ↔ String.length s = n ∧ Str.all p s = true.
Proof.
  revert s. induction n as [|n IH]; intros s; simpl.
  - split.
    + by intros ->%lang_eps_inv.
    + intros [Hlen _]. destruct s; [constructor | discriminate].
  - split.
    + intros (s1 & s2 & -> & (c & -> & Hc)%lang_sym_inv & H2)%lang_seq_inv.
      apply IH in H2 as [<- Hall]. simpl. by rewrite Hc.
    + intros [Hlen Hall]. destruct s as [|c s]; [discriminate|].
      simpl in *. injection Hlen as Hlen.
      apply andb_true_iff in Hall as [Hc Hall].
      apply (Re.lang_seq _ _ (String c "") s); [by constructor|].
      by apply IH.
Qed.

Lemma lang_dollar (s : string) :
  Re.lang Re.dollar s ↔ s = "" ∨ s = String Re.newline "".
Proof.
  unfold Re.dollar. split.
  - intros [->%lang_eps_inv | ->%lang_lit]%lang_alt_inv; eauto.
  - intros [-> | ->]; [apply Re.lang_alt_l; constructor|].
    apply Re.lang_alt_r. by apply lang_lit.
Qed.

(** What [hex_pattern] lets through: a hash sign, then three or six
    hexadecimal digits, then nothing or one newline. *)
Lemma hex_pattern_spec (s : string) :
  Re.match_ ColorSchemeService.hex_pattern s = true ↔
  ∃ h t, s = String "#" (h +:+ t) ∧
         (String.length h = 6 ∨ String.length h = 3) ∧
         Str.all Re.hexdigit h = true ∧
         (t = "" ∨ t = String Re.newline "").
Proof.
  unfold Re.match_, ColorSchemeService.hex_pattern.
  rewrite fullmatch_spec. split.
  - intros (s1 & t & -> & (s0 & h & -> & ->%lang_lit & Hh)%lang_seq_inv
            & Ht%lang_dollar)%lang_seq_inv.
    exists h, t. split; [done|].
    apply lang_alt_inv in Hh as [[Hlen Hall]%lang_times | [Hlen Hall]%lang_times];
      eauto.
  - intros (h & t & -> & Hlen & Hall & Ht).
    apply (Re.lang_seq _ _ (String "#" h) t); [|by apply lang_dollar].
    apply (Re.lang_seq _ _ (String "#" "") h); [by apply lang_lit|].
    destruct Hlen as [Hlen | Hlen];
      [apply Re.lang_alt_l | apply Re.lang_alt_r]; by apply lang_times.
Qed.

(** Validation is not fail-fast.  [_validate_colors] reports one error for
    each color value that its test turns down, in the order of the mapping,
    and is valid exactly when there is none; so two values turned down give
    exactly two errors and [valid = false].  [create_scheme] passes the
    whole list on as the details of its failure, and succeeds only when
    every value passes the test. *)
Theorem color_validation_complete :
  (∀ colors,
     ColorSchemeService.cv_errors (ColorSchemeService._validate_colors colors)
       = color_error <$> List.filter malformed colors ∧
     (ColorSchemeService.cv_valid (ColorSchemeService._validate_colors colors)
        = true ↔
      Forall (λ entry, ColorSchemeService.color_matches entry.2 = true) colors)) ∧
  (∀ colors,
     length (List.filter malformed colors) = 2 →
     length (ColorSchemeService.cv_errors
               (ColorSchemeService._validate_colors colors)) = 2 ∧
     ColorSchemeService.cv_valid (ColorSchemeService._validate_colors colors)
       = false) ∧
  (∀ now data name category colors reg,
     ColorSchemeService.sd_name data = Some name →
     ColorSchemeService.sd_category data = Some category →
     ColorSchemeService.sd_colors data = Some colors →
     ColorSchemeService.schemes reg !! _generate_scheme_id name = None →
     List.filter malformed colors ≠ [] →
     ColorSchemeService.cr_result (ColorSchemeService.create_scheme now data reg)
       = Failed "Invalid color format"
           (Some (color_error <$> List.filter malformed colors)) ∧
     ColorSchemeService.cr_registry (ColorSchemeService.create_scheme now data reg)
       = reg) ∧
  (∀ now data reg,
     success (ColorSchemeService.cr_result
                (ColorSchemeService.create_scheme now data reg)) = true →
     ∃ colors,
       ColorSchemeService.sd_colors data = Some colors ∧
       Forall (λ entry, ColorSchemeService.color_matches entry.2 = true) colors).
Proof.
  assert (Hvalid : ∀ colors,
    ColorSchemeService.cv_valid (ColorSchemeService._validate_colors colors)
      = true ↔
    Forall (λ entry, ColorSchemeService.color_matches entry.2 = true) colors).
  { intros colors. split; [|apply all_match_valid].
    rewrite validate_colors_spec. simpl. intros Hall.
    apply Forall_forall. intros e He. apply list_elem_of_In in He.
    rewrite forallb_forall in Hall. specialize (Hall e He).
    unfold malformed in Hall. by destruct (ColorSchemeService.color_matches e.2). }
  assert (Hbad : ∀ colors,
    List.filter malformed colors ≠ [] →
    ColorSchemeService.cv_valid (ColorSchemeService._validate_colors colors)
      = false).
  { intros colors Hne. rewrite validate_colors_spec. simpl.
    apply not_true_is_false. intros Hall. apply Hne.
    induction colors as [|e colors IH]; simpl in *; [done|].
    apply andb_true_iff in Hall as [He Hall].
    destruct (malformed e); [done|]. by apply IH. }
  split; [|split; [|split]].
  - intros colors. split; [by rewrite validate_colors_spec | apply Hvalid].
  - intros colors Htwo. split.
    + by rewrite validate_colors_spec; simpl; rewrite length_fmap.
    + apply Hbad. intros Hnil. by rewrite Hnil in Htwo.
  - intros now data name category colors reg Hname Hcategory Hcolors Hfree Hne.
    unfold ColorSchemeService.create_scheme.
    rewrite Hname, Hcategory, Hcolors, Hfree.
    rewrite bool_decide_eq_false_2 by (by intros [? ?]).
    rewrite (Hbad colors Hne). simpl. by rewrite validate_colors_spec.
  - intros now data reg Hok.
    destruct (scheme_create_cases now data reg)
      as [[Hfail _] | (name & category & colors & info & _ & _ & Hcolors & _
                       & Hvalid' & _)]; [congruence|].
    exists colors. split; [done|]. by apply Hvalid.
Qed.

Lemma color_validation_complete_witness :
  length (List.filter malformed Sample.two_bad) = 2 ∧
  length (ColorSchemeService.cv_errors
            (ColorSchemeService._validate_colors Sample.two_bad)) = 2 ∧
  ColorSchemeService.cv_valid (ColorSchemeService._validate_colors Sample.two_bad)
    = false.
Proof.
  assert (H : length (List.filter malformed Sample.two_bad) = 2)
    by (vm_compute; reflexivity).
  split; [exact H|].
  exact (proj1 (proj2 color_validation_complete) Sample.two_bad H).
Defined.

(** What the final [$] adds to a pattern: the strings of the pattern, and
    those followed by one newline. *)
Lemma match_spec (r : Re.regex) (s : string) :
  Re.match_ r s = true ↔
  Re.fullmatch r s = true ∨ ∃ w, s = w +:+ Str.nl ∧ Re.fullmatch r w = true.
Proof.
  unfold Re.match_. rewrite fullmatch_spec. split.
  - intros (w & t & -> & Hw & [-> | ->]%lang_dollar)%lang_seq_inv.
    + left. apply fullmatch_spec.
      replace (w +:+ "") with w; [done|].
      clear Hw. induction w as [|c w IH]; [done|].
      change (String c w +:+ "") with (String c (w +:+ "")). by rewrite <- IH.
    + right. exists w. split; [done|]. by apply fullmatch_spec.
  - intros [Hs | (w & -> & Hw)].
    + replace s with (s +:+ "").
      * apply Re.lang_seq; [by apply fullmatch_spec|].
        apply lang_dollar. by left.
      * clear Hs. induction s as [|c s IH]; [done|].
        change (String c s +:+ "") with (String c (s +:+ "")). by rewrite IH.
    + apply Re.lang_seq; [by apply fullmatch_spec|].
      apply lang_dollar. by right.
Qed.

(** C6.  The test of [_validate_colors] lets through the values the
    specification names, #RGB or #RRGGBB, rgb(...) and rgba(...), and also
    each of them followed by one newline.  So a mapping with two values
    outside that syntax, a hex color followed by a newline and a hex color
    of five digits, gets one error, not two; and a scheme whose one color
    is a hex color followed by a newline is created and stored with it. *)
Theorem color_newline_slip :
  (∀ color_value,
     ColorSchemeService.color_matches color_value = true ↔
     spec_color_syntax color_value = true ∨
     ∃ w, color_value = w +:+ Str.nl ∧ spec_color_syntax w = true) ∧
  (length (List.filter (λ entry, negb (spec_color_syntax entry.2))
                       Sample.slipped) = 2 ∧
   ColorSchemeService._validate_colors Sample.slipped
   = ColorSchemeService.ColorValidation false
       ["Invalid color format for text: #12345"]) ∧
  (spec_color_syntax Sample.newline_hex = false ∧
   ∃ made info,
     ColorSchemeService.create_scheme_on (λ _, true) "2025-06-02T09:30:00"
       Sample.slip (ColorSchemeService.init "2025-06-02T00:00:00") = Some made ∧
     ColorSchemeService.cr_result made
     = Created "slip" "Color scheme Slip created successfully"
         "2025-06-02T09:30:00" ∧
     ColorSchemeService.schemes (ColorSchemeService.cr_registry made) !! "slip"
     = Some info ∧
     ColorSchemeService.si_colors info = [("primary", Sample.newline_hex)]).
Proof.
  split; [|split].
  - intros v. unfold ColorSchemeService.color_matches, spec_color_syntax.
    rewrite !orb_true_iff, !match_spec. split.
    + intros [[[H | (w & -> & H)] | [H | (w & -> & H)]] | [H | (w & -> & H)]];
        first [ left; by auto
              | right; exists w; split; [done|];
                rewrite ?orb_true_iff; by auto ].
    + intros [H | (w & -> & H)]; rewrite ?orb_true_iff in H.
      * destruct H as [[H | H] | H]; auto.
      * destruct H as [[H | H] | H]; eauto 6.
  - by vm_compute.
  - split; [by vm_compute|].
    eexists. eexists. split; [vm_compute; reflexivity|].
    split; [reflexivity|]. split; [vm_compute; reflexivity|]. reflexivity.
Qed.

Lemma color_newline_slip_witness :
  ColorSchemeService.color_matches Sample.newline_hex = true.
Proof.
  apply (proj1 color_newline_slip Sample.newline_hex).
  right. exists "#FFF". split; reflexivity.
Defined.

(** ** Required color roles *)

Lemma scheme_defaults_roles now (l : list ColorSchemeService.scheme_info) reg :
  map_Forall (λ _ info, (ColorSchemeService.si_colors info).*1
                        = ColorSchemeService.required_roles)
             (ColorSchemeService.schemes reg) →
  Forall (λ scheme, (ColorSchemeService.si_colors scheme).*1
                    = ColorSchemeService.required_roles) l →
  map_Forall (λ _ info, (ColorSchemeService.si_colors info).*1
                        = ColorSchemeService.required_roles)
    (ColorSchemeService.schemes (foldl (ColorSchemeService.create_default now) reg l)).
Proof.
  revert reg. induction l as [|scheme l IH]; intros reg Hreg Hl; simpl; [done|].
  apply Forall_cons in Hl as [Hscheme Hl].
  apply IH; [|done]. rewrite scheme_default_schemes.
  by apply map_Forall_insert_2.
Qed.

(** C7, as the code has it.  The built-in schemes have exactly the ten
    required roles, in the order the specification lists them; but
    [create_scheme] does not look at the roles: with the required fields, a
    free id, color values that are well formed and a file that can be
    written it succeeds and stores the colors mapping as given, whatever
    roles it has. *)
Theorem roles_not_checked :
  (∀ now id info,
     ColorSchemeService.schemes (ColorSchemeService.init now) !! id = Some info →
     (ColorSchemeService.si_colors info).*1 = ColorSchemeService.required_roles) ∧
  (∀ writable now data name category colors reg,
     ColorSchemeService.sd_name data = Some name →
     ColorSchemeService.sd_category data = Some category →
     ColorSchemeService.sd_colors data = Some colors →
     ColorSchemeService.schemes reg !! _generate_scheme_id name = None →
     Forall (λ entry, ColorSchemeService.color_matches entry.2 = true) colors →
     writable (ColorSchemeService.scheme_file_path name) = true →
     ∃ made info,
       ColorSchemeService.create_scheme_on writable now data reg = Some made ∧
       success (ColorSchemeService.cr_result made) = true ∧
       ColorSchemeService.schemes (ColorSchemeService.cr_registry made)
         !! _generate_scheme_id name = Some info ∧
       ColorSchemeService.si_colors info = colors).
Proof.
  split.
  - intros now id info Hinfo.
    assert (Hall : map_Forall
      (λ _ info, (ColorSchemeService.si_colors info).*1
                 = ColorSchemeService.required_roles)
      (ColorSchemeService.schemes (ColorSchemeService.init now))).
    { unfold ColorSchemeService.init, ColorSchemeService._create_default_schemes.
      cbn [fst ColorSchemeService.schemes].
      apply scheme_defaults_roles; [apply map_Forall_empty|].
      by repeat constructor. }
    by apply (Hall id info).
  - intros writable now data name category colors reg Hname Hcategory Hcolors
      Hfree Hmatch Hwritable.
    pose proof (scheme_create_succeeds now data name category colors reg
                  Hname Hcategory Hcolors Hfree (all_match_valid _ Hmatch))
      as Hok.
    rewrite (scheme_create_on_accepted writable now data name reg Hname Hok).
    rewrite Hwritable.
    destruct (scheme_create_cases now data reg)
      as [[Hfail _] | (name' & category' & colors' & info & Hname' & _
                       & Hcolors' & _ & _ & _ & Hstored & _ & _ & Hschemes & _)];
      [congruence|].
    rewrite Hname in Hname'. injection Hname' as <-.
    rewrite Hcolors in Hcolors'. injection Hcolors' as <-.
    exists (ColorSchemeService.create_scheme now data reg), info.
    split; [done|]. split; [done|].
    by rewrite Hschemes, lookup_insert_eq.
Qed.

Lemma roles_not_checked_witness :
  has_required_roles <$> ColorSchemeService.sd_colors Sample.blank = Some false ∧
  ∃ made,
    ColorSchemeService.create_scheme_on (λ _, true) "2025-06-02T09:30:00"
      Sample.blank (ColorSchemeService.init "2025-06-02T00:00:00") = Some made ∧
    success (ColorSchemeService.cr_result made) = true.
Proof.
  split; [reflexivity|].
  destruct (proj2 roles_not_checked (λ _, true) "2025-06-02T09:30:00"
              Sample.blank "Blank Slate" "modern" []
              (ColorSchemeService.init "2025-06-02T00:00:00")
              eq_refl eq_refl eq_refl) as (made & info & Hcall & Hok & _).
  - vm_compute. reflexivity.
  - constructor.
  - reflexivity.
  - exists made. split; [exact Hcall | exact Hok].
Defined.

(** C7, as stated, fails: a descriptor whose colors mapping is empty, and so
    has none of the ten roles, is created. *)
Lemma roles_not_checked_counterexample :
  has_required_roles <$> ColorSchemeService.sd_colors Sample.blank = Some false ∧
  ColorSchemeService.cr_result
    (ColorSchemeService.create_scheme "2025-06-02T09:30:00" Sample.blank
       (ColorSchemeService.init "2025-06-02T00:00:00"))
  = Created "blank_slate" "Color scheme Blank Slate created successfully"
      "2025-06-02T09:30:00".
Proof. by vm_compute. Qed.

(** ** Lookup by name *)

(** C8, as the code has it.  On a hit, [get_scheme] and [get_template]
    return the stored record as it was before the call, with the URLs
    derived from the name, and add one to the usage count of the stored
    record, leaving every other entry and the category index as they were;
    [get_font_details] returns the stored record with its URLs and leaves
    the registry as it was: the download count of a font is kept by
    [get_font_path], which adds one when it finds a file of the font.  On a
    miss each of the three returns nothing and leaves the registry as it
    was. *)
Theorem get_by_name :
  (∀ now name reg info,
     ColorSchemeService.schemes reg !! _generate_scheme_id name = Some info →
     let out := ColorSchemeService.get_scheme now name reg in
     out.2 = Some (info,
                   {| ColorSchemeService.sm_last_accessed := now;
                      ColorSchemeService.sm_preview_url :=
                        "/api/color-schemes/" +:+ name +:+ "/preview";
                      ColorSchemeService.sm_css_url :=
                        "/api/color-schemes/" +:+ name +:+ "/css" |}) ∧
     ColorSchemeService.schemes out.1 !! _generate_scheme_id name
       = Some (ColorSchemeService.with_usage_count
                 (ColorSchemeService.si_usage_count info + 1) info) ∧
     (∀ other, other ≠ _generate_scheme_id name →
               ColorSchemeService.schemes out.1 !! other
               = ColorSchemeService.schemes reg !! other) ∧
     ColorSchemeService.categories out.1 = ColorSchemeService.categories reg) ∧
  (∀ now name reg,
     ColorSchemeService.schemes reg !! _generate_scheme_id name = None →
     ColorSchemeService.get_scheme now name reg = (reg, None)) ∧
  (∀ now name reg info,
     TemplateService.templates reg !! _generate_template_id name = Some info →
     let out := TemplateService.get_template now name reg in
     out.2 = Some (info,
                   {| TemplateService.tm_last_accessed := now;
                      TemplateService.tm_download_url :=
                        "/api/templates/" +:+ name +:+ "/download";
                      TemplateService.tm_preview_url :=
                        "/api/templates/" +:+ name +:+ "/preview" |}) ∧
     TemplateService.templates out.1 !! _generate_template_id name
       = Some (TemplateService.with_usage_count
                 (TemplateService.ti_usage_count info + 1) info) ∧
     (∀ other, other ≠ _generate_template_id name →
               TemplateService.templates out.1 !! other
               = TemplateService.templates reg !! other) ∧
     TemplateService.categories out.1 = TemplateService.categories reg) ∧
  (∀ now name reg,
     TemplateService.templates reg !! _generate_template_id name = None →
     TemplateService.get_template now name reg = (reg, None)) ∧
  (∀ now name reg info,
     FontService.fonts reg !! _generate_font_id name = Some info →
     FontService.get_font_details now name reg
       = (reg,
          Some (info,
                {| FontService.fm_last_accessed := now;
                   FontService.fm_download_url :=
                     "/api/fonts/" +:+ name +:+ "/download";
                   FontService.fm_preview_url :=
                     "/api/fonts/" +:+ name +:+ "/preview" |}))) ∧
  (∀ now name reg,
     FontService.fonts reg !! _generate_font_id name = None →
     FontService.get_font_details now name reg = (reg, None)) ∧
  (∀ fs name reg info format_ext,
     FontService.fonts reg !! _generate_font_id name = Some info →
     format_ext ∈ FontService.fi_formats info →
     FS.exists_ fs (FontService.font_file_path name format_ext) = true →
     FontService.fonts (FontService.get_font_path fs name reg).1
       !! _generate_font_id name
     = Some (FontService.with_download_count
               (FontService.fi_download_count info + 1) info)).
Proof.
  split; [|split; [|split; [|split; [|split; [|split]]]]].
  - intros now name reg info Hinfo out. subst out.
    unfold ColorSchemeService.get_scheme. rewrite Hinfo. simpl.
    rewrite lookup_insert_eq. repeat split.
    intros other Hother. by rewrite lookup_insert_ne.
  - intros now name reg Hnone. unfold ColorSchemeService.get_scheme.
    by rewrite Hnone.
  - intros now name reg info Hinfo out. subst out.
    unfold TemplateService.get_template. rewrite Hinfo. simpl.
    rewrite lookup_insert_eq. repeat split.
    intros other Hother. by rewrite lookup_insert_ne.
  - intros now name reg Hnone. unfold TemplateService.get_template.
    by rewrite Hnone.
  - intros now name reg info Hinfo. unfold FontService.get_font_details.
    by rewrite Hinfo.
  - intros now name reg Hnone. unfold FontService.get_font_details.
    by rewrite Hnone.
  - intros fs name reg info format_ext Hinfo Hext Hexists.
    unfold FontService.get_font_path. rewrite Hinfo.
    destruct (find _ _) as [found|] eqn:Hfind.
    + simpl. by rewrite lookup_insert_eq.
    + exfalso. apply list_elem_of_In in Hext.
      pose proof (find_none _ _ Hfind _ Hext) as Hno. simpl in Hno. congruence.
Qed.

Lemma get_by_name_witness :
  let reg := ColorSchemeService.init "2025-06-02T00:00:00" in
  let out := ColorSchemeService.get_scheme "2025-06-02T09:30:00" "Nature Green" reg in
  ColorSchemeService.si_usage_count <$> ColorSchemeService.schemes reg !! "nature_green"
    = Some 0 ∧
  ColorSchemeService.si_usage_count <$> (fst <$> out.2) = Some 0 ∧
  ColorSchemeService.si_usage_count <$> ColorSchemeService.schemes out.1 !! "nature_green"
    = Some 1.
Proof.
  intros reg out.
  destruct (ColorSchemeService.schemes reg !! _generate_scheme_id "Nature Green")
    as [info|] eqn:Hinfo; [|vm_compute in Hinfo; discriminate].
  destruct (proj1 get_by_name "2025-06-02T09:30:00" "Nature Green" reg info Hinfo)
    as (Hret & Hstored & _).
  change (_generate_scheme_id "Nature Green") with "nature_green" in *.
  subst out. rewrite Hret, Hstored, Hinfo.
  vm_compute in Hinfo. injection Hinfo as <-. by vm_compute.
Defined.

(** C8, as stated, fails for fonts: [get_font_details] finds Arial and
    leaves its download count at 0. *)
Lemma get_by_name_counterexample :
  let reg := FontService.init "2025-06-02T00:00:00" in
  let out := FontService.get_font_details "2025-06-02T09:30:00" "Arial" reg in
  is_Some out.2 ∧
  FontService.fi_download_count <$> FontService.fonts reg !! "arial" = Some 0 ∧
  FontService.fi_download_count <$> FontService.fonts out.1 !! "arial" = Some 0.
Proof. vm_compute. eauto. Qed.

(** ** Validation of templates *)

Section TemplateValidation.

Import AssetManager.
Variable fs : gmap string FS.file.

Lemma validate_template_valid report template :
  valid (validate_template fs report template)
  = valid report && bool_decide (is_Some (existing_path fs template)).
Proof.
  unfold validate_template.
  destruct (existing_path fs template) as [path|].
  - rewrite bool_decide_eq_true_2 by eauto.
    destruct (Str.endswith_any (Str.lower path) template_suffixes); simpl;
      by rewrite andb_true_r.
  - rewrite bool_decide_eq_false_2 by (by intros [? ?]). simpl.
    by rewrite andb_false_r.
Qed.

Lemma validate_template_errors report template :
  errors (validate_template fs report template)
  = errors report ++ option_list (template_error fs template).
Proof.
  unfold validate_template, template_error.
  destruct (existing_path fs template) as [path|]; [|done].
  destruct (Str.endswith_any (Str.lower path) template_suffixes); [|done].
  simpl. by rewrite app_nil_r.
Qed.

Lemma validate_templates_from (templates : list descriptor) report :
  valid (foldl (validate_template fs) report templates)
  = valid report
    && forallb (λ t, bool_decide (is_Some (existing_path fs t))) templates ∧
  errors (foldl (validate_template fs) report templates)
  = errors report ++ omap (template_error fs) templates.
Proof.
  revert report. induction templates as [|t templates IH]; intros report; simpl.
  - by rewrite andb_true_r, app_nil_r.
  - destruct (IH (validate_template fs report t)) as [-> ->].
    rewrite validate_template_valid, validate_template_errors.
    split; [by rewrite andb_assoc|].
    rewrite <- app_assoc. f_equal. by destruct (template_error fs t).
Qed.

Lemma validate_templates_valid (templates : list descriptor) :
  valid (_validate_templates fs templates) = false ↔
  ∃ t, t ∈ templates ∧ missing_file fs t.
Proof.
  unfold _validate_templates, missing_file.
  rewrite (proj1 (validate_templates_from templates _)). simpl.
  induction templates as [|t templates IH]; simpl.
  - split; [done|]. intros (t & Ht & _). by apply elem_of_nil in Ht.
  - rewrite andb_false_iff, IH. split.
    + intros [Ht | (t' & Ht' & Hmiss)].
      * exists t. split; [left|].
        apply bool_decide_eq_false in Ht. by apply eq_None_not_Some.
      * exists t'. split; [by right | done].
    + intros (t' & Ht' & Hmiss). apply elem_of_cons in Ht' as [-> | Ht'].
      * left. apply bool_decide_eq_false. rewrite Hmiss. by intros [? ?].
      * right. eauto.
Qed.

Lemma validate_templates_errors (templates : list descriptor) :
  errors (_validate_templates fs templates) = omap (template_error fs) templates.
Proof.
  unfold _validate_templates.
  by rewrite (proj2 (validate_templates_from templates _)).
Qed.

Lemma unknown_format_error template path :
  existing_path fs template = Some path →
  Str.endswith_any (Str.lower path) template_suffixes = false →
  template_error fs template = Some ("Unknown template format: " +:+ path).
Proof. unfold template_error. by intros -> ->. Qed.

End TemplateValidation.

(** C4. A template whose file is on disk and whose path ends in none of the
    known extensions adds the unknown-format error to the report and
    leaves [valid] as it was; the report of the kind is invalid exactly
    when the file of some template is missing; so a single such template
    gives [valid = true] with a non-empty [errors] list. *)
Theorem template_format_advisory :
  (∀ fs report template path,
     AssetManager.existing_path fs template = Some path →
     Str.endswith_any (Str.lower path) AssetManager.template_suffixes = false →
     AssetManager.valid (AssetManager.validate_template fs report template)
       = AssetManager.valid report ∧
     AssetManager.errors (AssetManager.validate_template fs report template)
       = AssetManager.errors report ++ ["Unknown template format: " +:+ path]) ∧
  (∀ fs templates template path,
     template ∈ templates →
     AssetManager.existing_path fs template = Some path →
     Str.endswith_any (Str.lower path) AssetManager.template_suffixes = false →
     "Unknown template format: " +:+ path
       ∈ AssetManager.errors (AssetManager._validate_templates fs templates)) ∧
  (∀ fs templates,
     AssetManager.valid (AssetManager._validate_templates fs templates) = false ↔
     ∃ template, template ∈ templates ∧ missing_file fs template) ∧
  (∀ fs template,
     unknown_format fs template →
     AssetManager.valid (AssetManager._validate_templates fs [template]) = true ∧
     AssetManager.errors (AssetManager._validate_templates fs [template]) ≠ []).
Proof.
  split; [|split; [|split]].
  - intros fs report template path Hpath Hext.
    rewrite validate_template_valid, validate_template_errors.
    rewrite (unknown_format_error fs template path Hpath Hext), Hpath.
    rewrite bool_decide_eq_true_2 by eauto. by rewrite andb_true_r.
  - intros fs templates template path Hin Hpath Hext.
    rewrite validate_templates_errors. apply list_elem_of_omap.
    exists template. split; [done|]. by apply unknown_format_error.
  - apply validate_templates_valid.
  - intros fs template (path & Hpath & Hext). split.
    + apply not_false_iff_true. rewrite validate_templates_valid.
      intros (t & Ht & Hmiss). apply list_elem_of_singleton in Ht as ->.
      unfold missing_file in Hmiss. congruence.
    + rewrite validate_templates_errors. simpl.
      by rewrite (unknown_format_error fs template path Hpath Hext).
Qed.

Lemma template_format_advisory_witness :
  unknown_format Sample.disk Sample.draft ∧
  AssetManager.valid (AssetManager._validate_templates Sample.disk [Sample.draft])
    = true ∧
  AssetManager.errors (AssetManager._validate_templates Sample.disk [Sample.draft])
    ≠ [].
Proof.
  assert (H : unknown_format Sample.disk Sample.draft).
  { exists "templates/draft.xyz". split; vm_compute; reflexivity. }
  split; [exact H|].
  exact (proj2 (proj2 (proj2 template_format_advisory)) Sample.disk Sample.draft H).
Defined.

(** ** The validity flag *)

Section Validation.

Import AssetManager.
Variable fs : gmap string FS.file.

Lemma strict_error {check : Type} (errs : list string) (e : string)
    (checks : list check) :
  strict (Validation false (errs ++ [e]) checks).
Proof. unfold strict. simpl. split; [done|]. by destruct errs. Qed.

Lemma validate_font_strict report font :
  strict report → strict (validate_font fs report font).
Proof.
  intros Hreport. unfold validate_font.
  destruct (existing_path fs font) as [path|]; [|apply strict_error].
  destruct (Str.endswith_any (Str.lower path) font_suffixes);
    [exact Hreport | apply strict_error].
Qed.

Lemma validate_fonts_strict (fonts : list descriptor) :
  strict (_validate_fonts fs fonts).
Proof.
  unfold _validate_fonts.
  assert (H0 : strict (Validation (check := file_check) true [] [])) by done.
  revert H0. generalize (Validation (check := file_check) true [] []).
  induction fonts as [|font fonts IH]; intros report Hreport; simpl; [done|].
  apply IH. by apply validate_font_strict.
Qed.

Lemma validate_color_scheme_strict report scheme report' :
  validate_color_scheme fs report scheme = Some report' →
  strict report → strict report'.
Proof.
  unfold validate_color_scheme. intros Hstep Hreport.
  destruct (existing_path fs scheme) as [path|].
  - destruct (FS.load <$> fs !! path) as [[| color_count |]|];
      try discriminate; injection Hstep as <-;
      [apply strict_error | exact Hreport].
  - injection Hstep as <-. apply strict_error.
Qed.

Lemma validate_color_scheme_raises report scheme :
  validate_color_scheme fs report scheme = None ↔ load_raises fs scheme = true.
Proof.
  unfold validate_color_scheme, load_raises.
  destruct (existing_path fs scheme) as [path|]; [|done].
  by destruct (FS.load <$> fs !! path) as [[| color_count |]|].
Qed.

Lemma validate_color_schemes_raised (schemes : list descriptor) :
  foldl (λ acc scheme, acc ≫= λ report, validate_color_scheme fs report scheme)
        None schemes = None.
Proof. by induction schemes. Qed.

Lemma validate_color_schemes_from (schemes : list descriptor) report :
  strict report →
  match foldl (λ acc scheme,
                 acc ≫= λ report, validate_color_scheme fs report scheme)
              (Some report) schemes with
  | Some report' =>
      strict report' ∧ Forall (λ d, load_raises fs d = false) schemes
  | None => ¬ Forall (λ d, load_raises fs d = false) schemes
  end.
Proof.
  revert report. induction schemes as [|scheme schemes IH]; intros report Hreport;
    simpl; [done|].
  destruct (validate_color_scheme fs report scheme) as [report'|] eqn:Hstep.
  - specialize (IH report' (validate_color_scheme_strict _ _ _ Hstep Hreport)).
    assert (Hok : load_raises fs scheme = false).
    { apply not_true_is_false. intros Hraise.
      apply (validate_color_scheme_raises report) in Hraise. congruence. }
    destruct (foldl _ _ _).
    + destruct IH. split; [done|]. by constructor.
    + intros Hall. apply IH. by apply Forall_cons in Hall as [_ ?].
  - rewrite validate_color_schemes_raised.
    apply (validate_color_scheme_raises report) in Hstep.
    intros Hall. apply Forall_cons in Hall as [? _]. congruence.
Qed.

Lemma validate_color_schemes_strict (schemes : list descriptor) report :
  _validate_color_schemes fs schemes = Some report → strict report.
Proof.
  unfold _validate_color_schemes. intros Hrun.
  pose proof (validate_color_schemes_from schemes (Validation true [] [])) as H.
  rewrite Hrun in H. by apply H.
Qed.

Lemma validate_color_schemes_returns (schemes : list descriptor) :
  is_Some (_validate_color_schemes fs schemes) ↔
  Forall (λ d, load_raises fs d = false) schemes.
Proof.
  unfold _validate_color_schemes.
  pose proof (validate_color_schemes_from schemes (Validation true [] [])) as H.
  destruct (foldl _ _ _).
  - split; [by intros; apply H | eauto].
  - split; [by intros [? ?] | by intros; exfalso; apply H].
Qed.

(** The errors of a valid template report are all of the format kind. *)
Lemma validate_templates_advisory (templates : list descriptor) :
  valid (_validate_templates fs templates) = true →
  Forall format_error (errors (_validate_templates fs templates)).
Proof.
  rewrite validate_templates_errors. unfold _validate_templates.
  rewrite (proj1 (validate_templates_from fs templates _)). simpl.
  induction templates as [|t templates IH]; simpl; [constructor|].
  intros [Ht Hrest]%andb_true_iff. specialize (IH Hrest).
  apply bool_decide_eq_true in Ht as [path Hpath].
  unfold template_error at 1. rewrite Hpath.
  destruct (Str.endswith_any _ _); [done|].
  constructor; [by exists path | done].
Qed.

Lemma validate_templates_invalid (templates : list descriptor) :
  valid (_validate_templates fs templates) = false →
  errors (_validate_templates fs templates) ≠ [].
Proof.
  rewrite validate_templates_valid, validate_templates_errors.
  intros (t & Ht & Hmiss) Hnil.
  assert (He : "Template file not found: " +:+
               default "No path specified" (d_path t)
               ∈ omap (template_error fs) templates).
  { apply list_elem_of_omap. exists t. split; [done|].
    unfold template_error. unfold missing_file in Hmiss. by rewrite Hmiss. }
  rewrite Hnil in He. by apply elem_of_nil in He.
Qed.

Lemma merge_flagged {check : Type} current (report : option (validation check)) :
  flagged current →
  (∀ r, report = Some r → valid r = false → errors r ≠ []) →
  flagged (merge current report) ∧
  (merge current report).1 = current.1 && report_valid report.
Proof.
  intros Hcur Hrep. unfold merge, report_valid.
  destruct report as [r|]; simpl; [|by rewrite andb_true_r].
  destruct (valid r) eqn:Hvalid; simpl; [by rewrite andb_true_r|].
  split; [|by rewrite andb_false_r].
  unfold flagged. simpl. split; [|done]. intros _ Hnil.
  apply app_eq_nil in Hnil as [_ Hnil]. by apply (Hrep r).
Qed.

End Validation.

#[local] Arguments AssetManager.merge : simpl never.

(** C1, as the code has it.  When [validate_assets] returns, the top-level
    [valid] is false exactly when the top-level [errors] list is not empty,
    and it is the conjunction of the [valid] flags of the reports under
    [asset_checks]; when it is true the font and color-scheme reports have
    no error, and every error of the template report is an unknown-format
    message, which is advisory.  [validate_assets] returns unless loading a
    color-scheme file raises something other than a JSON decode error. *)
Theorem validity_flag :
  (∀ fs now config r,
     AssetManager.validate_assets fs now config = Some r →
     let checks := AssetManager.vr_asset_checks r in
     (AssetManager.vr_valid r = false ↔ AssetManager.vr_errors r ≠ []) ∧
     AssetManager.vr_valid r
       = report_valid (AssetManager.chk_fonts checks)
         && report_valid (AssetManager.chk_color_schemes checks)
         && report_valid (AssetManager.chk_templates checks) ∧
     (AssetManager.vr_valid r = true →
      report_errors (AssetManager.chk_fonts checks) = [] ∧
      report_errors (AssetManager.chk_color_schemes checks) = [] ∧
      Forall format_error (report_errors (AssetManager.chk_templates checks)))) ∧
  (∀ fs now config,
     is_Some (AssetManager.validate_assets fs now config) ↔
     Forall (λ scheme, load_raises fs scheme = false)
            (default [] (AssetManager.cfg_color_schemes config))).
Proof.
  split.
  - intros fs now config r Hrun checks. subst checks.
    unfold AssetManager.validate_assets in Hrun.
    destruct (AssetManager.cfg_color_schemes config) as [schemes|] eqn:Hcfg.
    + destruct (AssetManager._validate_color_schemes fs schemes)
        as [color_report|] eqn:Hcolors; [|done].
      simpl in Hrun. injection Hrun as <-. cbn [AssetManager.vr_valid
        AssetManager.vr_errors AssetManager.vr_asset_checks
        AssetManager.chk_fonts AssetManager.chk_color_schemes
        AssetManager.chk_templates].
      pose proof (validate_color_schemes_strict fs schemes color_report Hcolors)
        as Hstrict.
      set (fonts := AssetManager._validate_fonts fs
                      <$> AssetManager.cfg_fonts config).
      set (templates := AssetManager._validate_templates fs
                          <$> AssetManager.cfg_templates config).
      assert (H0 : flagged (true, [])) by (by split).
      destruct (merge_flagged (true, []) fonts H0) as [H1 E1].
      { intros r [l [_ ->]]%fmap_Some Hinv.
        pose proof (validate_fonts_strict fs l) as [_ Hs].
        intros Hnil. rewrite (Hs Hnil) in Hinv. done. }
      destruct (merge_flagged _ (Some color_report) H1) as [H2 E2].
      { intros r [= <-] Hinv Hnil. destruct Hstrict as [_ Hs].
        rewrite (Hs Hnil) in Hinv. done. }
      destruct (merge_flagged _ templates H2) as [H3 E3].
      { intros r [l [_ ->]]%fmap_Some. apply validate_templates_invalid. }
      split; [exact H3|]. rewrite E3, E2, E1. split; [done|].
      simpl. intros [[Hf Hc]%andb_true_iff Ht]%andb_true_iff.
      repeat split.
      * unfold fonts, report_valid, report_errors in *.
        destruct (AssetManager.cfg_fonts config) as [l|]; [|done]. simpl in *.
        by apply (validate_fonts_strict fs l).
      * simpl in *. by apply Hstrict.
      * unfold templates, report_valid, report_errors in *.
        destruct (AssetManager.cfg_templates config) as [l|];
          [|constructor]. simpl in *.
        by apply validate_templates_advisory.
    + simpl in Hrun. injection Hrun as <-. cbn [AssetManager.vr_valid
        AssetManager.vr_errors AssetManager.vr_asset_checks
        AssetManager.chk_fonts AssetManager.chk_color_schemes
        AssetManager.chk_templates].
      set (fonts := AssetManager._validate_fonts fs
                      <$> AssetManager.cfg_fonts config).
      set (templates := AssetManager._validate_templates fs
                          <$> AssetManager.cfg_templates config).
      assert (H0 : flagged (true, [])) by (by split).
      destruct (merge_flagged (true, []) fonts H0) as [H1 E1].
      { intros r [l [_ ->]]%fmap_Some Hinv.
        pose proof (validate_fonts_strict fs l) as [_ Hs].
        intros Hnil. rewrite (Hs Hnil) in Hinv. done. }
      destruct (merge_flagged (check := AssetManager.scheme_check) _ None H1)
        as [H2 E2]; [done|].
      destruct (merge_flagged _ templates H2) as [H3 E3].
      { intros r [l [_ ->]]%fmap_Some. apply validate_templates_invalid. }
      split; [exact H3|]. rewrite E3, E2, E1. split; [done|].
      simpl. intros [[Hf _]%andb_true_iff Ht]%andb_true_iff.
      repeat split.
      * unfold fonts, report_valid, report_errors in *.
        destruct (AssetManager.cfg_fonts config) as [l|]; [|done]. simpl in *.
        by apply (validate_fonts_strict fs l).
      * unfold templates, report_valid, report_errors in *.
        destruct (AssetManager.cfg_templates config) as [l|];
          [|constructor]. simpl in *.
        by apply validate_templates_advisory.
  - intros fs now config. unfold AssetManager.validate_assets.
    destruct (AssetManager.cfg_color_schemes config) as [schemes|]; simpl.
    + rewrite <- validate_color_schemes_returns.
      destruct (AssetManager._validate_color_schemes fs schemes); simpl.
      * split; eauto.
      * split; by intros [? ?].
    + split; [constructor | eauto].
Qed.

Lemma validity_flag_witness :
  is_Some (AssetManager.validate_assets Sample.disk "2025-06-02T09:30:00"
             Sample.draft_config) ∧
  (AssetManager.vr_valid <$>
     AssetManager.validate_assets Sample.disk "2025-06-02T09:30:00"
       Sample.draft_config) = Some true.
Proof.
  assert (H : is_Some (AssetManager.validate_assets Sample.disk
                         "2025-06-02T09:30:00" Sample.draft_config)).
  { apply (proj2 validity_flag). constructor. }
  split; [exact H|]. destruct H as [r Hr]. rewrite Hr. simpl. f_equal.
  destruct (proj1 validity_flag _ _ _ _ Hr) as (Hflag & _ & _).
  apply not_false_iff_true. intros Hfalse. apply Hflag in Hfalse.
  apply Hfalse. vm_compute in Hr. by injection Hr as <-.
Defined.

(** C1, as stated, fails: a template on disk with an unknown extension
    leaves the top-level [valid] true and the top-level [errors] empty while
    the template report under [asset_checks] records an error. *)
Lemma validity_flag_counterexample :
  let result :=
    AssetManager.validate_assets Sample.disk "2025-06-02T09:30:00"
      Sample.draft_config in
  AssetManager.vr_valid <$> result = Some true ∧
  AssetManager.vr_errors <$> result = Some [] ∧
  recorded_errors <$> result
    = Some ["Unknown template format: templates/draft.xyz"].
Proof. by vm_compute. Qed.

(** ** Bundles *)

(** The loop of [create_bundle] over the assets of one kind keeps the
    assets whose file is on disk, in order. *)
Lemma add_assets fs kind (assets : list AssetManager.asset) acc :
  foldl (AssetManager.add_asset fs kind) acc assets
  = (acc.1 ++ (member kind <$> List.filter (on_disk fs) assets),
     acc.2 ++ List.filter (on_disk fs) assets).
Proof.
  revert acc. induction assets as [|item assets IH]; intros [zip listed]; simpl.
  - by rewrite !app_nil_r.
  - rewrite IH. unfold AssetManager.add_asset, on_disk.
    destruct (FS.exists_ fs (AssetManager.a_path item)); simpl; [|done].
    by rewrite <- !app_assoc.
Qed.

(** C9. A bundle request with fonts only counts no color scheme and no
    template, and counts as fonts the fonts of the style whose file is on
    disk; the others are passed over, and the request succeeds all the
    same (the result carries no error or warning). *)
Theorem bundle_counts :
  ∀ md5_hexdigest zip_bytes json_dumps fs now name style metadata bundles,
    let result :=
      (AssetManager.create_bundle md5_hexdigest zip_bytes json_dumps fs now
         (AssetManager.BundleConfig name style (Some true) (Some false)
            (Some false) metadata) bundles).2 in
    let count := AssetManager.b_asset_count result in
    AssetManager.ac_color_schemes count = 0 ∧
    AssetManager.ac_templates count = 0 ∧
    AssetManager.ac_fonts count
      = length (List.filter (on_disk fs)
                  (AssetManager._get_style_fonts (default "default" style))) ∧
    AssetManager.b_success result = true.
Proof.
  intros. subst count result. unfold AssetManager.create_bundle.
  cbn [snd AssetManager.b_asset_count AssetManager.ac_color_schemes
       AssetManager.ac_templates AssetManager.ac_fonts AssetManager.b_success
       AssetManager.m_fonts AssetManager.m_color_schemes
       AssetManager.m_templates AssetManager.bc_include_fonts
       AssetManager.bc_include_color_schemes AssetManager.bc_include_templates
       AssetManager.bc_style default from_option].
  repeat split. by rewrite add_assets.
Qed.

(** On the sample disk, which holds the Arial file and not the Times New
    Roman one, a fonts-only bundle of an unlisted style counts one font. *)
Example bundle_counts_sample :
  AssetManager.b_asset_count
    (AssetManager.create_bundle (λ data, data) (λ _ _, "archive") (λ _, "{}")
       Sample.disk "2025-06-02T09:30:00"
       (AssetManager.BundleConfig (Some "demo") (Some "poster") (Some true)
          (Some false) (Some false) None) ∅).2
  = AssetManager.AssetCount 1 0 0.
Proof. by vm_compute. Qed.

(** * Further properties *)

(** ** Completeness of the category indexes *)

Section Listed.

Context {A : Type} (category_of : A → string).
Implicit Types (primary : gmap string A) (index : gmap string (list string)).

Lemma listed_file primary index i a ids :
  listed category_of primary index →
  (index !! category_of a = None → ids = []) →
  (∀ old, index !! category_of a = Some old → ids = old) →
  listed category_of (<[i := a]> primary) (<[category_of a := ids ++ [i]]> index).
Proof.
  intros Hlisted Hnone Hsome j b Hb.
  destruct (decide (i = j)) as [-> | Hne].
  - rewrite lookup_insert_eq in Hb. injection Hb as <-.
    exists (ids ++ [j]). rewrite lookup_insert_eq. split; [done|].
    apply elem_of_app. right. by apply list_elem_of_singleton.
  - rewrite lookup_insert_ne in Hb by done.
    destruct (Hlisted j b Hb) as (old & Hold & Hj).
    destruct (decide (category_of b = category_of a)) as [Heq | Hcat].
    + rewrite Heq in *. rewrite (Hsome old Hold).
      exists (old ++ [i]). rewrite lookup_insert_eq. split; [done|].
      apply elem_of_app. by left.
    + exists old. by rewrite lookup_insert_ne.
Qed.

Lemma listed_update primary index i a a' :
  listed category_of primary index → primary !! i = Some a →
  category_of a' = category_of a →
  listed category_of (<[i := a']> primary) index.
Proof.
  intros Hlisted Hi Hcat j b Hb.
  destruct (decide (i = j)) as [-> | Hne].
  - rewrite lookup_insert_eq in Hb. injection Hb as <-.
    rewrite Hcat. by apply Hlisted.
  - rewrite lookup_insert_ne in Hb by done. by apply Hlisted.
Qed.

End Listed.

Section FontIndex.

Import FontService.

Lemma font_register_listed now data reg :
  listed fi_category (fonts reg) (categories reg) →
  listed fi_category (fonts (register_custom_font now data reg).1)
         (categories (register_custom_font now data reg).1).
Proof.
  intros Hreg.
  destruct (font_register_cases now data reg)
    as [[_ ->] | (name & family & category & info & _ & _ & _ & _ & Hcat
                  & _ & _ & -> & ->)]; [done|].
  subst category.
  destruct (categories reg !! fi_category info) as [ids|] eqn:Hids.
  - apply listed_file; [done | congruence | congruence].
  - apply (listed_file fi_category _ _ _ info []); [done | done | congruence].
Qed.

Lemma font_path_listed fs font_name reg :
  listed fi_category (fonts reg) (categories reg) →
  listed fi_category (fonts (get_font_path fs font_name reg).1)
         (categories (get_font_path fs font_name reg).1).
Proof.
  intros Hreg. unfold get_font_path.
  destruct (fonts reg !! _generate_font_id font_name) as [info|] eqn:Hinfo;
    [|done].
  destruct (find _ _); [|done]. simpl. by eapply listed_update.
Qed.

Lemma font_default_keys now reg font category :
  is_Some (categories reg !! category) →
  is_Some (categories (register_default now reg font) !! category).
Proof.
  intros Hkey. unfold register_default. cbn [categories].
  destruct (categories reg !! fi_category font) as [ids|]; [|done].
  rewrite lookup_insert. by case_decide.
Qed.

Lemma font_defaults_listed now (l : list font_info) reg :
  listed fi_category (fonts reg) (categories reg) →
  (∀ font, font ∈ l → is_Some (categories reg !! fi_category font)) →
  listed fi_category (fonts (foldl (register_default now) reg l))
         (categories (foldl (register_default now) reg l)).
Proof.
  revert reg. induction l as [|font l IH]; intros reg Hreg Hkeys; simpl; [done|].
  apply IH.
  - destruct (Hkeys font) as [ids Hids]; [left|].
    rewrite font_default_fonts. unfold register_default. cbn [categories].
    rewrite Hids.
    set (entry := {| fi_id := _ |}).
    change (fi_category font) with (fi_category entry) in Hids |- *.
    apply listed_file; [done | congruence | congruence].
  - intros other Hother. apply font_default_keys. apply Hkeys. by right.
Qed.

Lemma font_init_listed now :
  listed fi_category (fonts (init now)) (categories (init now)).
Proof.
  unfold init, _register_default_fonts. cbn [fonts categories].
  apply font_defaults_listed.
  - intros i a Hi. simpl in Hi. by rewrite lookup_empty in Hi.
  - intros font Hfont. unfold default_fonts in Hfont.
    repeat (apply elem_of_cons in Hfont as [-> | Hfont]; [by vm_compute; eauto|]).
    by apply elem_of_nil in Hfont.
Qed.

Lemma font_reachable_listed reg :
  reachable reg → listed fi_category (fonts reg) (categories reg).
Proof.
  induction 1 as [now | c reg _ IH]; [apply font_init_listed|].
  destruct c as [now data | now font_name | fs font_name]; simpl.
  - by apply font_register_listed.
  - by rewrite font_details_unchanged.
  - by apply font_path_listed.
Qed.

End FontIndex.

Section SchemeIndex.

Import ColorSchemeService.

Lemma scheme_create_listed now data reg :
  listed si_category (schemes reg) (categories reg) →
  listed si_category (schemes (cr_registry (create_scheme now data reg)))
         (categories (cr_registry (create_scheme now data reg))).
Proof.
  intros Hreg.
  destruct (scheme_create_cases now data reg)
    as [[_ ->] | (name & category & colors & info & _ & _ & _ & _ & _ & Hcat
                  & _ & _ & _ & -> & ->)]; [done|].
  subst category.
  destruct (categories reg !! si_category info) as [ids|] eqn:Hids.
  - apply listed_file; [done | congruence | congruence].
  - apply (listed_file si_category _ _ _ info []); [done | done | congruence].
Qed.

Lemma scheme_get_listed now scheme_name reg :
  listed si_category (schemes reg) (categories reg) →
  listed si_category (schemes (get_scheme now scheme_name reg).1)
         (categories (get_scheme now scheme_name reg).1).
Proof.
  intros Hreg. unfold get_scheme.
  destruct (schemes reg !! _generate_scheme_id scheme_name) as [info|] eqn:Hinfo;
    [|done].
  simpl. by eapply listed_update.
Qed.

Lemma scheme_default_keys now reg scheme category :
  is_Some (categories reg !! category) →
  is_Some (categories (create_default now reg scheme) !! category).
Proof.
  intros Hkey. unfold create_default. cbn [categories].
  destruct (categories reg !! si_category scheme) as [ids|]; [|done].
  rewrite lookup_insert. by case_decide.
Qed.

Lemma scheme_defaults_listed now (l : list scheme_info) reg :
  listed si_category (schemes reg) (categories reg) →
  (∀ scheme, scheme ∈ l → is_Some (categories reg !! si_category scheme)) →
  listed si_category (schemes (foldl (create_default now) reg l))
         (categories (foldl (create_default now) reg l)).
Proof.
  revert reg. induction l as [|scheme l IH]; intros reg Hreg Hkeys; simpl;
    [done|].
  apply IH.
  - destruct (Hkeys scheme) as [ids Hids]; [left|].
    rewrite scheme_default_schemes. unfold create_default. cbn [categories].
    rewrite Hids.
    set (entry := {| si_id := _ |}).
    change (si_category scheme) with (si_category entry) in Hids |- *.
    apply listed_file; [done | congruence | congruence].
  - intros other Hother. apply scheme_default_keys. apply Hkeys. by right.
Qed.

Lemma scheme_init_listed now :
  listed si_category (schemes (init now)) (categories (init now)).
Proof.
  unfold init, _create_default_schemes. cbn [fst schemes categories].
  apply scheme_defaults_listed.
  - intros i a Hi. simpl in Hi. by rewrite lookup_empty in Hi.
  - intros scheme Hscheme. unfold default_schemes in Hscheme.
    repeat (apply elem_of_cons in Hscheme as [-> | Hscheme];
            [by vm_compute; eauto|]).
    by apply elem_of_nil in Hscheme.
Qed.

Lemma scheme_reachable_listed reg :
  reachable reg → listed si_category (schemes reg) (categories reg).
Proof.
  induction 1 as [now | c reg _ IH]; [apply scheme_init_listed|].
  destruct c as [now data | now scheme_name]; simpl.
  - by apply scheme_create_listed.
  - by apply scheme_get_listed.
Qed.

End SchemeIndex.

(** ** By-category queries *)

Lemma omap_resolved {A B : Type} (m : gmap string A) (f : string → A → B)
    (key : B → string) (ids : list string) :
  (∀ i a, key (f i a) = i) →
  (∀ i, i ∈ ids → is_Some (m !! i)) →
  key <$> omap (λ i, match m !! i with
                     | Some a => Some (f i a)
                     | None => None
                     end) ids = ids.
Proof.
  intros Hkey. induction ids as [|i ids IH]; intros Hall; simpl; [done|].
  destruct (Hall i) as [a Ha]; [left|]. rewrite Ha. simpl.
  rewrite Hkey. f_equal. apply IH. intros j Hj. apply Hall. by right.
Qed.

(** X1. In a font registry reached from construction, the by-category
    query of a known category lists exactly the registered fonts of that
    category, each once and in the order of the index, and its count is
    their number. *)
Theorem font_category_listing :
  ∀ reg now category ids,
    FontService.reachable reg →
    FontService.categories reg !! category = Some ids →
    ∃ entries,
      FontService.get_fonts_by_category now category reg
        = Listing category entries (length ids) now ∧
      FontService.fs_id <$> entries = ids ∧
      NoDup ids ∧
      (∀ id, id ∈ ids ↔
             ∃ info, FontService.fonts reg !! id = Some info ∧
                     FontService.fi_category info = category).
Proof.
  intros reg now category ids Hreach Hids.
  destruct (font_reachable_consistent reg Hreach) as [Hin Hnodup].
  pose proof (font_reachable_listed reg Hreach) as Hlisted.
  unfold FontService.get_fonts_by_category. rewrite Hids.
  eexists. split; [|split; [|split]].
  - f_equal. rewrite <- (length_fmap FontService.fs_id).
    rewrite (omap_resolved (FontService.fonts reg)
               (λ i a, FontService.FontSummary i _ _ _ _ _)); [done | done |].
    intros i Hi. destruct (Hin _ _ _ Hids Hi) as (a & -> & _). by eexists.
  - apply (omap_resolved (FontService.fonts reg)
             (λ i a, FontService.FontSummary i _ _ _ _ _)); [done|].
    intros i Hi. destruct (Hin _ _ _ Hids Hi) as (a & -> & _). by eexists.
  - by eapply Hnodup.
  - intros id. split; [by apply Hin|].
    intros (info & Hinfo & <-).
    destruct (Hlisted id info Hinfo) as (ids' & Hids' & Hid). congruence.
Qed.

Lemma font_category_listing_witness :
  ∃ entries,
    FontService.get_fonts_by_category "2025-06-02T09:30:00" "serif"
      (FontService.init "2025-06-02T00:00:00")
      = Listing "serif" entries 2 "2025-06-02T09:30:00" ∧
    FontService.fs_id <$> entries = ["times_new_roman"; "georgia"].
Proof.
  destruct (font_category_listing (FontService.init "2025-06-02T00:00:00")
              "2025-06-02T09:30:00" "serif" ["times_new_roman"; "georgia"])
    as (entries & Hlist & Hids & _).
  - constructor.
  - vm_compute. reflexivity.
  - exists entries. split; [exact Hlist | exact Hids].
Defined.

(** X2. In a color-scheme registry reached from construction, the
    by-category query of a known category lists exactly the registered
    schemes of that category, each once and in the order of the index, and
    its count is their number. *)
Theorem scheme_category_listing :
  ∀ reg now category ids,
    ColorSchemeService.reachable reg →
    ColorSchemeService.categories reg !! category = Some ids →
    ∃ entries,
      ColorSchemeService.get_schemes_by_category now category reg
        = Listing category entries (length ids) now ∧
      ColorSchemeService.ss_id <$> entries = ids ∧
      NoDup ids ∧
      (∀ id, id ∈ ids ↔
             ∃ info, ColorSchemeService.schemes reg !! id = Some info ∧
                     ColorSchemeService.si_category info = category).
Proof.
  intros reg now category ids Hreach Hids.
  destruct (scheme_reachable_consistent reg Hreach) as [Hin Hnodup].
  pose proof (scheme_reachable_listed reg Hreach) as Hlisted.
  unfold ColorSchemeService.get_schemes_by_category. rewrite Hids.
  eexists. split; [|split; [|split]].
  - f_equal. rewrite <- (length_fmap ColorSchemeService.ss_id).
    rewrite (omap_resolved (ColorSchemeService.schemes reg)
               (λ i a, ColorSchemeService.SchemeSummary i _ _ _ _));
      [done | done |].
    intros i Hi. destruct (Hin _ _ _ Hids Hi) as (a & -> & _). by eexists.
  - apply (omap_resolved (ColorSchemeService.schemes reg)
             (λ i a, ColorSchemeService.SchemeSummary i _ _ _ _)); [done|].
    intros i Hi. destruct (Hin _ _ _ Hids Hi) as (a & -> & _). by eexists.
  - by eapply Hnodup.
  - intros id. split; [by apply Hin|].
    intros (info & Hinfo & <-).
    destruct (Hlisted id info Hinfo) as (ids' & Hids' & Hid). congruence.
Qed.

Lemma scheme_category_listing_witness :
  ∃ entries,
    ColorSchemeService.get_schemes_by_category "2025-06-02T09:30:00" "academic"
      (ColorSchemeService.init "2025-06-02T00:00:00")
      = Listing "academic" entries 2 "2025-06-02T09:30:00" ∧
    ColorSchemeService.ss_id <$> entries = ["academic_blue"; "nature_green"].
Proof.
  destruct (scheme_category_listing
              (ColorSchemeService.init "2025-06-02T00:00:00")
              "2025-06-02T09:30:00" "academic" ["academic_blue"; "nature_green"])
    as (entries & Hlist & Hids & _).
  - constructor.
  - vm_compute. reflexivity.
  - exists entries. split; [exact Hlist | exact Hids].
Defined.

(** ** Entries and counts over time *)

Lemma font_later_refl (info : FontService.font_info) : font_later info info.
Proof. exists (FontService.fi_download_count info). by destruct info. Qed.

Lemma font_later_trans (a b c : FontService.font_info) :
  font_later a b → font_later b c → font_later a c.
Proof.
  intros (n & Hn & ->) (m & Hm & ->). exists m. split; [|done].
  simpl in Hm. lia.
Qed.

Lemma scheme_later_refl (info : ColorSchemeService.scheme_info) :
  scheme_later info info.
Proof. exists (ColorSchemeService.si_usage_count info). by destruct info. Qed.

Lemma scheme_later_trans (a b c : ColorSchemeService.scheme_info) :
  scheme_later a b → scheme_later b c → scheme_later a c.
Proof.
  intros (n & Hn & ->) (m & Hm & ->). exists m. split; [|done].
  simpl in Hm. lia.
Qed.

Lemma font_run_later c reg id info :
  FontService.fonts reg !! id = Some info →
  ∃ info', FontService.fonts (FontService.run c reg) !! id = Some info' ∧
           font_later info info'.
Proof.
  intros Hinfo. destruct c as [now data | now font_name | fs font_name]; simpl.
  - destruct (font_register_cases now data reg)
      as [[_ ->] | (name & _ & _ & new & _ & _ & _ & Hfree & _ & _ & _ & -> & _)].
    + exists info. split; [done | apply font_later_refl].
    + exists info. split; [|apply font_later_refl].
      rewrite lookup_insert_ne; [done | congruence].
  - rewrite font_details_unchanged.
    exists info. split; [done | apply font_later_refl].
  - unfold FontService.get_font_path.
    destruct (FontService.fonts reg !! _generate_font_id font_name)
      as [found|] eqn:Hfound;
      [|exists info; split; [done | apply font_later_refl]].
    destruct (find _ _);
      [|exists info; split; [done | apply font_later_refl]].
    simpl. destruct (decide (_generate_font_id font_name = id)) as [<- | Hne].
    + rewrite lookup_insert_eq. eexists. split; [done|].
      rewrite Hinfo in Hfound. injection Hfound as <-.
      eexists. split; [|done]. lia.
    + rewrite lookup_insert_ne by done.
      exists info. split; [done | apply font_later_refl].
Qed.

Lemma scheme_run_later c reg id info :
  ColorSchemeService.schemes reg !! id = Some info →
  ∃ info', ColorSchemeService.schemes (ColorSchemeService.run c reg) !! id
             = Some info' ∧
           scheme_later info info'.
Proof.
  intros Hinfo. destruct c as [now data | now scheme_name]; simpl.
  - destruct (scheme_create_cases now data reg)
      as [[_ ->] | (name & _ & _ & new & _ & _ & _ & Hfree & _ & _ & _ & _ & _
                    & -> & _)].
    + exists info. split; [done | apply scheme_later_refl].
    + exists info. split; [|apply scheme_later_refl].
      rewrite lookup_insert_ne; [done | congruence].
  - unfold ColorSchemeService.get_scheme.
    destruct (ColorSchemeService.schemes reg !! _generate_scheme_id scheme_name)
      as [found|] eqn:Hfound;
      [|exists info; split; [done | apply scheme_later_refl]].
    simpl. destruct (decide (_generate_scheme_id scheme_name = id)) as [<- | Hne].
    + rewrite lookup_insert_eq. eexists. split; [done|].
      rewrite Hinfo in Hfound. injection Hfound as <-.
      eexists. split; [|done]. lia.
    + rewrite lookup_insert_ne by done.
      exists info. split; [done | apply scheme_later_refl].
Qed.

(** X3. Whatever calls follow, a registered font or color scheme stays
    registered under its id with every field as it was, except its
    download or usage count, which never goes down: no call removes or
    rewrites an entry. *)
Theorem entries_persist :
  (∀ calls reg id info,
     FontService.fonts reg !! id = Some info →
     ∃ info',
       FontService.fonts (foldl (flip FontService.run) reg calls) !! id
         = Some info' ∧
       font_later info info') ∧
  (∀ calls reg id info,
     ColorSchemeService.schemes reg !! id = Some info →
     ∃ info',
       ColorSchemeService.schemes (foldl (flip ColorSchemeService.run) reg calls)
         !! id = Some info' ∧
       scheme_later info info').
Proof.
  split.
  - induction calls as [|c calls IH]; intros reg id info Hinfo; simpl.
    + exists info. split; [done | apply font_later_refl].
    + destruct (font_run_later c reg id info Hinfo) as (mid & Hmid & Hlater).
      destruct (IH _ _ _ Hmid) as (info' & Hinfo' & Hlater').
      exists info'. split; [done|]. by eapply font_later_trans.
  - induction calls as [|c calls IH]; intros reg id info Hinfo; simpl.
    + exists info. split; [done | apply scheme_later_refl].
    + destruct (scheme_run_later c reg id info Hinfo) as (mid & Hmid & Hlater).
      destruct (IH _ _ _ Hmid) as (info' & Hinfo' & Hlater').
      exists info'. split; [done|]. by eapply scheme_later_trans.
Qed.

Lemma entries_persist_witness :
  ∃ info',
    ColorSchemeService.schemes
      (foldl (flip ColorSchemeService.run)
         (ColorSchemeService.init "2025-06-02T00:00:00")
         [ColorSchemeService.GetScheme "2025-06-02T09:30:00" "Nature Green";
          ColorSchemeService.CreateScheme "2025-06-02T09:31:00" Sample.dusk;
          ColorSchemeService.GetScheme "2025-06-02T09:32:00" "nature-green"])
      !! "nature_green" = Some info' ∧
    ColorSchemeService.si_usage_count info' = 2.
Proof.
  destruct (ColorSchemeService.schemes
              (ColorSchemeService.init "2025-06-02T00:00:00") !! "nature_green")
    as [info|] eqn:Hinfo; [|vm_compute in Hinfo; discriminate].
  destruct (proj2 entries_persist
              [ColorSchemeService.GetScheme "2025-06-02T09:30:00" "Nature Green";
               ColorSchemeService.CreateScheme "2025-06-02T09:31:00" Sample.dusk;
               ColorSchemeService.GetScheme "2025-06-02T09:32:00" "nature-green"]
              _ _ _ Hinfo) as (info' & Hinfo' & _).
  exists info'. split; [exact Hinfo'|].
  vm_compute in Hinfo'. by injection Hinfo' as <-.
Defined.

(** X4. In every registry reached from construction, the total kept in the
    metadata is the number of entries of the primary map, for fonts and for
    color schemes. *)
Theorem totals_in_step :
  (∀ reg, FontService.reachable reg →
          FontService.total_fonts reg = size (FontService.fonts reg)) ∧
  (∀ reg, ColorSchemeService.reachable reg →
          ColorSchemeService.total_schemes reg
          = size (ColorSchemeService.schemes reg)).
Proof.
  split.
  - induction 1 as [now | c reg _ IH]; [done|].
    destruct c as [now data | now font_name | fs font_name]; simpl.
    + unfold FontService.register_custom_font.
      destruct (FontService.fd_name data); [|done].
      destruct (FontService.fd_family data); [|done].
      destruct (FontService.fd_category data); [|done].
      by case_bool_decide.
    + by rewrite font_details_unchanged.
    + unfold FontService.get_font_path.
      destruct (FontService.fonts reg !! _generate_font_id font_name)
        as [found|] eqn:Hfound; [|done].
      destruct (find _ _); [|done]. simpl.
      rewrite map_size_insert_Some; [done | by eexists].
  - induction 1 as [now | c reg _ IH]; [done|].
    destruct c as [now data | now scheme_name]; simpl.
    + unfold ColorSchemeService.create_scheme.
      destruct (ColorSchemeService.sd_name data); [|done].
      destruct (ColorSchemeService.sd_category data); [|done].
      destruct (ColorSchemeService.sd_colors data); [|done].
      case_bool_decide; [done|].
      by destruct (negb _).
    + unfold ColorSchemeService.get_scheme.
      destruct (ColorSchemeService.schemes reg !! _generate_scheme_id scheme_name)
        as [found|] eqn:Hfound; [|done].
      simpl. rewrite map_size_insert_Some; [done | by eexists].
Qed.

Lemma totals_in_step_witness :
  FontService.total_fonts
    (FontService.run
       (FontService.RegisterCustomFont "2025-06-02T09:30:00" Sample.quill)
       (FontService.init "2025-06-02T00:00:00")) = 6.
Proof.
  rewrite (proj1 totals_in_step).
  - vm_compute. reflexivity.
  - apply FontService.reachable_run, FontService.reachable_init.
Defined.

(** ** Font files *)

(** X5. [get_font_path] on a name that is not registered returns nothing,
    writes nothing and leaves the registry as it was.  On a registered font
    none of whose formats has a file on disk it writes the placeholder and
    returns its path, leaving the registry, download count included, as it
    was; where the placeholder cannot be written the call raises.  When a
    format has a file, it returns the path of the first such format in the
    declared order and writes nothing. *)
Theorem font_path_cases :
  (∀ writable fs name reg,
     FontService.fonts reg !! _generate_font_id name = None →
     FontService.get_font_path_on writable fs name reg
       = Some (reg, FontService.PathResult None [])) ∧
  (∀ writable fs name reg info,
     FontService.fonts reg !! _generate_font_id name = Some info →
     Forall (λ format_ext,
               FS.exists_ fs (FontService.font_file_path name format_ext) = false)
            (FontService.fi_formats info) →
     (writable (FontService.placeholder_path name) = true →
      FontService.get_font_path_on writable fs name reg
        = Some (reg, FontService.PathResult
                       (Some (FontService.placeholder_path name))
                       [FontService.placeholder_path name])) ∧
     (writable (FontService.placeholder_path name) = false →
      FontService.get_font_path_on writable fs name reg = None)) ∧
  (∀ writable fs name reg info before format_ext after,
     FontService.fonts reg !! _generate_font_id name = Some info →
     FontService.fi_formats info = before ++ format_ext :: after →
     Forall (λ earlier,
               FS.exists_ fs (FontService.font_file_path name earlier) = false)
            before →
     FS.exists_ fs (FontService.font_file_path name format_ext) = true →
     snd <$> FontService.get_font_path_on writable fs name reg
       = Some (FontService.PathResult
                 (Some (FontService.font_file_path name format_ext)) [])).
Proof.
  split; [|split].
  - intros writable fs name reg Hnone.
    unfold FontService.get_font_path_on, FontService.get_font_path.
    by rewrite Hnone.
  - intros writable fs name reg info Hinfo Hnone.
    unfold FontService.get_font_path_on, FontService.get_font_path.
    rewrite Hinfo.
    destruct (find _ _) as [found|] eqn:Hfind.
    { apply find_some in Hfind as [Hin Hex].
      rewrite Forall_forall in Hnone. apply list_elem_of_In in Hin.
      rewrite (Hnone found Hin) in Hex. done. }
    unfold FS.writes. cbn [snd FontService.pr_written forallb].
    rewrite andb_true_r. by split; intros ->.
  - intros writable fs name reg info before format_ext after Hinfo Hformats
      Hbefore Hex.
    unfold FontService.get_font_path_on, FontService.get_font_path.
    rewrite Hinfo, Hformats.
    assert (Hfind : find (λ ext, FS.exists_ fs (FontService.font_file_path name ext))
                         (before ++ format_ext :: after) = Some format_ext).
    { clear Hformats. induction before as [|e before IH]; simpl.
      - by rewrite Hex.
      - apply Forall_cons in Hbefore as [He Hbefore]. rewrite He. by apply IH. }
    by rewrite Hfind.
Qed.

Lemma font_path_cases_witness :
  FontService.get_font_path_on (λ _, true) Sample.disk "Helvetica"
    (FontService.init "2025-06-02T00:00:00")
  = Some (FontService.init "2025-06-02T00:00:00",
          FontService.PathResult (Some "fonts/helvetica_placeholder.txt")
            ["fonts/helvetica_placeholder.txt"]).
Proof.
  destruct (FontService.fonts (FontService.init "2025-06-02T00:00:00")
              !! _generate_font_id "Helvetica") as [info|] eqn:Hinfo;
    [|vm_compute in Hinfo; discriminate].
  apply (proj1 (proj2 font_path_cases) (λ _, true) Sample.disk "Helvetica" _
           info Hinfo); [|reflexivity].
  vm_compute in Hinfo. injection Hinfo as <-.
  repeat constructor.
Defined.

(** X6. The path [get_font_path] hands back, when it hands one back, names
    a file that is on disk or that the call has just written; the same
    holds of [get_template_path]. *)
Theorem returned_path_exists :
  (∀ fs name reg path,
     FontService.pr_path (FontService.get_font_path fs name reg).2 = Some path →
     FS.exists_ fs path = true ∨
     path ∈ FontService.pr_written (FontService.get_font_path fs name reg).2) ∧
  (∀ fs name reg path,
     TemplateService.pr_path (TemplateService.get_template_path fs name reg)
       = Some path →
     FS.exists_ fs path = true ∨
     path ∈ TemplateService.pr_written
              (TemplateService.get_template_path fs name reg)).
Proof.
  split.
  - intros fs name reg path. unfold FontService.get_font_path.
    destruct (FontService.fonts reg !! _generate_font_id name) as [info|];
      [|done].
    destruct (find _ _) as [found|] eqn:Hfind; simpl.
    + intros [= <-]. left. by apply find_some in Hfind as [_ ?].
    + intros [= <-]. right. by apply list_elem_of_singleton.
  - intros fs name reg path. unfold TemplateService.get_template_path.
    destruct (TemplateService.templates reg !! _generate_template_id name)
      as [info|]; [|done].
    destruct (FS.exists_ fs _) eqn:Hex; simpl.
    + intros [= <-]. by left.
    + intros [= <-]. right. by apply list_elem_of_singleton.
Qed.

Lemma returned_path_exists_witness :
  FS.exists_ Sample.disk "fonts/arial.ttf" = true ∨
  "fonts/arial.ttf"
    ∈ FontService.pr_written
        (FontService.get_font_path Sample.disk "Arial"
           (FontService.init "2025-06-02T00:00:00")).2.
Proof.
  apply (proj1 returned_path_exists Sample.disk "Arial"
           (FontService.init "2025-06-02T00:00:00")).
  vm_compute. reflexivity.
Defined.

(** ** Create, then look up *)

(** X7. A font registered with the three required fields under a free id
    is found afterwards under every name that derives the same id; what is
    returned carries the name, family and category given, the defaults for
    every optional field left out, a download count of 0, and URLs built
    from the name of the lookup. *)
Theorem register_then_details :
  ∀ now now' data name family category reg lookup,
    FontService.fd_name data = Some name →
    FontService.fd_family data = Some family →
    FontService.fd_category data = Some category →
    FontService.fonts reg !! _generate_font_id name = None →
    _generate_font_id lookup = _generate_font_id name →
    (FontService.get_font_details now' lookup
       (FontService.register_custom_font now data reg).1).2
    = Some
        ({| FontService.fi_id := _generate_font_id name;
            FontService.fi_name := name;
            FontService.fi_family := family;
            FontService.fi_category := category;
            FontService.fi_weight := default "normal" (FontService.fd_weight data);
            FontService.fi_style := default "normal" (FontService.fd_style data);
            FontService.fi_formats := default ["ttf"] (FontService.fd_formats data);
            FontService.fi_usage :=
              default "General purpose" (FontService.fd_usage data);
            FontService.fi_compatibility :=
              default [] (FontService.fd_compatibility data);
            FontService.fi_file_size :=
              default "Unknown" (FontService.fd_file_size data);
            FontService.fi_character_set :=
              default "latin_basic" (FontService.fd_character_set data);
            FontService.fi_license := default "custom" (FontService.fd_license data);
            FontService.fi_registered := now;
            FontService.fi_status := "available";
            FontService.fi_download_count := 0 |},
         {| FontService.fm_last_accessed := now';
            FontService.fm_download_url := "/api/fonts/" +:+ lookup +:+ "/download";
            FontService.fm_preview_url := "/api/fonts/" +:+ lookup +:+ "/preview" |}).
Proof.
  intros now now' data name family category reg lookup Hname Hfamily Hcategory
    Hfree Hid.
  unfold FontService.register_custom_font.
  rewrite Hname, Hfamily, Hcategory, Hfree.
  rewrite bool_decide_eq_false_2 by (by intros [? ?]).
  unfold FontService.get_font_details. cbn [fst FontService.fonts].
  by rewrite Hid, lookup_insert_eq.
Qed.

Lemma register_then_details_witness :
  (FontService.fi_license <$>
     (fst <$>
        (FontService.get_font_details "2025-06-02T09:31:00" "quill-sans"
           (FontService.register_custom_font "2025-06-02T09:30:00" Sample.quill
              (FontService.init "2025-06-02T00:00:00")).1).2))
  = Some "custom".
Proof.
  rewrite (register_then_details "2025-06-02T09:30:00" "2025-06-02T09:31:00"
             Sample.quill "Quill Sans" "Quill" "handwriting"
             (FontService.init "2025-06-02T00:00:00") "quill-sans"
             eq_refl eq_refl eq_refl).
  - reflexivity.
  - vm_compute. reflexivity.
  - reflexivity.
Defined.

(** X8. A color scheme created with the required fields, a free id,
    well-formed color values and a file that can be written is found
    afterwards under every name that derives the same id: [get_scheme]
    returns it with the colors mapping as it was given, the category given,
    the defaults for the optional fields left out and a usage count of 0,
    and leaves the stored usage count at 1. *)
Theorem create_then_get :
  ∀ writable now now' data name category colors reg lookup,
    ColorSchemeService.sd_name data = Some name →
    ColorSchemeService.sd_category data = Some category →
    ColorSchemeService.sd_colors data = Some colors →
    ColorSchemeService.schemes reg !! _generate_scheme_id name = None →
    Forall (λ entry, ColorSchemeService.color_matches entry.2 = true) colors →
    writable (ColorSchemeService.scheme_file_path name) = true →
    _generate_scheme_id lookup = _generate_scheme_id name →
    let created :=
      {| ColorSchemeService.si_id := _generate_scheme_id name;
         ColorSchemeService.si_name := name;
         ColorSchemeService.si_category := category;
         ColorSchemeService.si_description :=
           default "" (ColorSchemeService.sd_description data);
         ColorSchemeService.si_colors := colors;
         ColorSchemeService.si_usage :=
           default "General purpose" (ColorSchemeService.sd_usage data);
         ColorSchemeService.si_compatibility :=
           default [] (ColorSchemeService.sd_compatibility data);
         ColorSchemeService.si_accessibility :=
           default (ColorSchemeService.Accessibility false 0%Q)
                   (ColorSchemeService.sd_accessibility data);
         ColorSchemeService.si_created := now;
         ColorSchemeService.si_status := "active";
         ColorSchemeService.si_usage_count := 0 |} in
    ∃ made,
      ColorSchemeService.create_scheme_on writable now data reg = Some made ∧
      let fetched :=
        ColorSchemeService.get_scheme now' lookup
          (ColorSchemeService.cr_registry made) in
      fst <$> fetched.2 = Some created ∧
      ColorSchemeService.schemes fetched.1 !! _generate_scheme_id name
        = Some (ColorSchemeService.with_usage_count 1 created).
Proof.
  intros writable now now' data name category colors reg lookup Hname Hcategory
    Hcolors Hfree Hmatch Hwritable Hid created.
  pose proof (scheme_create_succeeds now data name category colors reg
                Hname Hcategory Hcolors Hfree (all_match_valid _ Hmatch))
    as Hok.
  rewrite (scheme_create_on_accepted writable now data name reg Hname Hok).
  rewrite Hwritable. eexists. split; [reflexivity|]. intros fetched.
  subst fetched.
  unfold ColorSchemeService.create_scheme.
  rewrite Hname, Hcategory, Hcolors, Hfree.
  rewrite bool_decide_eq_false_2 by (by intros [? ?]).
  rewrite (all_match_valid colors Hmatch).
  cbn [negb ColorSchemeService.cr_registry].
  unfold ColorSchemeService.get_scheme. cbn [ColorSchemeService.schemes].
  rewrite Hid, lookup_insert_eq. cbn [fst snd ColorSchemeService.schemes
    ColorSchemeService.with_schemes fmap option_fmap option_map].
  by rewrite lookup_insert_eq.
Qed.

Lemma create_then_get_witness :
  ∃ made,
    ColorSchemeService.create_scheme_on (λ _, true) "2025-06-02T09:30:00"
      Sample.dusk (ColorSchemeService.init "2025-06-02T00:00:00") = Some made ∧
    (ColorSchemeService.si_colors <$>
       (fst <$>
          (ColorSchemeService.get_scheme "2025-06-02T09:31:00" "DUSK"
             (ColorSchemeService.cr_registry made)).2))
    = Some [("primary", "#102030")].
Proof.
  destruct (create_then_get (λ _, true) "2025-06-02T09:30:00"
              "2025-06-02T09:31:00"
              Sample.dusk "Dusk" "retro" [("primary", "#102030")]
              (ColorSchemeService.init "2025-06-02T00:00:00") "DUSK"
              eq_refl eq_refl eq_refl) as (made & Hcall & Hfetched & _).
  - vm_compute. reflexivity.
  - repeat constructor.
  - reflexivity.
  - reflexivity.
  - exists made. split; [exact Hcall|]. rewrite Hfetched. reflexivity.
Defined.

(** ** Creates that fail *)

(** X9. A create that returns a failure changes nothing: the registry is
    left as it was and, for a color scheme, no file is saved.  A color
    scheme that is created saves exactly one file, named after the
    lowercased name with its spaces replaced.  [create_scheme] raises only
    when every check has passed and that file cannot be written. *)
Theorem failed_create_no_effect :
  (∀ now data reg,
     success (FontService.register_custom_font now data reg).2 = false →
     (FontService.register_custom_font now data reg).1 = reg) ∧
  (∀ writable now data reg made,
     ColorSchemeService.create_scheme_on writable now data reg = Some made →
     success (ColorSchemeService.cr_result made) = false →
     ColorSchemeService.cr_registry made = reg ∧
     ColorSchemeService.cr_written made = []) ∧
  (∀ writable now data reg made,
     ColorSchemeService.create_scheme_on writable now data reg = Some made →
     success (ColorSchemeService.cr_result made) = true →
     ∃ name,
       ColorSchemeService.sd_name data = Some name ∧
       ColorSchemeService.cr_written made
         = [ColorSchemeService.scheme_file_path name] ∧
       writable (ColorSchemeService.scheme_file_path name) = true) ∧
  (∀ writable now data reg,
     ColorSchemeService.create_scheme_on writable now data reg = None →
     ∃ name category colors,
       ColorSchemeService.sd_name data = Some name ∧
       ColorSchemeService.sd_category data = Some category ∧
       ColorSchemeService.sd_colors data = Some colors ∧
       ColorSchemeService.schemes reg !! _generate_scheme_id name = None ∧
       ColorSchemeService.cv_valid (ColorSchemeService._validate_colors colors)
         = true ∧
       writable (ColorSchemeService.scheme_file_path name) = false).
Proof.
  split; [|split; [|split]].
  - intros now data reg. unfold FontService.register_custom_font.
    destruct (FontService.fd_name data); [|done].
    destruct (FontService.fd_family data); [|done].
    destruct (FontService.fd_category data); [|done].
    by case_bool_decide.
  - intros writable now data reg made.
    unfold ColorSchemeService.create_scheme_on, FS.writes.
    destruct (forallb _ _); [|done]. intros [= <-].
    unfold ColorSchemeService.create_scheme.
    destruct (ColorSchemeService.sd_name data); [|done].
    destruct (ColorSchemeService.sd_category data); [|done].
    destruct (ColorSchemeService.sd_colors data); [|done].
    case_bool_decide; [done|]. by destruct (negb _).
  - intros writable now data reg made.
    unfold ColorSchemeService.create_scheme_on, FS.writes,
      ColorSchemeService.create_scheme.
    destruct (ColorSchemeService.sd_name data) as [name|];
      [|by intros [= <-]].
    destruct (ColorSchemeService.sd_category data); [|by intros [= <-]].
    destruct (ColorSchemeService.sd_colors data); [|by intros [= <-]].
    case_bool_decide; [by intros [= <-]|].
    destruct (negb _); [by intros [= <-]|].
    cbn [ColorSchemeService.cr_written forallb]. rewrite andb_true_r.
    destruct (writable _) eqn:Hwritable; [|done].
    intros [= <-] _. by exists name.
  - intros writable now data reg.
    unfold ColorSchemeService.create_scheme_on, FS.writes,
      ColorSchemeService.create_scheme.
    destruct (ColorSchemeService.sd_name data) as [name|]; [|done].
    destruct (ColorSchemeService.sd_category data) as [category|]; [|done].
    destruct (ColorSchemeService.sd_colors data) as [colors|]; [|done].
    case_bool_decide as Htaken; [done|].
    destruct (ColorSchemeService.cv_valid _) eqn:Hvalid; [|done].
    cbn [negb ColorSchemeService.cr_written forallb]. rewrite andb_true_r.
    destruct (writable _) eqn:Hwritable; [done|]. intros _.
    exists name, category, colors. repeat split; try done.
    destruct (ColorSchemeService.schemes reg !! _) eqn:Hlookup; [|done].
    exfalso. apply Htaken. by eexists.
Qed.

Lemma failed_create_no_effect_witness :
  ∃ made,
    ColorSchemeService.create_scheme_on (λ _, false) "2025-06-02T09:30:00"
      Sample.neon (ColorSchemeService.init "2025-06-02T00:00:00") = Some made ∧
    ColorSchemeService.cr_registry made
      = ColorSchemeService.init "2025-06-02T00:00:00" ∧
    ColorSchemeService.cr_written made = [].
Proof.
  exists (ColorSchemeService.create_scheme "2025-06-02T09:30:00" Sample.neon
            (ColorSchemeService.init "2025-06-02T00:00:00")).
  assert (Hcall :
    ColorSchemeService.create_scheme_on (λ _, false) "2025-06-02T09:30:00"
      Sample.neon (ColorSchemeService.init "2025-06-02T00:00:00")
    = Some (ColorSchemeService.create_scheme "2025-06-02T09:30:00" Sample.neon
              (ColorSchemeService.init "2025-06-02T00:00:00")))
    by (vm_compute; reflexivity).
  split; [exact Hcall|].
  apply (proj1 (proj2 failed_create_no_effect) (λ _, false)
           "2025-06-02T09:30:00" Sample.neon
           (ColorSchemeService.init "2025-06-02T00:00:00") _ Hcall).
  vm_compute. reflexivity.
Defined.

(** ** Generated CSS *)

(** X10. [generate_css] fetches the scheme before it looks at the format:
    for a registered scheme the stored usage count goes up by one whether
    the format is known or not, the call succeeds exactly for the formats
    variables, classes and complete, and any other format gives the
    unknown-format failure; for a name that is not registered the call
    fails and leaves the registry as it was. *)
Theorem generate_css_cases :
  (∀ now name css_format reg,
     ColorSchemeService.schemes reg !! _generate_scheme_id name = None →
     ColorSchemeService.generate_css now name css_format reg
       = (reg, ColorSchemeService.CssFailed "Color scheme not found")) ∧
  (∀ now name css_format reg info,
     ColorSchemeService.schemes reg !! _generate_scheme_id name = Some info →
     let out := ColorSchemeService.generate_css now name css_format reg in
     out.1 = (ColorSchemeService.get_scheme now name reg).1 ∧
     ColorSchemeService.schemes out.1 !! _generate_scheme_id name
       = Some (ColorSchemeService.with_usage_count
                 (ColorSchemeService.si_usage_count info + 1) info) ∧
     ((css_format = "variables" ∨ css_format = "classes" ∨
       css_format = "complete") →
      ∃ css_content,
        out.2 = ColorSchemeService.CssGenerated name css_format css_content now) ∧
     (css_format ≠ "variables" → css_format ≠ "classes" →
      css_format ≠ "complete" →
      out.2 = ColorSchemeService.CssFailed
                ("Unknown CSS format: " +:+ css_format))).
Proof.
  split.
  - intros now name css_format reg Hnone.
    unfold ColorSchemeService.generate_css, ColorSchemeService.get_scheme.
    by rewrite Hnone.
  - intros now name css_format reg info Hinfo out. subst out.
    unfold ColorSchemeService.generate_css, ColorSchemeService.get_scheme.
    rewrite Hinfo. cbn [fst snd].
    destruct (String.eqb css_format "variables") eqn:Hv.
    { apply String.eqb_eq in Hv as ->. cbn [fst snd].
      repeat split; eauto using lookup_insert_eq.
      - simpl. by rewrite lookup_insert_eq.
      - done. }
    destruct (String.eqb css_format "classes") eqn:Hc.
    { apply String.eqb_eq in Hc as ->. cbn [fst snd].
      repeat split; eauto.
      - simpl. by rewrite lookup_insert_eq.
      - done. }
    destruct (String.eqb css_format "complete") eqn:Hk.
    { apply String.eqb_eq in Hk as ->. cbn [fst snd].
      repeat split; eauto.
      - simpl. by rewrite lookup_insert_eq.
      - done. }
    apply String.eqb_neq in Hv, Hc, Hk. cbn [fst snd].
    repeat split.
    + simpl. by rewrite lookup_insert_eq.
    + intros [? | [? | ?]]; done.
Qed.

Lemma generate_css_cases_witness :
  let out :=
    ColorSchemeService.generate_css "2025-06-02T09:30:00" "Nature Green" "scss"
      (ColorSchemeService.init "2025-06-02T00:00:00") in
  out.2 = ColorSchemeService.CssFailed "Unknown CSS format: scss" ∧
  ColorSchemeService.si_usage_count
    <$> ColorSchemeService.schemes out.1 !! "nature_green" = Some 1.
Proof.
  intros out.
  destruct (ColorSchemeService.schemes
              (ColorSchemeService.init "2025-06-02T00:00:00")
              !! _generate_scheme_id "Nature Green") as [info|] eqn:Hinfo;
    [|vm_compute in Hinfo; discriminate].
  destruct (proj2 generate_css_cases "2025-06-02T09:30:00" "Nature Green" "scss"
              _ info Hinfo) as (_ & Hcount & _ & Hfail).
  split; [by apply Hfail|].
  change "nature_green" with (_generate_scheme_id "Nature Green").
  subst out. rewrite Hcount. vm_compute in Hinfo. by injection Hinfo as <-.
Defined.

(** ** Synchronization *)

Lemma sync_services_from now sync_type (targets : list string) acc :
  foldl (AssetManager.sync_service now sync_type) acc targets
  = (acc.1 ++ List.filter known_service targets,
     acc.2 ++ (unknown_service <$> List.filter (λ s, negb (known_service s)) targets)).
Proof.
  revert acc. induction targets as [|service targets IH]; intros [synced failed];
    simpl.
  - by rewrite !app_nil_r.
  - rewrite IH. unfold AssetManager.sync_service, AssetManager._sync_with_service,
      known_service.
    destruct (bool_decide (is_Some (AssetManager.service_urls !! service)));
      simpl; by rewrite <- app_assoc.
Qed.

Lemma filter_split_length {A : Type} (p : A → bool) (l : list A) :
  length (List.filter p l) + length (List.filter (λ x, negb (p x)) l) = length l.
Proof.
  induction l as [|x l IH]; simpl; [done|].
  destruct (p x); simpl; lia.
Qed.

(** X11. [sync_with_services] goes through every target in order: the
    targets on the roster (styles_gallery, publication_style_config_server,
    distance_server) are the synced services, every other target is a
    failure with the unknown-service error and stops nothing after it; the
    two counts add up to the number of targets, and the result is a success
    exactly when every target is on the roster, so also when there is no
    target, in which case the success rate is 0. *)
Theorem sync_partition :
  ∀ now config,
    let targets := default [] (AssetManager.sc_target_services config) in
    let result := AssetManager.sync_with_services now config in
    let summary := AssetManager.sr_sync_summary result in
    AssetManager.sr_synced_services result = List.filter known_service targets ∧
    AssetManager.sr_failed_services result
      = unknown_service <$> List.filter (λ s, negb (known_service s)) targets ∧
    AssetManager.successful_syncs summary + AssetManager.failed_syncs summary
      = AssetManager.total_services summary ∧
    AssetManager.total_services summary = length targets ∧
    (AssetManager.sr_success result = true ↔
     Forall (λ s, s ∈ ["styles_gallery"; "publication_style_config_server";
                       "distance_server"]) targets) ∧
    (targets = [] →
     AssetManager.sr_success result = true ∧
     (AssetManager.success_rate summary = 0)%Q).
Proof.
  intros now config targets result summary. subst summary result.
  unfold AssetManager.sync_with_services. fold targets.
  rewrite sync_services_from. cbn [fst snd app AssetManager.sr_synced_services
    AssetManager.sr_failed_services AssetManager.sr_sync_summary
    AssetManager.sr_success AssetManager.successful_syncs
    AssetManager.failed_syncs AssetManager.total_services
    AssetManager.success_rate].
  split; [done|]. split; [done|]. split.
  { rewrite length_fmap. apply filter_split_length. }
  split; [done|]. split.
  - rewrite bool_decide_eq_true. split.
    + intros Hnil. apply Forall_forall. intros s Hs.
      assert (Hknown : known_service s = true).
      { apply not_false_iff_true. intros Hunknown.
        assert (Hin : unknown_service s
                        ∈ unknown_service
                            <$> List.filter (λ s, negb (known_service s)) targets).
        { apply list_elem_of_fmap_2. apply list_elem_of_In, filter_In.
          split; [by apply list_elem_of_In | by rewrite Hunknown]. }
        rewrite Hnil in Hin. by apply elem_of_nil in Hin. }
      unfold known_service in Hknown. apply bool_decide_eq_true in Hknown.
      unfold AssetManager.service_urls in Hknown.
      rewrite !lookup_insert, lookup_empty in Hknown.
      repeat case_decide; subst; try set_solver; by destruct Hknown.
    + intros Hall. induction targets as [|s targets' IH]; [done|].
      apply Forall_cons in Hall as [Hs Hall]. simpl.
      assert (Hknown : known_service s = true).
      { unfold known_service. apply bool_decide_eq_true.
        repeat (apply elem_of_cons in Hs as [-> | Hs]; [by vm_compute; eauto|]).
        by apply elem_of_nil in Hs. }
      rewrite Hknown. simpl. by apply IH.
  - intros ->. split; [done | reflexivity].
Qed.

(** A batch with a peer that is not on the roster between two that are. *)
Example sync_partition_sample :
  let result :=
    AssetManager.sync_with_services "2025-06-02T09:30:00"
      (AssetManager.SyncConfig
         (Some ["styles_gallery"; "printer"; "distance_server"]) None) in
  AssetManager.sr_synced_services result = ["styles_gallery"; "distance_server"] ∧
  AssetManager.sr_failed_services result
    = [AssetManager.FailedService "printer" "Unknown service: printer"] ∧
  AssetManager.sr_success result = false.
Proof. by vm_compute. Qed.

Lemma sync_partition_witness :
  AssetManager.sr_success
    (AssetManager.sync_with_services "2025-06-02T09:30:00"
       (AssetManager.SyncConfig None None)) = true.
Proof.
  destruct (sync_partition "2025-06-02T09:30:00"
              (AssetManager.SyncConfig None None))
    as (_ & _ & _ & _ & _ & Hempty).
  exact (proj1 (Hempty eq_refl)).
Defined.

(** ** Bundles, in general *)

Lemma style_fonts_bound (style_name : string) :
  length (AssetManager._get_style_fonts style_name) ≤ 2.
Proof.
  unfold AssetManager._get_style_fonts, AssetManager.style_fonts.
  rewrite !lookup_insert, lookup_empty.
  repeat case_decide; simpl; lia.
Qed.

Lemma filter_length_le {A : Type} (p : A → bool) (l : list A) :
  length (List.filter p l) ≤ length l.
Proof. induction l as [|x l IH]; simpl; [done|]. destruct (p x); simpl; lia. Qed.

Lemma packed_bound fs included (assets : list AssetManager.asset) :
  length (packed fs included assets) ≤ length assets.
Proof.
  unfold packed. destruct (default true included); simpl; [|lia].
  apply filter_length_le.
Qed.

(** X12. For every request, [create_bundle] counts for each kind the assets
    it packed: none for a kind whose flag is false, and for a kind whose
    flag is true or absent the assets of the style whose file is on disk,
    at most two of each kind.  The manifest it stores lists the same
    assets; the archive holds one member for each of them, fonts first,
    then color schemes, then templates, and the manifest last; and the
    bundle is stored under its id with the path, size and checksum that
    are returned, every other bundle being left as it was. *)
Theorem bundle_contents :
  ∀ md5_hexdigest zip_bytes json_dumps fs now config bundles,
    let out :=
      AssetManager.create_bundle md5_hexdigest zip_bytes json_dumps fs now
        config bundles in
    let style_name := default "default" (AssetManager.bc_style config) in
    let fonts :=
      packed fs (AssetManager.bc_include_fonts config)
        (AssetManager._get_style_fonts style_name) in
    let schemes :=
      packed fs (AssetManager.bc_include_color_schemes config)
        (AssetManager._get_style_color_schemes style_name) in
    let templates :=
      packed fs (AssetManager.bc_include_templates config)
        (AssetManager._get_style_templates style_name) in
    AssetManager.b_asset_count out.2
      = AssetManager.AssetCount (length fonts) (length schemes)
          (length templates) ∧
    (length fonts ≤ 2 ∧ length schemes ≤ 2 ∧ length templates ≤ 2) ∧
    (∃ record,
       out.1 !! AssetManager.b_bundle_id out.2 = Some record ∧
       AssetManager.br_path record = AssetManager.b_bundle_path out.2 ∧
       AssetManager.br_size record = AssetManager.b_bundle_size out.2 ∧
       AssetManager.br_checksum record = AssetManager.b_checksum out.2 ∧
       AssetManager.m_fonts (AssetManager.br_manifest record) = fonts ∧
       AssetManager.m_color_schemes (AssetManager.br_manifest record) = schemes ∧
       AssetManager.m_templates (AssetManager.br_manifest record) = templates ∧
       AssetManager.b_bundle_size out.2
         = String.length
             (zip_bytes fs
                ((member "fonts" <$> fonts)
                 ++ (member "color_schemes" <$> schemes)
                 ++ (member "templates" <$> templates)
                 ++ [AssetManager.ZipText "manifest.json"
                       (json_dumps (AssetManager.br_manifest record))]))) ∧
    (∀ other, other ≠ AssetManager.b_bundle_id out.2 →
              out.1 !! other = bundles !! other).
Proof.
  intros md5_hexdigest zip_bytes json_dumps fs now
    [name style include_fonts include_schemes include_templates metadata]
    bundles out style_name fonts schemes templates.
  subst out fonts schemes templates style_name.
  cbn [AssetManager.bc_style AssetManager.bc_include_fonts
       AssetManager.bc_include_color_schemes AssetManager.bc_include_templates].
  split; [|split; [|split]].
  - unfold AssetManager.create_bundle, packed.
    cbn [AssetManager.bc_name AssetManager.bc_style
         AssetManager.bc_include_fonts AssetManager.bc_include_color_schemes
         AssetManager.bc_include_templates AssetManager.bc_metadata].
    rewrite !add_assets.
    destruct (default true include_fonts), (default true include_schemes),
      (default true include_templates); reflexivity.
  - split; [|split].
    + etrans; [apply packed_bound | apply style_fonts_bound].
    + etrans; [apply packed_bound | simpl; lia].
    + etrans; [apply packed_bound | simpl; lia].
  - unfold AssetManager.create_bundle, packed.
    cbn [AssetManager.bc_name AssetManager.bc_style
         AssetManager.bc_include_fonts AssetManager.bc_include_color_schemes
         AssetManager.bc_include_templates AssetManager.bc_metadata].
    rewrite !add_assets.
    eexists. cbn [fst snd AssetManager.b_bundle_id].
    rewrite lookup_insert_eq. split; [reflexivity|].
    destruct (default true include_fonts), (default true include_schemes),
      (default true include_templates);
      cbn [fst snd app fmap list_fmap AssetManager.br_path AssetManager.br_size
           AssetManager.br_checksum AssetManager.br_manifest
           AssetManager.m_fonts AssetManager.m_color_schemes
           AssetManager.m_templates AssetManager.b_bundle_path
           AssetManager.b_bundle_size AssetManager.b_checksum];
      rewrite ?app_nil_r, <- ?app_assoc; by repeat split.
  - intros other Hother. unfold AssetManager.create_bundle in *.
    cbn [fst snd AssetManager.b_bundle_id] in *.
    by rewrite lookup_insert_ne.
Qed.

Lemma bundle_contents_witness :
  let out :=
    AssetManager.create_bundle (λ data, data) (λ _ _, "archive") (λ _, "{}")
      Sample.disk "2025-06-02T09:30:00"
      (AssetManager.BundleConfig (Some "demo") (Some "modern") None
         (Some false) None None) ∅ in
  out.1 !! "other" = None ∧
  AssetManager.b_asset_count out.2 = AssetManager.AssetCount 1 0 0.
Proof.
  intros out.
  destruct (bundle_contents (λ data, data) (λ _ _, "archive") (λ _, "{}")
              Sample.disk "2025-06-02T09:30:00"
              (AssetManager.BundleConfig (Some "demo") (Some "modern") None
                 (Some false) None None) ∅)
    as (Hcount & _ & _ & Hother).
  split.
  - subst out. rewrite Hother; [reflexivity|]. vm_compute. discriminate.
  - subst out. rewrite Hcount. vm_compute. reflexivity.
Defined.

Lemma prefix_length (n : nat) (s : string) :
  n ≤ String.length s → String.length (String.substring 0 n s) = n.
Proof.
  revert s. induction n as [|n IH]; intros s Hlen.
  - by destruct s.
  - destruct s as [|c s]; simpl in *; [lia|]. rewrite IH; [done | lia].
Qed.

Lemma prefix_all (p : ascii → bool) (n : nat) (s : string) :
  Str.all p s = true → Str.all p (String.substring 0 n s) = true.
Proof.
  revert s. induction n as [|n IH]; intros s Hall.
  - by destruct s.
  - destruct s as [|c s]; simpl in *; [done|].
    apply andb_true_iff in Hall as [-> Hall]. by apply IH.
Qed.

(** X13. When the digest function gives 32 hexadecimal digits, as MD5
    does, the bundle id is 12 hexadecimal digits long, the bundle is
    written to bundles/<id>.zip and its download URL is
    /api/bundles/<id>/download. *)
Theorem bundle_id_shape :
  ∀ md5_hexdigest zip_bytes json_dumps fs now config bundles,
    (∀ data, String.length (md5_hexdigest data) = 32) →
    (∀ data, Str.all Re.hexdigit (md5_hexdigest data) = true) →
    let result :=
      (AssetManager.create_bundle md5_hexdigest zip_bytes json_dumps fs now
         config bundles).2 in
    let bundle_id := AssetManager.b_bundle_id result in
    String.length bundle_id = 12 ∧
    Str.all Re.hexdigit bundle_id = true ∧
    AssetManager.b_bundle_path result = "bundles/" +:+ bundle_id +:+ ".zip" ∧
    AssetManager.b_download_url result
      = "/api/bundles/" +:+ bundle_id +:+ "/download".
Proof.
  intros md5_hexdigest zip_bytes json_dumps fs now config bundles Hlen Hhex
    result bundle_id. subst bundle_id result.
  unfold AssetManager.create_bundle.
  cbn [snd AssetManager.b_bundle_id AssetManager.b_bundle_path
       AssetManager.b_download_url].
  set (bundle_id := AssetManager._generate_bundle_id _ _ _ _).
  assert (Hid : String.length bundle_id = 12).
  { unfold bundle_id, AssetManager._generate_bundle_id.
    apply prefix_length. rewrite Hlen. lia. }
  assert (Hall : Str.all Re.hexdigit bundle_id = true).
  { unfold bundle_id, AssetManager._generate_bundle_id. by apply prefix_all. }
  repeat split; [done | done |].
  unfold FS.join. destruct bundle_id as [|c rest]; [discriminate|].
  simpl in Hall. apply andb_true_iff in Hall as [Hc _].
  change (String c rest +:+ ".zip") with (String c (rest +:+ ".zip")).
  destruct c as [[] [] [] [] [] [] [] []]; try discriminate; reflexivity.
Qed.

Lemma bundle_id_shape_witness :
  AssetManager.b_bundle_path
    (AssetManager.create_bundle (λ _, "0123456789abcdef0123456789abcdef")
       (λ _ _, "archive") (λ _, "{}") Sample.disk "2025-06-02T09:30:00"
       (AssetManager.BundleConfig (Some "demo") (Some "ieee") None None None None)
       ∅).2
  = "bundles/0123456789ab.zip".
Proof.
  destruct (bundle_id_shape (λ _, "0123456789abcdef0123456789abcdef")
              (λ _ _, "archive") (λ _, "{}") Sample.disk "2025-06-02T09:30:00"
              (AssetManager.BundleConfig (Some "demo") (Some "ieee") None None
                 None None) ∅) as (_ & _ & Hpath & _).
  - intros data. reflexivity.
  - intros data. reflexivity.
  - rewrite Hpath. reflexivity.
Defined.

(** ** Validation reports *)

#[local] Arguments Str.endswith_any : simpl never.

Section Reports.

Import AssetManager.
Variable fs : gmap string FS.file.

Lemma validate_fonts_from (fonts : list descriptor) report :
  foldl (validate_font fs) report fonts
  = Validation
      (valid report && forallb (well_formatted fs font_suffixes) fonts)
      (errors report
       ++ omap (λ d, match existing_path fs d with
                     | Some path =>
                         if Str.endswith_any (Str.lower path) font_suffixes
                         then None
                         else Some ("Invalid font format: " +:+ path)
                     | None =>
                         Some ("Font file not found: " +:+
                               default "No path specified" (d_path d))
                     end) fonts)
      (checked report ++ (file_check_of fs font_suffixes <$> fonts)).
Proof.
  revert report. induction fonts as [|d fonts IH]; intros [ok errs checks];
    simpl.
  - by rewrite andb_true_r, !app_nil_r.
  - rewrite IH. simpl. unfold validate_font, file_check_of, well_formatted.
    destruct (existing_path fs d) as [path|]; simpl.
    + destruct (Str.endswith_any (Str.lower path) font_suffixes); simpl;
        by rewrite <- ?app_assoc, ?andb_false_r.
    + by rewrite andb_false_r, <- !app_assoc.
Qed.

Lemma validate_templates_checked (templates : list descriptor) report :
  checked (foldl (validate_template fs) report templates)
  = checked report ++ (file_check_of fs template_suffixes <$> templates).
Proof.
  revert report. induction templates as [|d templates IH];
    intros [ok errs checks]; simpl.
  - by rewrite app_nil_r.
  - rewrite IH. simpl. unfold validate_template, file_check_of, well_formatted.
    destruct (existing_path fs d) as [path|]; simpl.
    + destruct (Str.endswith_any (Str.lower path) template_suffixes); simpl;
        by rewrite <- ?app_assoc.
    + by rewrite <- !app_assoc.
Qed.

Lemma validate_color_schemes_report (schemes : list descriptor) report report' :
  foldl (λ acc scheme, acc ≫= λ report, validate_color_scheme fs report scheme)
        (Some report) schemes = Some report' →
  report'
  = Validation
      (valid report && forallb (loads fs) schemes)
      (errors report
       ++ omap (λ d, match existing_path fs d with
                     | Some path =>
                         if loads fs d then None
                         else Some ("Invalid JSON in color scheme: " +:+ path)
                     | None =>
                         Some ("Color scheme file not found: " +:+
                               default "No path specified" (d_path d))
                     end) schemes)
      (checked report ++ (scheme_check_of fs <$> schemes)).
Proof.
  revert report. induction schemes as [|d schemes IH]; intros [ok errs checks];
    simpl.
  - intros [= <-]. by rewrite andb_true_r, !app_nil_r.
  - destruct (validate_color_scheme fs _ d) as [next|] eqn:Hstep; simpl.
    + intros Hrest. rewrite (IH _ Hrest). clear IH Hrest.
      revert Hstep.
      unfold validate_color_scheme, scheme_check_of, loads, color_count_of.
      destruct (existing_path fs d) as [path|]; simpl.
      * destruct (FS.load <$> fs !! path) as [[| color_count |]|];
          intros [= <-]; simpl; by rewrite <- ?app_assoc, ?andb_false_r.
      * intros [= <-]. simpl. by rewrite andb_false_r, <- !app_assoc.
    + by rewrite validate_color_schemes_raised.
Qed.

End Reports.

(** X14. Each validator records one check entry for each descriptor, in
    order: its name (Unknown when it has none), whether its file is on
    disk, whether the format is known or the JSON loads, and the size on
    disk or the number of colors (0 when the file is missing or does not
    load). *)
Theorem check_entries :
  (∀ fs fonts,
     AssetManager.checked (AssetManager._validate_fonts fs fonts)
       = file_check_of fs AssetManager.font_suffixes <$> fonts) ∧
  (∀ fs templates,
     AssetManager.checked (AssetManager._validate_templates fs templates)
       = file_check_of fs AssetManager.template_suffixes <$> templates) ∧
  (∀ fs schemes report,
     AssetManager._validate_color_schemes fs schemes = Some report →
     AssetManager.checked report = scheme_check_of fs <$> schemes).
Proof.
  split; [|split].
  - intros fs fonts. unfold AssetManager._validate_fonts.
    by rewrite validate_fonts_from.
  - intros fs templates. unfold AssetManager._validate_templates.
    by rewrite validate_templates_checked.
  - intros fs schemes report Hrun. unfold AssetManager._validate_color_schemes in Hrun.
    by rewrite (validate_color_schemes_report fs _ _ _ Hrun).
Qed.

Lemma check_entries_witness :
  AssetManager.checked
    <$> AssetManager._validate_color_schemes Sample.disk
          [AssetManager.Descriptor (Some "Ocean") (Some "color_schemes/ocean.json")
             None]
  = Some [AssetManager.SchemeCheck "Ocean" false false 0].
Proof.
  destruct (AssetManager._validate_color_schemes Sample.disk _) as [report|]
    eqn:Hrun; [|vm_compute in Hrun; discriminate].
  simpl. f_equal.
  rewrite (proj2 (proj2 check_entries) _ _ _ Hrun). by vm_compute.
Defined.

Lemma omap_length_filter {A B : Type} (f : A → option B) (p : A → bool)
    (l : list A) :
  (∀ x, is_Some (f x) ↔ p x = true) →
  length (omap f l) = length (List.filter p l).
Proof.
  intros Hfp. induction l as [|x l IH]; simpl; [done|].
  destruct (f x) as [y|] eqn:Hfx, (p x) eqn:Hpx; simpl.
  - f_equal. exact IH.
  - assert (H : is_Some (f x)) by (rewrite Hfx; eauto).
    apply Hfp in H. congruence.
  - assert (H : is_Some (f x)) by (by apply Hfp).
    rewrite Hfx in H. by destruct H.
  - exact IH.
Qed.

(** X15. The font report is valid exactly when every font has its file on
    disk under a path that ends in .ttf, .otf, .woff or .woff2, whatever
    the letter case; it holds exactly one error for each font that fails
    this, and so is valid exactly when it holds no error. *)
Theorem font_validation :
  ∀ fs fonts,
    let report := AssetManager._validate_fonts fs fonts in
    AssetManager.valid report
      = forallb (well_formatted fs AssetManager.font_suffixes) fonts ∧
    length (AssetManager.errors report)
      = length (List.filter
                  (λ d, negb (well_formatted fs AssetManager.font_suffixes d))
                  fonts) ∧
    (AssetManager.valid report = true ↔ AssetManager.errors report = []).
Proof.
  intros fs fonts report. subst report. split; [|split].
  - unfold AssetManager._validate_fonts. by rewrite validate_fonts_from.
  - unfold AssetManager._validate_fonts. rewrite validate_fonts_from.
    cbn [AssetManager.errors app]. apply omap_length_filter.
    intros d. unfold well_formatted.
    destruct (AssetManager.existing_path fs d) as [path|]; [|by eauto].
    destruct (Str.endswith_any (Str.lower path) AssetManager.font_suffixes);
      simpl; split; try done; try (by intros [? ?]); eauto.
  - apply validate_fonts_strict.
Qed.

(** X16. When [_validate_color_schemes] returns, its report is valid
    exactly when every color scheme has its file on disk and the file loads
    as JSON; it holds exactly one error for each scheme that fails this. *)
Theorem scheme_validation :
  ∀ fs schemes report,
    AssetManager._validate_color_schemes fs schemes = Some report →
    AssetManager.valid report = forallb (loads fs) schemes ∧
    length (AssetManager.errors report)
      = length (List.filter (λ d, negb (loads fs d)) schemes).
Proof.
  intros fs schemes report Hrun.
  unfold AssetManager._validate_color_schemes in Hrun.
  rewrite (validate_color_schemes_report fs _ _ _ Hrun). simpl.
  split; [done|]. clear Hrun.
  apply omap_length_filter. intros d.
  destruct (AssetManager.existing_path fs d) as [path|] eqn:Hpath.
  - destruct (loads fs d); simpl; split; try done; try (by intros [? ?]); eauto.
  - unfold loads. rewrite Hpath. simpl. split; eauto.
Qed.

Lemma scheme_validation_witness :
  AssetManager.valid
    <$> AssetManager._validate_color_schemes Sample.disk
          [AssetManager.Descriptor (Some "Arial") (Some "fonts/arial.ttf") None]
  = Some false.
Proof.
  destruct (AssetManager._validate_color_schemes Sample.disk _) as [report|]
    eqn:Hrun; [|vm_compute in Hrun; discriminate].
  simpl. f_equal.
  rewrite (proj1 (scheme_validation _ _ _ Hrun)). by vm_compute.
Defined.

Lemma font_validation_witness :
  AssetManager.valid
    (AssetManager._validate_fonts Sample.disk
       [AssetManager.Descriptor (Some "Arial") (Some "fonts/arial.ttf") None])
  = true.
Proof.
  apply (proj2 (proj2 (font_validation Sample.disk
           [AssetManager.Descriptor (Some "Arial") (Some "fonts/arial.ttf") None]))).
  vm_compute. reflexivity.
Defined.

(** ** Compatibility warnings *)

(** X17. The compatibility check never reports incompatibility: it warns,
    with one warning and one recommendation, exactly when the fonts and the
    color schemes are both given, some font has type serif and the style is
    modern, and warns about nothing otherwise.  The warning reaches the
    top-level warnings of [validate_assets] and nothing else of the result:
    the style of the configuration changes neither [valid] nor [errors]
    nor the reports. *)
Theorem compatibility_advisory :
  (∀ config,
     let check := AssetManager._check_asset_compatibility config in
     AssetManager.compatible check = true ∧
     length (AssetManager.c_warnings check) ≤ 1 ∧
     length (AssetManager.c_recommendations check)
       = length (AssetManager.c_warnings check) ∧
     (AssetManager.c_warnings check ≠ [] ↔
      (∃ fonts font,
         AssetManager.cfg_fonts config = Some fonts ∧ font ∈ fonts ∧
         AssetManager.d_type font = Some "serif") ∧
      is_Some (AssetManager.cfg_color_schemes config) ∧
      AssetManager.cfg_style config = Some "modern")) ∧
  (∀ fs now config style r,
     AssetManager.validate_assets fs now config = Some r →
     AssetManager.vr_warnings r
       = AssetManager.c_warnings (AssetManager._check_asset_compatibility config) ∧
     ∃ r',
       AssetManager.validate_assets fs now (with_style style config) = Some r' ∧
       AssetManager.vr_valid r' = AssetManager.vr_valid r ∧
       AssetManager.vr_errors r' = AssetManager.vr_errors r ∧
       AssetManager.vr_asset_checks r' = AssetManager.vr_asset_checks r).
Proof.
  split.
  - intros config check. subst check.
    unfold AssetManager._check_asset_compatibility.
    destruct (AssetManager.cfg_fonts config) as [fonts|] eqn:Hfonts.
    2: { split; [done|]. split; [simpl; lia|]. split; [done|].
         split; [done|]. intros [(? & ? & ? & _) _]. done. }
    destruct (AssetManager.cfg_color_schemes config) as [schemes|] eqn:Hschemes.
    2: { split; [done|]. split; [simpl; lia|]. split; [done|].
         split; [done|]. intros (_ & [? ?] & _). done. }
    set (serif := List.filter _ fonts).
    assert (Hserif : serif ≠ [] ↔
                     ∃ font, font ∈ fonts ∧ AssetManager.d_type font = Some "serif").
    { subst serif. clear. induction fonts as [|f fonts IH]; simpl.
      - split; [done|]. intros (font & Hin & _). by apply elem_of_nil in Hin.
      - case_bool_decide as Hf.
        + split; [|done]. intros _. exists f. split; [left | done].
        + rewrite IH. split.
          * intros (font & Hin & Htype). exists font. split; [by right | done].
          * intros (font & Hin & Htype).
            apply elem_of_cons in Hin as [-> | Hin]; [done|].
            exists font. by split. }
    case_bool_decide as Hnil; case_bool_decide as Hstyle; simpl;
      (split; [done|]); (split; [lia|]); (split; [done|]).
    + split; [done|]. intros ((l & font & [= <-] & Hin & Htype) & _ & _) _.
      apply (proj2 Hserif); eauto.
    + split; [done|]. intros (_ & _ & ?). done.
    + split; [|done]. intros _. apply Hserif in Hnil as (font & Hin & Htype).
      split; [|split]; eauto.
    + split; [done|]. intros (_ & _ & ?). done.
  - intros fs now config style r Hrun.
    unfold AssetManager.validate_assets in *.
    cbn [with_style AssetManager.cfg_fonts AssetManager.cfg_color_schemes
         AssetManager.cfg_templates].
    destruct (match AssetManager.cfg_color_schemes config with
              | Some color_schemes =>
                  Some <$> AssetManager._validate_color_schemes fs color_schemes
              | None => Some None
              end) as [color_validation|]; [|done].
    simpl in Hrun. injection Hrun as <-. simpl. split; [done|].
    eexists. by repeat split.
Qed.

Lemma compatibility_advisory_witness :
  ∃ r',
    AssetManager.validate_assets Sample.disk "2025-06-02T09:30:00"
      (with_style (Some "modern") Sample.draft_config) = Some r' ∧
    AssetManager.vr_valid r' = true.
Proof.
  destruct (AssetManager.validate_assets Sample.disk "2025-06-02T09:30:00"
              Sample.draft_config) as [r|] eqn:Hrun;
    [|vm_compute in Hrun; discriminate].
  destruct (proj2 compatibility_advisory _ _ _ (Some "modern") _ Hrun)
    as (_ & r' & Hrun' & Hvalid & _).
  exists r'. split; [exact Hrun'|]. rewrite Hvalid.
  vm_compute in Hrun. by injection Hrun as <-.
Defined.

(** ** The template catalog *)

Section Templates.

Import TemplateService.
Variable texts : template_texts.

Lemma template_usage_same (info : template_info) :
  with_usage_count (ti_usage_count info) info = info.
Proof. by destruct info. Qed.

(** X18. The template catalog is fixed: in every registry reached from
    construction the category index is the one construction built, the
    registered ids are the ones construction registered, and each entry is
    the one construction stored but for its usage count. *)
Theorem template_catalog_fixed :
  ∀ reg,
    reachable texts reg →
    ∃ now0,
      categories reg = categories (init texts now0) ∧
      ∀ id,
        match templates (init texts now0) !! id with
        | Some info0 =>
            ∃ n, templates reg !! id = Some (with_usage_count n info0)
        | None => templates reg !! id = None
        end.
Proof.
  induction 1 as [now | now name reg _ (now0 & Hcats & Hentries)].
  - exists now. split; [done|]. intros id.
    destruct (templates (init texts now) !! id) as [info0|] eqn:Hinfo; [|done].
    exists (ti_usage_count info0). by rewrite template_usage_same.
  - exists now0. unfold get_template.
    destruct (templates reg !! _generate_template_id name) as [found|] eqn:Hfound;
      [|by split].
    cbn [fst templates categories with_templates]. split; [done|].
    intros id. specialize (Hentries id).
    destruct (decide (_generate_template_id name = id)) as [<- | Hne].
    + rewrite lookup_insert_eq. revert Hentries.
      destruct (templates (init texts now0) !! _generate_template_id name)
        as [info0|]; [|congruence].
      intros [n Hn]. rewrite Hfound in Hn. injection Hn as ->.
      by eexists.
    + by rewrite lookup_insert_ne.
Qed.

Lemma init_template_lookup now (template : template_info) :
  template ∈ templates_data texts →
  ∃ info0,
    templates (init texts now) !! _generate_template_id (ti_name template)
      = Some info0 ∧
    ti_file_extension info0 = ti_file_extension template.
Proof.
  unfold templates_data. intros Hin.
  repeat (apply elem_of_cons in Hin as [-> | Hin];
          [eexists; split; [by vm_compute | done]|]).
  by apply elem_of_nil in Hin.
Qed.

(** X19. A built-in template asked for by its own name is looked for in
    the file construction saved for it: when that file is on disk,
    [get_template_path] returns it and writes nothing, in every registry
    reached from construction.  The file is looked for under the name of
    the request, so when no file of that name is on disk the placeholder
    path is returned and written, whatever else is on disk. *)
Theorem template_path_cases :
  (∀ fs reg template,
     reachable texts reg →
     template ∈ templates_data texts →
     FS.exists_ fs (template_file_path (ti_name template)
                      (ti_file_extension template)) = true →
     get_template_path fs (ti_name template) reg
       = PathResult
           (Some (template_file_path (ti_name template)
                    (ti_file_extension template))) []) ∧
  (∀ fs reg name info,
     templates reg !! _generate_template_id name = Some info →
     FS.exists_ fs (template_file_path name (ti_file_extension info)) = false →
     get_template_path fs name reg
       = PathResult (Some (placeholder_path name (ti_file_extension info)))
           [placeholder_path name (ti_file_extension info)]) ∧
  (∀ fs reg name,
     templates reg !! _generate_template_id name = None →
     get_template_path fs name reg = PathResult None []).
Proof.
  split; [|split].
  - intros fs reg template Hreach Hin Hexists.
    destruct (template_catalog_fixed reg Hreach) as (now0 & _ & Hentries).
    destruct (init_template_lookup now0 template Hin) as (info0 & Hinfo0 & Hext).
    specialize (Hentries (_generate_template_id (ti_name template))).
    rewrite Hinfo0 in Hentries. destruct Hentries as [n Hn].
    unfold get_template_path. rewrite Hn.
    cbn [ti_file_extension with_usage_count]. by rewrite Hext, Hexists.
  - intros fs reg name info Hinfo Hmissing.
    unfold get_template_path. by rewrite Hinfo, Hmissing.
  - intros fs reg name Hnone. unfold get_template_path. by rewrite Hnone.
Qed.

End Templates.

Lemma template_catalog_fixed_witness :
  ∃ now0,
    TemplateService.categories
      (TemplateService.get_template "2025-06-02T09:30:00" "IEEE Article HTML"
         (TemplateService.init
            (TemplateService.TemplateTexts "a" "b" "c" "d" "e" "f")
            "2025-06-02T00:00:00")).1
    = TemplateService.categories
        (TemplateService.init
           (TemplateService.TemplateTexts "a" "b" "c" "d" "e" "f") now0).
Proof.
  destruct (template_catalog_fixed
              (TemplateService.TemplateTexts "a" "b" "c" "d" "e" "f")
              (TemplateService.get_template "2025-06-02T09:30:00"
                 "IEEE Article HTML"
                 (TemplateService.init
                    (TemplateService.TemplateTexts "a" "b" "c" "d" "e" "f")
                    "2025-06-02T00:00:00")).1) as (now0 & Hcats & _).
  - apply TemplateService.reachable_get, TemplateService.reachable_init.
  - exists now0. exact Hcats.
Defined.

Lemma template_path_cases_witness :
  TemplateService.get_template_path
    (<["templates/ieee_article_html.html" := FS.File 900 FS.JSONDecodeError]> ∅)
    "ieee-article-html"
    (TemplateService.init (TemplateService.TemplateTexts "a" "b" "c" "d" "e" "f")
       "2025-06-02T00:00:00")
  = TemplateService.PathResult
      (Some "templates/ieee-article-html_placeholder.html")
      ["templates/ieee-article-html_placeholder.html"].
Proof.
  destruct (TemplateService.templates
              (TemplateService.init
                 (TemplateService.TemplateTexts "a" "b" "c" "d" "e" "f")
                 "2025-06-02T00:00:00")
              !! _generate_template_id "ieee-article-html")
    as [info|] eqn:Hinfo; [|vm_compute in Hinfo; discriminate].
  rewrite (proj1 (proj2 (template_path_cases
             (TemplateService.TemplateTexts "a" "b" "c" "d" "e" "f")))
             _ _ "ieee-article-html" info Hinfo).
  - vm_compute in Hinfo. by injection Hinfo as <-.
  - vm_compute in Hinfo. injection Hinfo as <-. by vm_compute.
Defined.

(** ** Lookup by id *)

Lemma normalize_char_idempotent (c : ascii) :
  normalize_char (normalize_char c) = normalize_char c.
Proof. destruct c as [[] [] [] [] [] [] [] []]; reflexivity. Qed.

Lemma normalized_id_idempotent (name : string) :
  normalized_id (normalized_id name) = normalized_id name.
Proof.
  unfold normalized_id. induction name as [|c name IH]; simpl; [done|].
  by rewrite normalize_char_idempotent, IH.
Qed.

Lemma generate_id_idempotent (name : string) :
  _generate_font_id (_generate_font_id name) = _generate_font_id name.
Proof. rewrite !generate_font_id_normalized. apply normalized_id_idempotent. Qed.

Lemma keyed_insert {A : Type} (id_of name_of : A → string)
    (primary : gmap string A) (i : string) (a : A) :
  keyed id_of name_of primary → id_of a = i → _generate_font_id (name_of a) = i →
  keyed id_of name_of (<[i := a]> primary).
Proof.
  intros Hkeyed Hid Hname j b Hb.
  destruct (decide (i = j)) as [-> | Hne].
  - rewrite lookup_insert_eq in Hb. by injection Hb as <-.
  - rewrite lookup_insert_ne in Hb by done. by apply Hkeyed.
Qed.

Lemma keyed_empty {A : Type} (id_of name_of : A → string) :
  keyed id_of name_of (∅ : gmap string A).
Proof. intros i a Hi. by rewrite lookup_empty in Hi. Qed.

Lemma font_reachable_keyed reg :
  FontService.reachable reg →
  keyed FontService.fi_id FontService.fi_name (FontService.fonts reg).
Proof.
  induction 1 as [now | c reg _ IH].
  - unfold FontService.init, FontService._register_default_fonts.
    cbn [FontService.fonts].
    generalize (keyed_empty FontService.fi_id FontService.fi_name).
    change (∅ : gmap string FontService.font_info)
      with (FontService.fonts (FontService._initialize_font_registry now)).
    generalize (FontService._initialize_font_registry now).
    induction FontService.default_fonts as [|font l IHl]; intros reg Hreg;
      simpl; [done|].
    apply IHl. rewrite font_default_fonts. by apply keyed_insert.
  - destruct c as [now data | now font_name | fs font_name]; simpl.
    + unfold FontService.register_custom_font.
      destruct (FontService.fd_name data) as [name|]; [|done].
      destruct (FontService.fd_family data); [|done].
      destruct (FontService.fd_category data); [|done].
      case_bool_decide; [done|]. simpl. by apply keyed_insert.
    + by rewrite font_details_unchanged.
    + unfold FontService.get_font_path.
      destruct (FontService.fonts reg !! _generate_font_id font_name)
        as [found|] eqn:Hfound; [|done].
      destruct (find _ _); [|done]. simpl.
      destruct (IH _ _ Hfound) as [Hid Hname]. by apply keyed_insert.
Qed.

Lemma scheme_reachable_keyed reg :
  ColorSchemeService.reachable reg →
  keyed ColorSchemeService.si_id ColorSchemeService.si_name
        (ColorSchemeService.schemes reg).
Proof.
  induction 1 as [now | c reg _ IH].
  - unfold ColorSchemeService.init, ColorSchemeService._create_default_schemes.
    cbn [fst ColorSchemeService.schemes].
    generalize (keyed_empty ColorSchemeService.si_id ColorSchemeService.si_name).
    change (∅ : gmap string ColorSchemeService.scheme_info)
      with (ColorSchemeService.schemes
              (ColorSchemeService._initialize_scheme_registry now)).
    generalize (ColorSchemeService._initialize_scheme_registry now).
    induction ColorSchemeService.default_schemes as [|scheme l IHl];
      intros reg Hreg; simpl; [done|].
    apply IHl. rewrite scheme_default_schemes. by apply keyed_insert.
  - destruct c as [now data | now scheme_name]; simpl.
    + unfold ColorSchemeService.create_scheme.
      destruct (ColorSchemeService.sd_name data) as [name|]; [|done].
      destruct (ColorSchemeService.sd_category data); [|done].
      destruct (ColorSchemeService.sd_colors data); [|done].
      case_bool_decide; [done|]. destruct (negb _); [done|].
      simpl. by apply keyed_insert.
    + unfold ColorSchemeService.get_scheme.
      destruct (ColorSchemeService.schemes reg !! _generate_scheme_id scheme_name)
        as [found|] eqn:Hfound; [|done].
      simpl. destruct (IH _ _ Hfound) as [Hid Hname]. by apply keyed_insert.
Qed.

(** X20. A derived id derives itself, and in every registry reached from
    construction each entry is stored under the id its name derives and
    carries that id in its id field; so every registered font or color
    scheme is found when its id is given as the name. *)
Theorem lookup_by_id :
  (∀ name, _generate_font_id (_generate_font_id name) = _generate_font_id name) ∧
  (∀ reg now id info,
     FontService.reachable reg →
     FontService.fonts reg !! id = Some info →
     FontService.fi_id info = id ∧
     _generate_font_id (FontService.fi_name info) = id ∧
     fst <$> (FontService.get_font_details now id reg).2 = Some info) ∧
  (∀ reg now id info,
     ColorSchemeService.reachable reg →
     ColorSchemeService.schemes reg !! id = Some info →
     ColorSchemeService.si_id info = id ∧
     _generate_scheme_id (ColorSchemeService.si_name info) = id ∧
     fst <$> (ColorSchemeService.get_scheme now id reg).2 = Some info).
Proof.
  split; [apply generate_id_idempotent|]. split.
  - intros reg now id info Hreach Hinfo.
    destruct (font_reachable_keyed reg Hreach id info Hinfo) as [Hid Hname].
    split; [done|]. split; [done|].
    unfold FontService.get_font_details.
    rewrite <- Hname, generate_id_idempotent, Hname, Hinfo. done.
  - intros reg now id info Hreach Hinfo.
    destruct (scheme_reachable_keyed reg Hreach id info Hinfo) as [Hid Hname].
    split; [done|]. split; [done|].
    unfold ColorSchemeService.get_scheme.
    change (_generate_scheme_id id) with (_generate_font_id id).
    rewrite <- Hname, generate_id_idempotent, Hname, Hinfo. done.
Qed.

Lemma lookup_by_id_witness :
  FontService.fi_name
    <$> (fst <$> (FontService.get_font_details "2025-06-02T09:30:00"
                    "courier_new" (FontService.init "2025-06-02T00:00:00")).2)
  = Some "Courier New".
Proof.
  destruct (FontService.fonts (FontService.init "2025-06-02T00:00:00")
              !! "courier_new") as [info|] eqn:Hinfo;
    [|vm_compute in Hinfo; discriminate].
  destruct (proj1 (proj2 lookup_by_id) _ "2025-06-02T09:30:00" _ _
              (FontService.reachable_init "2025-06-02T00:00:00") Hinfo)
    as (_ & _ & Hget).
  rewrite Hget. vm_compute in Hinfo. by injection Hinfo as <-.
Defined.
